(** * chat-base1: a chat panel and a canvas of linked text blocks

    A shallow embedding of the interaction handlers of the workspace
    (App.tsx, ChatPanel.tsx, ChatSidebar.tsx, CanvasPanel.tsx, TextBlock.tsx)
    and the properties its specification states about them.

    Conventions of the embedding:
    - a JavaScript [number] is an exact rational ([Q]); equality of computed
      coordinates is [Qeq];
    - a JavaScript [string] is a [string] of code units, each below 256;
    - a [Date] is its epoch value in milliseconds ([Z]); [Date.now()] and
      [Math.random()] are inputs of the handler that reads them;
    - every [useState] cell is a field of the component's state record and
      every handler is a function on that record; [setX(prev => f prev)]
      is written [setX f], and the values a handler reads from its closure
      are read from the state the handler was entered with. *)

From Stdlib Require Import ZArith QArith Qround Qminmax Qfield Lqa.
From Stdlib Require Import List Bool String Ascii DecimalString Lia.
From Stdlib Require Import Sorted Permutation.
Import ListNotations.

Open Scope string_scope.
Open Scope Q_scope.

Notation "x |> f" := (f x) (at level 68, left associativity, only parsing).

(** ** JavaScript primitives used by the handlers *)

Module JS.

(** [Math.max], [Math.min], [Math.floor], [Math.round] *)
Definition max (a b : Q) : Q := Qmax a b.
Definition min (a b : Q) : Q := Qmin a b.
Definition floor (a : Q) : Q := inject_Z (Qfloor a).
(** [Math.round] rounds half-way cases towards plus infinity. *)
Definition round (a : Q) : Q := inject_Z (Qfloor (a + (1 # 2))).

(** [a > b] on numbers *)
Definition gtb (a b : Q) : bool :=
  match a ?= b with Gt => true | _ => false end.
(** [a <= b] on numbers *)
Definition leb (a b : Q) : bool := negb (gtb a b).

(** [n.toString()] of an integer-valued number *)
Definition toString (n : Z) : string := NilZero.string_of_int (Z.to_int n).

(** Truthiness of a string: every string but the empty one. *)
Definition truthy (s : string) : bool :=
  match s with EmptyString => false | String _ _ => true end.

(** [s.split(c)] for a one-character separator: the pieces between the
    occurrences of [c], empty pieces included; never the empty list. *)
Fixpoint split (c : ascii) (s : string) : list string :=
  match s with
  | EmptyString => [EmptyString]
  | String a rest =>
      if Ascii.eqb a c then EmptyString :: split c rest
      else match split c rest with
           | [] => [String a EmptyString]
           | piece :: pieces => String a piece :: pieces
           end
  end.

(** White space removed by [String.prototype.trim], among the code units
    below 256: tab, line feed, vertical tab, form feed, carriage return,
    space and no-break space. *)
Definition isWhite (a : ascii) : bool :=
  let n := nat_of_ascii a in
  (Nat.leb 9 n && Nat.leb n 13) || Nat.eqb n 32 || Nat.eqb n 160.

Fixpoint trimStart (s : string) : string :=
  match s with
  | EmptyString => EmptyString
  | String a rest => if isWhite a then trimStart rest else s
  end.

(** Drops the trailing white space: a white character is kept only when
    something that is kept follows it. *)
Fixpoint trimEnd (s : string) : string :=
  match s with
  | EmptyString => EmptyString
  | String a rest =>
      match trimEnd rest with
      | EmptyString => if isWhite a then EmptyString else String a EmptyString
      | kept => String a kept
      end
  end.

Definition trim (s : string) : string := trimEnd (trimStart s).

(** [arr.find(p)] is [List.find]; [arr.filter(p)] is [List.filter];
    [arr.map(f)] is [List.map]; [[...arr, x]] is [arr ++ [x]]. *)

End JS.

(** A point [{ x, y }]. *)
Record Point := mkPoint { px : Q; py : Q }.

(** ** Data model of CanvasPanel.tsx *)

Module TextNode.
Record t := mk {
  id : string;
  text : string;
  x : Q;
  y : Q;
  width : Q;
  height : Q;
  sourceMessageId : option string;
  sourceChatId : option string;
  color : string
}.
End TextNode.

Inductive ConnectionType := straight | curved | angled.

Module Connection.
Record t := mk {
  id : string;
  from : string;
  to : string;
  fromPoint : Point;
  toPoint : Point;
  type : ConnectionType;
  label : option string
}.
End Connection.

Module CanvasData.
Record t := mk {
  id : string;
  title : string;
  nodes : list TextNode.t;
  connections : list Connection.t;
  createdAt : Z;
  lastModified : Z
}.
End CanvasData.

(** ** Inputs a handler reads from the DOM *)

(** [canvasRef.current.getBoundingClientRect()] *)
Record DOMRect := mkRect { left : Q; top : Q; rwidth : Q; rheight : Q }.

(** The fields of a mouse event the handlers read. *)
Record MouseEvent := mkMouse { clientX : Q; clientY : Q }.

(** Calls a component makes on the callbacks of its props. *)
Inductive Callback :=
| TextDragComplete
| BlockClick (messageId : string) (chatId : option string).

(** [v || undefined] on an optional string: absent when [v] is null or
    the empty string. *)
Definition orUndefined (v : option string) : option string :=
  match v with
  | Some s => if JS.truthy s then Some s else None
  | None => None
  end.

(** Truthiness of a [string | null] state cell. *)
Definition isSet (v : option string) : bool :=
  match v with Some s => JS.truthy s | None => false end.

(** Screen to canvas space, as the handlers compute it: subtract the pan
    offset, divide by the zoom factor. *)
Definition screenToCanvas (pan : Point) (zoom : Q) (s : Point) : Point :=
  mkPoint ((px s - px pan) / zoom) ((py s - py pan) / zoom).

(** Canvas to screen space: the style of the canvas element,
    [translate(pan.x px, pan.y px) scale(zoom)] with origin [0 0]. *)
Definition canvasToScreen (pan : Point) (zoom : Q) (c : Point) : Point :=
  mkPoint (px c * zoom + px pan) (py c * zoom + py pan).

(** ** CanvasPanel.tsx *)

Module CanvasPanel.

Record State := mk {
  canvases : list CanvasData.t;
  currentCanvasId : string;
  nodes : list TextNode.t;
  connections : list Connection.t;
  selectedNode : option string;
  draggingNode : option string;
  dragOffset : Point;
  zoom : Q;
  pan : Point;
  isPanning : bool;
  panStart : Point;
  connectingFrom : option string;
  connectionStart : option Point
}.

(** The state of the first render; [t0] is the value of [new Date()]. *)
Definition initial (t0 : Z) : State :=
  {| canvases := [ CanvasData.mk "default-canvas" "Main Canvas" [] [] t0 t0 ];
     currentCanvasId := "default-canvas";
     nodes := [];
     connections := [];
     selectedNode := None;
     draggingNode := None;
     dragOffset := mkPoint 0 0;
     zoom := 1;
     pan := mkPoint 0 0;
     isPanning := false;
     panStart := mkPoint 0 0;
     connectingFrom := None;
     connectionStart := None |}.

(** *** State setters *)

Definition setCanvases (f : list CanvasData.t -> list CanvasData.t) (s : State) :=
  mk (f (canvases s)) (currentCanvasId s) (nodes s) (connections s)
     (selectedNode s) (draggingNode s) (dragOffset s) (zoom s) (pan s)
     (isPanning s) (panStart s) (connectingFrom s) (connectionStart s).
Definition setCurrentCanvasId (v : string) (s : State) :=
  mk (canvases s) v (nodes s) (connections s)
     (selectedNode s) (draggingNode s) (dragOffset s) (zoom s) (pan s)
     (isPanning s) (panStart s) (connectingFrom s) (connectionStart s).
Definition setNodes (f : list TextNode.t -> list TextNode.t) (s : State) :=
  mk (canvases s) (currentCanvasId s) (f (nodes s)) (connections s)
     (selectedNode s) (draggingNode s) (dragOffset s) (zoom s) (pan s)
     (isPanning s) (panStart s) (connectingFrom s) (connectionStart s).
Definition setConnections (f : list Connection.t -> list Connection.t) (s : State) :=
  mk (canvases s) (currentCanvasId s) (nodes s) (f (connections s))
     (selectedNode s) (draggingNode s) (dragOffset s) (zoom s) (pan s)
     (isPanning s) (panStart s) (connectingFrom s) (connectionStart s).
Definition setSelectedNode (v : option string) (s : State) :=
  mk (canvases s) (currentCanvasId s) (nodes s) (connections s)
     v (draggingNode s) (dragOffset s) (zoom s) (pan s)
     (isPanning s) (panStart s) (connectingFrom s) (connectionStart s).
Definition setDraggingNode (v : option string) (s : State) :=
  mk (canvases s) (currentCanvasId s) (nodes s) (connections s)
     (selectedNode s) v (dragOffset s) (zoom s) (pan s)
     (isPanning s) (panStart s) (connectingFrom s) (connectionStart s).
Definition setDragOffset (v : Point) (s : State) :=
  mk (canvases s) (currentCanvasId s) (nodes s) (connections s)
     (selectedNode s) (draggingNode s) v (zoom s) (pan s)
     (isPanning s) (panStart s) (connectingFrom s) (connectionStart s).
Definition setZoom (f : Q -> Q) (s : State) :=
  mk (canvases s) (currentCanvasId s) (nodes s) (connections s)
     (selectedNode s) (draggingNode s) (dragOffset s) (f (zoom s)) (pan s)
     (isPanning s) (panStart s) (connectingFrom s) (connectionStart s).
Definition setPan (v : Point) (s : State) :=
  mk (canvases s) (currentCanvasId s) (nodes s) (connections s)
     (selectedNode s) (draggingNode s) (dragOffset s) (zoom s) v
     (isPanning s) (panStart s) (connectingFrom s) (connectionStart s).
Definition setIsPanning (v : bool) (s : State) :=
  mk (canvases s) (currentCanvasId s) (nodes s) (connections s)
     (selectedNode s) (draggingNode s) (dragOffset s) (zoom s) (pan s)
     v (panStart s) (connectingFrom s) (connectionStart s).
Definition setPanStart (v : Point) (s : State) :=
  mk (canvases s) (currentCanvasId s) (nodes s) (connections s)
     (selectedNode s) (draggingNode s) (dragOffset s) (zoom s) (pan s)
     (isPanning s) v (connectingFrom s) (connectionStart s).
Definition setConnectingFrom (v : option string) (s : State) :=
  mk (canvases s) (currentCanvasId s) (nodes s) (connections s)
     (selectedNode s) (draggingNode s) (dragOffset s) (zoom s) (pan s)
     (isPanning s) (panStart s) v (connectionStart s).
Definition setConnectionStart (v : option Point) (s : State) :=
  mk (canvases s) (currentCanvasId s) (nodes s) (connections s)
     (selectedNode s) (draggingNode s) (dragOffset s) (zoom s) (pan s)
     (isPanning s) (panStart s) (connectingFrom s) v.

Definition colors : list string :=
  [ "#3B82F6"; "#14B8A6"; "#F97316"; "#EF4444"; "#8B5CF6";
    "#06B6D4"; "#84CC16"; "#F59E0B"; "#EC4899"; "#6366F1" ].

Definition hasId (i : string) (n : TextNode.t) : bool :=
  String.eqb (TextNode.id n) i.

(** *** Canvas store *)

(** [updateCanvasData]: the working nodes and connections are written
    into the canvas whose id is the current one. *)
Definition updateCanvasData (now : Z) (s : State) : State :=
  s |> setCanvases (map (fun canvas =>
         if String.eqb (CanvasData.id canvas) (currentCanvasId s)
         then CanvasData.mk (CanvasData.id canvas) (CanvasData.title canvas)
                (nodes s) (connections s) (CanvasData.createdAt canvas) now
         else canvas)).

(** [handleCanvasSelect], reading [canvases] from the closure [cs]. *)
Definition handleCanvasSelectIn (cs : list CanvasData.t) (canvasId : string)
    (s : State) : State :=
  match find (fun c => String.eqb (CanvasData.id c) canvasId) cs with
  | Some canvas =>
      s |> setCurrentCanvasId canvasId
        |> setNodes (fun _ => CanvasData.nodes canvas)
        |> setConnections (fun _ => CanvasData.connections canvas)
        |> setSelectedNode None
        |> setConnectingFrom None
        |> setConnectionStart None
  | None => s
  end.

Definition handleCanvasSelect (canvasId : string) (s : State) : State :=
  handleCanvasSelectIn (canvases s) canvasId s.

(** [handleNewCanvas]: the canvas is appended by a functional update, and
    [handleCanvasSelect] then searches the list of the render the handler
    belongs to, which does not hold the new canvas yet. *)
Definition handleNewCanvas (now : Z) (s : State) : State :=
  let newCanvas :=
    CanvasData.mk ("canvas-" ++ JS.toString now)
      ("Canvas " ++ JS.toString (Z.of_nat (List.length (canvases s)) + 1))
      [] [] now now in
  s |> setCanvases (fun prev => (prev ++ [newCanvas])%list)
    |> handleCanvasSelectIn (canvases s) (CanvasData.id newCanvas).

(** What a handler ends with: it returns, or it throws a [TypeError]
    after the updates it had queued. *)
Inductive Outcome :=
| Returned (s : State)
| Threw (s : State).

Definition stateOf (o : Outcome) : State :=
  match o with Returned s => s | Threw s => s end.

Definition handleCanvasDelete (canvasId : string) (s : State) : Outcome :=
  if Nat.leb (List.length (canvases s)) 1 then Returned s
  else
    let keep := fun c => negb (String.eqb (CanvasData.id c) canvasId) in
    let s1 := s |> setCanvases (filter keep) in
    if String.eqb (currentCanvasId s) canvasId then
      match filter keep (canvases s) with
      | first :: _ =>
          Returned (handleCanvasSelectIn (canvases s) (CanvasData.id first) s1)
      | [] => Threw s1
      end
    else Returned s1.

(** *** Dropped text *)

Record Size := mkSize { size_width : Q; size_height : Q }.

(** [calculateInitialSize] *)
Definition calculateInitialSize (text : string) : Size :=
  let words := inject_Z (Z.of_nat (List.length (JS.split " "%char text))) in
  let chars := inject_Z (Z.of_nat (String.length text)) in
  let width := 240 in
  let height := 120 in
  let width :=
    if JS.gtb chars 100 then JS.min 400 (240 + (chars - 100) * 1.5)
    else width in
  let height :=
    if JS.gtb chars 100
    then JS.min 250 (120 + JS.floor ((chars - 100) / 60) * 25)
    else height in
  let height :=
    if JS.gtb words 20
    then JS.min 300 (height + JS.floor ((words - 20) / 12) * 20)
    else height in
  mkSize (JS.round width) (JS.round height).

(** The props of the panel that carry the pending drag transfer. *)
Record Props := mkProps {
  draggedText : option string;
  sourceMsgId : option string;
  sourceChatId : option string
}.

(** The effect on [draggedText]: [rect] is the bounding rectangle of
    [canvasRef.current], absent when the ref is not attached. *)
Definition dropEffect (p : Props) (rect : option DOMRect) (now : Z)
    (s : State) : State * list Callback :=
  match draggedText p, rect with
  | Some dragged, Some r =>
      if JS.truthy dragged then
        let center :=
          screenToCanvas (pan s) (zoom s)
            (mkPoint (rwidth r / 2) (rheight r / 2)) in
        let size := calculateInitialSize dragged in
        let newNode :=
          TextNode.mk (JS.toString now) dragged
            (px center - size_width size / 2)
            (py center - size_height size / 2)
            (size_width size) (size_height size)
            (orUndefined (sourceMsgId p)) (orUndefined (sourceChatId p))
            (nth (Nat.modulo (List.length (nodes s)) (List.length colors))
                 colors "undefined") in
        (s |> setNodes (fun prev => (prev ++ [newNode])%list),
         [TextDragComplete])
      else (s, [])
  | _, _ => (s, [])
  end.

(** *** Zoom *)

(** [handleWheel]: [inCanvas] tells whether the canvas element is
    attached and contains the target of the event. *)
Definition handleWheel (inCanvas : bool) (deltaY : Q) (s : State) : State :=
  if inCanvas then
    let delta := if JS.gtb deltaY 0 then 0.9 else 1.1 in
    s |> setZoom (fun prev => JS.max 0.5 (JS.min 3 (prev * delta)))
  else s.

(** The two zoom buttons. The product and the quotient are exact here,
    where the code rounds each to a double: the bounds the buttons keep
    hold either way, an equation between a zoom and the zoom after both
    buttons need not. *)
Definition handleZoomIn (s : State) : State :=
  s |> setZoom (fun prev => JS.min (prev * 1.2) 3).

Definition handleZoomOut (s : State) : State :=
  s |> setZoom (fun prev => JS.max (prev / 1.2) 0.5).

(** *** Blocks and connections *)

Definition center (n : TextNode.t) : Point :=
  mkPoint (TextNode.x n + TextNode.width n / 2)
          (TextNode.y n + TextNode.height n / 2).

(** The position of the pointer in canvas space. *)
Definition pointer (e : MouseEvent) (r : DOMRect) (s : State) : Point :=
  screenToCanvas (pan s) (zoom s)
    (mkPoint (clientX e - left r) (clientY e - top r)).

(** The branch of [handleBlockMouseDown] that starts a drag. *)
Definition startDragging (e : MouseEvent) (rect : option DOMRect)
    (nodeId : string) (s : State) : State :=
  let s1 := s |> setDraggingNode (Some nodeId)
              |> setSelectedNode (Some nodeId) in
  match find (hasId nodeId) (nodes s), rect with
  | Some node, Some r =>
      let c := pointer e r s in
      s1 |> setDragOffset
              (mkPoint (px c - TextNode.x node) (py c - TextNode.y node))
  | _, _ => s1
  end.

(** The branch of [handleBlockMouseDown] that completes a connection
    armed from [source]. *)
Definition completeConnection (now : Z) (source nodeId : string)
    (s : State) : State :=
  let fromNode := find (hasId source) (nodes s) in
  let toNode := find (hasId nodeId) (nodes s) in
  let s1 :=
    match fromNode, toNode, connectionStart s with
    | Some _, Some target, Some start =>
        let newConnection :=
          Connection.mk (JS.toString now) source nodeId start
            (center target) curved None in
        s |> setConnections (fun prev => (prev ++ [newConnection])%list)
    | _, _, _ => s
    end in
  s1 |> setConnectingFrom None |> setConnectionStart None.

Definition handleBlockMouseDown (e : MouseEvent) (rect : option DOMRect)
    (now : Z) (nodeId : string) (s : State) : State :=
  match connectingFrom s with
  | Some source =>
      if JS.truthy source && negb (String.eqb source nodeId)
      then completeConnection now source nodeId s
      else startDragging e rect nodeId s
  | None => startDragging e rect nodeId s
  end.

Definition handleBlockClick (nodeId : string) (s : State) : list Callback :=
  match find (hasId nodeId) (nodes s) with
  | Some node =>
      match TextNode.sourceMessageId node with
      | Some m =>
          if JS.truthy m then [BlockClick m (TextNode.sourceChatId node)]
          else []
      | None => []
      end
  | None => []
  end.

Definition handleConnectionStart (nodeId : string) (point : Point)
    (s : State) : State :=
  s |> setConnectingFrom (Some nodeId) |> setConnectionStart (Some point).

Definition withSize (width height : Q) (n : TextNode.t) : TextNode.t :=
  TextNode.mk (TextNode.id n) (TextNode.text n) (TextNode.x n) (TextNode.y n)
    width height (TextNode.sourceMessageId n) (TextNode.sourceChatId n)
    (TextNode.color n).

Definition withPosition (p : Point) (n : TextNode.t) : TextNode.t :=
  TextNode.mk (TextNode.id n) (TextNode.text n) (px p) (py p)
    (TextNode.width n) (TextNode.height n) (TextNode.sourceMessageId n)
    (TextNode.sourceChatId n) (TextNode.color n).

Definition withFromPoint (p : Point) (c : Connection.t) : Connection.t :=
  Connection.mk (Connection.id c) (Connection.from c) (Connection.to c)
    p (Connection.toPoint c) (Connection.type c) (Connection.label c).

Definition withToPoint (p : Point) (c : Connection.t) : Connection.t :=
  Connection.mk (Connection.id c) (Connection.from c) (Connection.to c)
    (Connection.fromPoint c) p (Connection.type c) (Connection.label c).

Definition handleBlockResize (nodeId : string) (width height : Q)
    (s : State) : State :=
  let resized :=
    match find (hasId nodeId) (nodes s) with
    | Some node =>
        Some (mkPoint (TextNode.x node + width / 2)
                      (TextNode.y node + height / 2))
    | None => None
    end in
  s |> setNodes (map (fun node =>
         if hasId nodeId node then withSize width height node else node))
    |> setConnections (map (fun conn =>
         match (if String.eqb (Connection.from conn) nodeId
                then resized else None) with
         | Some p => withFromPoint p conn
         | None =>
             match (if String.eqb (Connection.to conn) nodeId
                    then resized else None) with
             | Some p => withToPoint p conn
             | None => conn
             end
         end)).

Definition handleMouseMove (e : MouseEvent) (rect : option DOMRect)
    (s : State) : State :=
  let s1 :=
    match draggingNode s, rect with
    | Some dragging, Some r =>
        if JS.truthy dragging then
          let c := pointer e r s in
          let newPosition :=
            mkPoint (px c - px (dragOffset s)) (py c - py (dragOffset s)) in
          let s' :=
            s |> setNodes (map (fun node =>
                   if hasId dragging node then withPosition newPosition node
                   else node)) in
          match find (hasId dragging) (nodes s) with
          | Some node =>
              let p :=
                mkPoint (px newPosition + TextNode.width node / 2)
                        (py newPosition + TextNode.height node / 2) in
              s' |> setConnections (map (fun conn =>
                      if String.eqb (Connection.from conn) dragging
                      then withFromPoint p conn
                      else if String.eqb (Connection.to conn) dragging
                      then withToPoint p conn
                      else conn))
          | None => s'
          end
        else s
    | _, _ => s
    end in
  match isPanning s, rect with
  | true, Some _ =>
      s1 |> setPan (mkPoint (clientX e - px (panStart s))
                            (clientY e - py (panStart s)))
  | _, _ => s1
  end.

Definition handleMouseUp (s : State) : State :=
  s |> setDraggingNode None |> setIsPanning false.

(** [handleCanvasMouseDown]: [onCanvas] tells whether the target of the
    event is the canvas element itself. *)
Definition handleCanvasMouseDown (e : MouseEvent) (onCanvas : bool)
    (s : State) : State :=
  if onCanvas then
    s |> setSelectedNode None
      |> setConnectingFrom None
      |> setConnectionStart None
      |> setIsPanning true
      |> setPanStart (mkPoint (clientX e - px (pan s)) (clientY e - py (pan s)))
  else s.

Definition handleDeleteNode (nodeId : string) (s : State) : State :=
  s |> setNodes (filter (fun n => negb (String.eqb (TextNode.id n) nodeId)))
    |> setConnections (filter (fun c =>
         negb (String.eqb (Connection.from c) nodeId)
         && negb (String.eqb (Connection.to c) nodeId)))
    |> setSelectedNode None.

Definition handleDeleteConnection (connectionId : string) (s : State) : State :=
  s |> setConnections (filter (fun c =>
         negb (String.eqb (Connection.id c) connectionId))).

End CanvasPanel.

(** ** TextBlock.tsx *)

Module TextBlock.

Definition minWidth : Q := 200.
Definition maxWidth : Q := 600.
Definition minHeight : Q := 100.
Definition maxHeight : Q := 500.

(** [updateConnectionPoints]: top, right, bottom and left handle. *)
Definition connectionPoints (n : TextNode.t) : list Point :=
  let x := TextNode.x n in
  let y := TextNode.y n in
  let width := TextNode.width n in
  let height := TextNode.height n in
  [ mkPoint (x + width / 2) y;
    mkPoint (x + width) (y + height / 2);
    mkPoint (x + width / 2) (y + height);
    mkPoint x (y + height / 2) ].

(** [handleConnectionPointClick]: the click is not propagated, and the
    panel is told the block and the handle. *)
Definition handleConnectionPointClick (id : string) (point : Point)
    (s : CanvasPanel.State) : CanvasPanel.State :=
  CanvasPanel.handleConnectionStart id point s.

(** The start of a resize, [resizeStart]. *)
Record ResizeStart := mkResizeStart {
  startX : Q; startY : Q; startWidth : Q; startHeight : Q
}.

(** The mouse-move handler of a block; it acts while the block is being
    resized. *)
Definition handleMouseMove (id : string) (isResizing : bool)
    (resizeStart : ResizeStart) (e : MouseEvent) (s : CanvasPanel.State)
    : CanvasPanel.State :=
  if negb isResizing then s
  else
    let deltaX := clientX e - startX resizeStart in
    let deltaY := clientY e - startY resizeStart in
    let newWidth :=
      JS.max minWidth (JS.min maxWidth (startWidth resizeStart + deltaX)) in
    let newHeight :=
      JS.max minHeight (JS.min maxHeight (startHeight resizeStart + deltaY)) in
    CanvasPanel.handleBlockResize id newWidth newHeight s.

End TextBlock.

(** ** The canvas panel as a transition system *)

Module CanvasEvents.
Import CanvasPanel.

Inductive Event :=
| EDrop (p : Props) (rect : option DOMRect) (now : Z)
| EWheel (inCanvas : bool) (deltaY : Q)
| EZoomIn
| EZoomOut
| EBlockMouseDown (e : MouseEvent) (rect : option DOMRect) (now : Z)
    (nodeId : string)
| EConnectionStart (nodeId : string) (point : Point)
| EBlockResize (nodeId : string) (isResizing : bool)
    (resizeStart : TextBlock.ResizeStart) (e : MouseEvent)
| EMouseMove (e : MouseEvent) (rect : option DOMRect)
| EMouseUp
| ECanvasMouseDown (e : MouseEvent) (onCanvas : bool)
| EDeleteNode (nodeId : string)
| EDeleteConnection (connectionId : string)
| ECanvasSelect (canvasId : string)
| ENewCanvas (now : Z)
| ECanvasDelete (canvasId : string)
| EDebouncedUpdate (now : Z).

Definition step (ev : Event) (s : State) : State :=
  match ev with
  | EDrop p rect now => fst (dropEffect p rect now s)
  | EWheel inCanvas deltaY => handleWheel inCanvas deltaY s
  | EZoomIn => handleZoomIn s
  | EZoomOut => handleZoomOut s
  | EBlockMouseDown e rect now nodeId =>
      handleBlockMouseDown e rect now nodeId s
  | EConnectionStart nodeId point => handleConnectionStart nodeId point s
  | EBlockResize nodeId isResizing resizeStart e =>
      TextBlock.handleMouseMove nodeId isResizing resizeStart e s
  | EMouseMove e rect => handleMouseMove e rect s
  | EMouseUp => handleMouseUp s
  | ECanvasMouseDown e onCanvas => handleCanvasMouseDown e onCanvas s
  | EDeleteNode nodeId => handleDeleteNode nodeId s
  | EDeleteConnection connectionId => handleDeleteConnection connectionId s
  | ECanvasSelect canvasId => handleCanvasSelect canvasId s
  | ENewCanvas now => handleNewCanvas now s
  | ECanvasDelete canvasId => stateOf (handleCanvasDelete canvasId s)
  | EDebouncedUpdate now => updateCanvasData now s
  end.

Definition run (evs : list Event) (s : State) : State :=
  fold_left (fun acc ev => step ev acc) evs s.

(** The states the panel can be in: the first render, followed by any
    events. *)
Inductive reachable : State -> Prop :=
| reachable_initial : forall t0, reachable (initial t0)
| reachable_step : forall ev s, reachable s -> reachable (step ev s).

End CanvasEvents.

(** ** App.tsx *)

Module App.

Record State := mk {
  draggedText : option string;
  sourceMsgId : option string;
  sourceChatId : option string;
  highlightedMessageId : option string;
  currentChatId : string;
  isSidebarOpen : bool
}.

Definition initial : State :=
  mk None None None None "project-discussion" false.

Definition handleTextDrag (text messageId chatId : string) (s : State) : State :=
  mk (Some text) (Some messageId) (Some chatId)
     (highlightedMessageId s) (currentChatId s) (isSidebarOpen s).

Definition handleTextDragComplete (s : State) : State :=
  mk None None None
     (highlightedMessageId s) (currentChatId s) (isSidebarOpen s).

Definition handleBlockClick (messageId : string) (chatId : option string)
    (s : State) : State :=
  let current :=
    match chatId with
    | Some c =>
        if JS.truthy c && negb (String.eqb c (currentChatId s))
        then c else currentChatId s
    | None => currentChatId s
    end in
  mk (draggedText s) (sourceMsgId s) (sourceChatId s)
     (Some messageId) current (isSidebarOpen s).

Definition handleHighlightComplete (s : State) : State :=
  mk (draggedText s) (sourceMsgId s) (sourceChatId s)
     None (currentChatId s) (isSidebarOpen s).

Definition handleNewChat (now : Z) (s : State) : State :=
  mk None None None None ("new-chat-" ++ JS.toString now) (isSidebarOpen s).

Definition handleChatSelect (chatId : string) (s : State) : State :=
  mk (draggedText s) (sourceMsgId s) (sourceChatId s)
     None chatId (isSidebarOpen s).

Definition handleSidebarToggle (s : State) : State :=
  mk (draggedText s) (sourceMsgId s) (sourceChatId s)
     (highlightedMessageId s) (currentChatId s) (negb (isSidebarOpen s)).

(** The props the canvas panel is rendered with. *)
Definition canvasProps (s : State) : CanvasPanel.Props :=
  CanvasPanel.mkProps (draggedText s) (sourceMsgId s) (sourceChatId s).

(** A call of the canvas panel on one of its callbacks. *)
Definition callback (c : Callback) (s : State) : State :=
  match c with
  | TextDragComplete => handleTextDragComplete s
  | BlockClick messageId chatId => handleBlockClick messageId chatId s
  end.

End App.

(** ** Data model of ChatPanel.tsx *)

Inductive MessageType := user | ai.

Module Message.
Record t := mk {
  id : string;
  type : MessageType;
  content : string;
  timestamp : Z
}.
End Message.

Module ChatSession.
Record t := mk {
  id : string;
  title : string;
  messages : list Message.t;
  lastActivity : Z;
  unreadCount : option Z
}.

(** [Partial<ChatSession>] *)
Record partial := mkPartial {
  id' : option string;
  title' : option string;
  messages' : option (list Message.t);
  lastActivity' : option Z;
  unreadCount' : option Z
}.

Definition orElse {A} (o : option A) (d : A) : A :=
  match o with Some v => v | None => d end.

(** [{ ...chat, ...updates }] *)
Definition merge (chat : t) (updates : partial) : t :=
  mk (orElse (id' updates) (id chat))
     (orElse (title' updates) (title chat))
     (orElse (messages' updates) (messages chat))
     (orElse (lastActivity' updates) (lastActivity chat))
     (match unreadCount' updates with
      | Some v => Some v
      | None => unreadCount chat
      end).
End ChatSession.

(** ** ChatPanel.tsx *)

Module ChatPanel.

Record State := mk {
  chatSessions : list ChatSession.t;
  inputValue : string;
  isTyping : bool
}.

Definition minutes (n : Z) : Z := (1000 * 60 * n)%Z.
Definition hours (n : Z) : Z := (1000 * 60 * 60 * n)%Z.

(** The sessions of the first render; [t0] is the value of [Date.now()]. *)
Definition initialSessions (t0 : Z) : list ChatSession.t :=
  [ ChatSession.mk "project-discussion" "Project Discussion"
      [ Message.mk "1" user
          "I need help planning our upcoming product launch. We have several key components to coordinate including marketing, development, and customer support."
          (t0 - hours 2);
        Message.mk "2" ai
          "A successful product launch requires careful orchestration of multiple departments. Let me break down the essential components: First, your marketing team should develop a comprehensive campaign strategy that includes pre-launch buzz, launch day activities, and post-launch follow-up. This involves content creation, social media planning, press releases, and potentially influencer partnerships. The timeline should start at least 6-8 weeks before launch."
          (t0 - hours 2 + 30000);
        Message.mk "3" user
          "That makes sense. What about the technical side? We want to ensure our infrastructure can handle the expected traffic surge."
          (t0 - minutes 90);
        Message.mk "4" ai
          "Infrastructure planning is crucial for launch success. Your development team should conduct thorough load testing to simulate expected traffic patterns. Consider implementing auto-scaling solutions, CDN optimization, and database performance tuning. Set up comprehensive monitoring and alerting systems to catch issues early. Have a rollback plan ready and ensure your team is prepared for rapid response to any technical challenges that arise during launch."
          (t0 - minutes 85);
        Message.mk "5" user
          "How should we coordinate between teams to ensure everyone is aligned on timing and responsibilities?"
          (t0 - minutes 30) ]
      (t0 - minutes 30) None;
    ChatSession.mk "personal-notes" "Personal Notes"
      [ Message.mk "1" user
          "I want to develop better habits for personal productivity and work-life balance. I feel like I'm constantly busy but not always making meaningful progress."
          (t0 - hours 6);
        Message.mk "2" ai
          "Achieving sustainable productivity while maintaining work-life balance requires intentional systems and boundaries. Start by conducting a time audit to understand where your energy actually goes versus where you think it goes. Many people discover they're spending significant time on low-impact activities. Focus on identifying your peak energy hours and protecting them for your most important work. This might mean blocking calendar time for deep work and being more selective about meetings."
          (t0 - hours 6 + 45000) ]
      (t0 - hours 4) None;
    ChatSession.mk "team-brainstorm" "Team Brainstorm"
      [ Message.mk "1" user
          "Our team needs to innovate our approach to customer engagement. We're seeing declining engagement rates and need fresh ideas to reconnect with our audience."
          (t0 - hours 26);
        Message.mk "2" ai
          "Revitalizing customer engagement requires understanding the evolving expectations and preferences of your audience. Modern customers value authentic, personalized experiences over generic marketing messages."
          (t0 - hours 26 + 30000) ]
      (t0 - hours 24) (Some 2%Z) ].

Definition initial (t0 : Z) : State := mk (initialSessions t0) "" false.

Definition setChatSessions (f : list ChatSession.t -> list ChatSession.t)
    (s : State) : State :=
  mk (f (chatSessions s)) (inputValue s) (isTyping s).
Definition setInputValue (v : string) (s : State) : State :=
  mk (chatSessions s) v (isTyping s).
Definition setIsTyping (v : bool) (s : State) : State :=
  mk (chatSessions s) (inputValue s) v.

(** The quotation mark that surrounds the user's words in a reply. *)
Definition quote : string := String (ascii_of_nat 34) EmptyString.

Definition responses (userMessage : string) : list string :=
  let q := quote ++ userMessage ++ quote in
  [ "That's an interesting perspective on " ++ q ++ ". Let me elaborate on the key concepts and their interconnections. Understanding these relationships can help you see how different elements work together to create a comprehensive framework for success.";
    "Your question about " ++ q ++ " touches on several important areas that deserve careful consideration. Here's my analysis of the underlying principles and how they connect to broader themes in the field, along with practical applications you can implement.";
    "Regarding " ++ q ++ ", there are multiple facets to consider that can significantly impact your approach. Let me break down the essential components and show you how they relate to each other in meaningful ways that drive results.";
    "The topic of " ++ q ++ " is quite complex and multifaceted, involving various interconnected elements. I can help you explore the relationships between different aspects and understand how they influence each other in both obvious and subtle ways.";
    "Great question about " ++ q ++ ". This connects to broader themes and principles that are worth exploring in depth. Let me explain the key relationships and their implications for your specific situation and goals." ].

(** [simulateAIResponse]; [rnd] is the value of [Math.random()]. *)
Definition simulateAIResponse (rnd : Q) (userMessage : string) : string :=
  let rs := responses userMessage in
  nth (Z.to_nat (Qfloor (rnd * inject_Z (Z.of_nat (List.length rs)))))
      rs "undefined"
  ++ " The interconnected nature of these concepts means that understanding one aspect helps illuminate others. Consider how the foundational principles relate to practical applications, and how different perspectives can reveal new insights and opportunities for deeper exploration and implementation.".

(** The function [handleSendMessage] hands to [setTimeout]: it closes
    over the [currentChatId] prop and the user message of the render
    that sent the message. *)
Record Reply := mkReply { target : string; userContent : string }.

Definition appendTo (chatId : string) (m : Message.t) (now : Z)
    (chat : ChatSession.t) : ChatSession.t :=
  if String.eqb (ChatSession.id chat) chatId
  then ChatSession.mk (ChatSession.id chat) (ChatSession.title chat)
         (ChatSession.messages chat ++ [m])%list now
         (ChatSession.unreadCount chat)
  else chat.

(** [handleSendMessage]: the new state and the reply it schedules. *)
Definition handleSendMessage (currentChatId : string) (now : Z) (s : State)
    : State * option Reply :=
  if negb (JS.truthy (JS.trim (inputValue s))) then (s, None)
  else
    let userMessage :=
      Message.mk (JS.toString now) user (JS.trim (inputValue s)) now in
    (s |> setChatSessions (map (appendTo currentChatId userMessage now))
       |> setInputValue ""
       |> setIsTyping true,
     Some (mkReply currentChatId (Message.content userMessage))).

(** The scheduled function, run when its timer fires. *)
Definition fireReply (r : Reply) (now : Z) (rnd : Q) (s : State) : State :=
  let aiMessage :=
    Message.mk (JS.toString (now + 1)) ai
      (simulateAIResponse rnd (userContent r)) now in
  s |> setChatSessions (map (appendTo (target r) aiMessage now))
    |> setIsTyping false.

(** Calls of the panel on the callbacks of its props. *)
Inductive Call :=
| OnTextDrag (text messageId chatId : string)
| OnChatSelect (chatId : string).

Definition handleTextSelection (currentChatId messageId selectedText : string)
    : list Call :=
  if JS.truthy (JS.trim selectedText)
  then [OnTextDrag (JS.trim selectedText) messageId currentChatId]
  else [].

(** [handleMouseUp]; [selection] is [window.getSelection()] as a string. *)
Definition handleMouseUp (currentChatId messageId : string)
    (selection : option string) : list Call :=
  match selection with
  | Some sel =>
      if JS.truthy (JS.trim sel)
      then handleTextSelection currentChatId messageId sel
      else []
  | None => []
  end.

Definition handleNewChatClick (now : Z) (s : State) : State * list Call :=
  let newChatId := "new-chat-" ++ JS.toString now in
  let newChat := ChatSession.mk newChatId "New Chat" [] now None in
  (s |> setChatSessions (fun prev => newChat :: prev),
   [OnChatSelect newChatId]).

Definition handleChatDelete (currentChatId chatId : string) (s : State)
    : State * list Call :=
  let keep := fun chat => negb (String.eqb (ChatSession.id chat) chatId) in
  (s |> setChatSessions (filter keep),
   if String.eqb currentChatId chatId then
     match filter keep (chatSessions s) with
     | first :: _ => [OnChatSelect (ChatSession.id first)]
     | [] => []
     end
   else []).

Definition handleChatUpdate (chatId : string) (updates : ChatSession.partial)
    (s : State) : State :=
  s |> setChatSessions (map (fun chat =>
         if String.eqb (ChatSession.id chat) chatId
         then ChatSession.merge chat updates else chat)).

End ChatPanel.

(** ** ChatSidebar.tsx *)

Module ChatSidebar.
Section Handlers.
(** The sidebar acts on whatever owns its callbacks. *)
Context {W : Type}.
Variable chatSessions : list ChatSession.t.
Variable onChatSelect : string -> W -> W.
Variable onChatDelete : option (string -> W -> W).
Variable onChatUpdate : option (string -> ChatSession.partial -> W -> W).

Definition clearUnread : ChatSession.partial :=
  ChatSession.mkPartial None None None None (Some 0%Z).

Definition handleChatSelect (chatId : string) (w : W) : W :=
  let w1 := onChatSelect chatId w in
  match onChatUpdate with
  | Some update =>
      match find (fun c => String.eqb (ChatSession.id c) chatId)
                 chatSessions with
      | Some chat =>
          match ChatSession.unreadCount chat with
          | Some n => if Z.eqb n 0 then w1 else update chatId clearUnread w1
          | None => w1
          end
      | None => w1
      end
  | None => w1
  end.

Definition handleDeleteChat (chatId : string) (w : W) : W :=
  match onChatDelete with
  | Some delete =>
      if Nat.ltb 1 (List.length chatSessions) then delete chatId w else w
  | None => w
  end.
End Handlers.
End ChatSidebar.

(** ** The workspace: App with its two panels and the pending timers *)

Module Workspace.

Record World := mk {
  app : App.State;
  chat : ChatPanel.State;
  canvas : CanvasPanel.State;
  (** the reply functions handed to [setTimeout] that have not run yet *)
  replies : list ChatPanel.Reply
}.

Definition initial (t0 : Z) : World :=
  mk App.initial (ChatPanel.initial t0) (CanvasPanel.initial t0) [].

Definition onApp (f : App.State -> App.State) (w : World) : World :=
  mk (f (app w)) (chat w) (canvas w) (replies w).
Definition onChat (f : ChatPanel.State -> ChatPanel.State) (w : World) : World :=
  mk (app w) (f (chat w)) (canvas w) (replies w).
Definition onCanvas (f : CanvasPanel.State -> CanvasPanel.State) (w : World)
    : World :=
  mk (app w) (chat w) (f (canvas w)) (replies w).
Definition setReplies (f : list ChatPanel.Reply -> list ChatPanel.Reply)
    (w : World) : World :=
  mk (app w) (chat w) (canvas w) (f (replies w)).

(** The callbacks App passes to the chat panel. *)
Definition chatCall (c : ChatPanel.Call) (w : World) : World :=
  match c with
  | ChatPanel.OnTextDrag text messageId chatId =>
      onApp (App.handleTextDrag text messageId chatId) w
  | ChatPanel.OnChatSelect chatId => onApp (App.handleChatSelect chatId) w
  end.

Definition chatCalls (cs : list ChatPanel.Call) (w : World) : World :=
  fold_left (fun acc c => chatCall c acc) cs w.

(** The callbacks App passes to the canvas panel. *)
Definition canvasCalls (cs : list Callback) (w : World) : World :=
  fold_left (fun acc c => onApp (App.callback c) acc) cs w.

(** *** Chat side *)

Definition typeInput (v : string) (w : World) : World :=
  onChat (ChatPanel.setInputValue v) w.

Definition sendMessage (now : Z) (w : World) : World :=
  let '(c, r) :=
    ChatPanel.handleSendMessage (App.currentChatId (app w)) now (chat w) in
  let w1 := onChat (fun _ => c) w in
  match r with
  | Some reply => setReplies (fun prev => (prev ++ [reply])%list) w1
  | None => w1
  end.

Fixpoint removeAt {A} (k : nat) (l : list A) : list A :=
  match l, k with
  | [], _ => []
  | _ :: rest, O => rest
  | a :: rest, S k' => a :: removeAt k' rest
  end.

(** The timer of the [k]-th pending reply fires. *)
Definition replyArrives (k : nat) (now : Z) (rnd : Q) (w : World) : World :=
  match nth_error (replies w) k with
  | Some r =>
      w |> onChat (ChatPanel.fireReply r now rnd) |> setReplies (removeAt k)
  | None => w
  end.

Definition selectChat (chatId : string) (w : World) : World :=
  onApp (App.handleChatSelect chatId) w.

Definition deleteChat (chatId : string) (w : World) : World :=
  let '(c, calls) :=
    ChatPanel.handleChatDelete (App.currentChatId (app w)) chatId (chat w) in
  w |> onChat (fun _ => c) |> chatCalls calls.

Definition updateChat (chatId : string) (updates : ChatSession.partial)
    (w : World) : World :=
  onChat (ChatPanel.handleChatUpdate chatId updates) w.

(** The sidebar as the chat panel renders it. *)
Definition sidebarSelect (chatId : string) (w : World) : World :=
  ChatSidebar.handleChatSelect (ChatPanel.chatSessions (chat w))
    selectChat (Some updateChat) chatId w.

(** The active chat is switched in the sidebar, once for each element
    of [switches]. *)
Definition switchChats (switches : list string) (w : World) : World :=
  fold_left (fun acc t => sidebarSelect t acc) switches w.

Definition sidebarDelete (chatId : string) (w : World) : World :=
  ChatSidebar.handleDeleteChat (ChatPanel.chatSessions (chat w))
    (Some deleteChat) chatId w.

Definition newChat (now : Z) (w : World) : World :=
  let '(c, calls) := ChatPanel.handleNewChatClick now (chat w) in
  w |> onChat (fun _ => c) |> chatCalls calls.

Definition textSelected (messageId : string) (selection : option string)
    (w : World) : World :=
  chatCalls
    (ChatPanel.handleMouseUp (App.currentChatId (app w)) messageId selection) w.

(** *** Canvas side *)

(** The canvas panel consumes the pending drag transfer: its effect runs
    with the props App renders it with, and its call of
    [onTextDragComplete] reaches App. *)
Definition consumeDrag (rect : option DOMRect) (now : Z) (w : World) : World :=
  let '(c, calls) :=
    CanvasPanel.dropEffect (App.canvasProps (app w)) rect now (canvas w) in
  w |> onCanvas (fun _ => c) |> canvasCalls calls.

(** The [onClick] handler of a block: [handleBlockClick] of the canvas
    panel, whose call of [onBlockClick] reaches App. *)
Definition onBlockClick (nodeId : string) (w : World) : World :=
  canvasCalls (CanvasPanel.handleBlockClick nodeId (canvas w)) w.

(** A click on the body of block [nodeId], the button pressed and
    released in place while the block is not being resized: the
    [mousedown] runs [handleBlockMouseDown], the [mouseup] reaches the
    listener of the document, [handleMouseUp], and the [click] that
    follows runs [onClick]. *)
Definition clickBlock (e : MouseEvent) (rect : option DOMRect) (now : Z)
    (nodeId : string) (w : World) : World :=
  w |> onCanvas (CanvasPanel.handleBlockMouseDown e rect now nodeId)
    |> onCanvas CanvasPanel.handleMouseUp
    |> onBlockClick nodeId.

(** The two clicks that draw a connection: a handle of block [a] at
    [point], then the body of block [b]. *)
Definition connectGesture (a : string) (point : Point) (e : MouseEvent)
    (rect : option DOMRect) (now : Z) (b : string)
    (s : CanvasPanel.State) : CanvasPanel.State :=
  s |> TextBlock.handleConnectionPointClick a point
    |> CanvasPanel.handleBlockMouseDown e rect now b.

End Workspace.

(** ** More JavaScript primitives *)

Module JSText.

(** [hay.includes(needle)]: [needle] starts at some position of [hay]. *)
Fixpoint includes (needle hay : string) : bool :=
  match hay with
  | EmptyString => String.prefix needle EmptyString
  | String _ rest => String.prefix needle hay || includes needle rest
  end.

(** [s.substring(0, n)] *)
Definition substringTo (n : nat) (s : string) : string :=
  String.substring 0 n s.

(** [arr.findIndex(p)]: the first index whose element satisfies [p], or
    -1. *)
Fixpoint findIndex {A} (p : A -> bool) (l : list A) : Z :=
  match l with
  | [] => (-1)%Z
  | a :: rest =>
      if p a then 0%Z
      else let i := findIndex p rest in
           if Z.ltb i 0 then (-1)%Z else (i + 1)%Z
  end.

(** [arr[i]] for an integer [i]; nothing outside the array. *)
Definition at_ {A} (l : list A) (i : Z) : option A :=
  if Z.ltb i 0 then None else nth_error l (Z.to_nat i).

End JSText.

(** The fields of a keyboard event the handlers read. *)
Record KeyboardEvent := mkKey {
  ctrlKey : bool;
  metaKey : bool;
  shiftKey : bool;
  key : string
}.

(** ** ChatSidebar.tsx: the list of chats *)

Module ChatSidebarList.

Section Search.
(** [String.prototype.toLowerCase] follows the case tables of Unicode,
    with rules that look beyond one code unit; the handlers are modelled
    for whatever function it is. *)
Variable toLowerCase : string -> string.

(** The predicate of [filteredChats]. *)
Definition matches (searchQuery : string) (chat : ChatSession.t) : bool :=
  JSText.includes (toLowerCase searchQuery)
                  (toLowerCase (ChatSession.title chat))
  || existsb (fun msg =>
                JSText.includes (toLowerCase searchQuery)
                                (toLowerCase (Message.content msg)))
             (ChatSession.messages chat).

Definition filteredChats (searchQuery : string)
    (chatSessions : list ChatSession.t) : list ChatSession.t :=
  filter (matches searchQuery) chatSessions.
End Search.

(** The comparison function of the sort,
    [b.lastActivity.getTime() - a.lastActivity.getTime()]. *)
Definition compareChats (a b : ChatSession.t) : Z :=
  (ChatSession.lastActivity b - ChatSession.lastActivity a)%Z.

(** [Array.prototype.sort] is a stable sort: an element goes before the
    first element it does not have to follow. *)
Fixpoint insertChat (a : ChatSession.t) (l : list ChatSession.t)
    : list ChatSession.t :=
  match l with
  | [] => [a]
  | b :: rest =>
      if Z.leb (compareChats a b) 0 then a :: b :: rest
      else b :: insertChat a rest
  end.

Fixpoint sortChats (l : list ChatSession.t) : list ChatSession.t :=
  match l with
  | [] => []
  | a :: rest => insertChat a (sortChats rest)
  end.

Definition sortedChats (toLowerCase : string -> string) (searchQuery : string)
    (chatSessions : list ChatSession.t) : list ChatSession.t :=
  sortChats (filteredChats toLowerCase searchQuery chatSessions).

(** What the key handler does besides preventing the default action. *)
Inductive Call :=
| OnToggle
| OnNewChat
| FocusSearch
| OnChatSelect (chatId : string).

Definition ctrlOrMeta (e : KeyboardEvent) : bool := ctrlKey e || metaKey e.

(** The arrow-key branch of [handleKeyDown]. *)
Definition arrowKeys (currentChatId : string) (sorted : list ChatSession.t)
    (e : KeyboardEvent) : list Call :=
  let currentIndex :=
    JSText.findIndex
      (fun chat => String.eqb (ChatSession.id chat) currentChatId) sorted in
  if negb (Z.eqb currentIndex (-1)) then
    let nextIndex :=
      if String.eqb (key e) "ArrowUp"
      then Z.max 0 (currentIndex - 1)
      else Z.min (Z.of_nat (List.length sorted) - 1) (currentIndex + 1) in
    match JSText.at_ sorted nextIndex with
    | Some chat => [OnChatSelect (ChatSession.id chat)]
    | None => []
    end
  else [].

(** [handleKeyDown]: its four conditions are tried one after the other. *)
Definition handleKeyDown (isOpen : bool) (currentChatId : string)
    (sorted : list ChatSession.t) (e : KeyboardEvent) : list Call :=
  ((if ctrlOrMeta e && String.eqb (key e) "b" then [OnToggle] else [])
   ++ (if ctrlOrMeta e && shiftKey e && String.eqb (key e) "N"
       then [OnNewChat] else [])
   ++ (if ctrlOrMeta e && String.eqb (key e) "f" && isOpen
       then [FocusSearch] else [])
   ++ (if isOpen && (String.eqb (key e) "ArrowUp"
                     || String.eqb (key e) "ArrowDown")
       then arrowKeys currentChatId sorted e else []))%list.

Section Format.
(** [date.toLocaleDateString()] depends on the locale of the browser. *)
Variable toLocaleDateString : Z -> string.

(** [formatTimestamp]; [now] is the value of [new Date()]. *)
Definition formatTimestamp (now date : Z) : string :=
  let diff := (now - date)%Z in
  let minutes := (diff / (1000 * 60))%Z in
  let hours := (diff / (1000 * 60 * 60))%Z in
  let days := (diff / (1000 * 60 * 60 * 24))%Z in
  if Z.ltb minutes 1 then "now"
  else if Z.ltb minutes 60 then JS.toString minutes ++ "m"
  else if Z.ltb hours 24 then JS.toString hours ++ "h"
  else if Z.ltb days 7 then JS.toString days ++ "d"
  else toLocaleDateString date.
End Format.

Definition getLastMessage (isCollapsed : bool) (chat : ChatSession.t) : string :=
  match JSText.at_ (ChatSession.messages chat)
          (Z.of_nat (List.length (ChatSession.messages chat)) - 1) with
  | None => "No messages yet"
  | Some lastMessage =>
      let content := Message.content lastMessage in
      let maxLength := if isCollapsed then 20%nat else 60%nat in
      if Nat.ltb maxLength (String.length content)
      then JSText.substringTo maxLength content ++ "..."
      else content
  end.

End ChatSidebarList.

(** ** CanvasMenu.tsx *)

Module CanvasMenu.

Record CanvasItem := mkItem {
  id : string;
  title : string;
  createdAt : Z;
  lastModified : Z;
  nodeCount : nat;
  connectionCount : nat
}.

(** [canvasItems], as the canvas panel prepares them for the menu. *)
Definition canvasItems (s : CanvasPanel.State) : list CanvasItem :=
  map (fun canvas =>
         mkItem (CanvasData.id canvas) (CanvasData.title canvas)
           (CanvasData.createdAt canvas) (CanvasData.lastModified canvas)
           (List.length (CanvasData.nodes canvas))
           (List.length (CanvasData.connections canvas)))
      (CanvasPanel.canvases s).

Record State := mk { isOpen : bool; searchQuery : string }.

Definition initial : State := mk false "".

(** [filteredCanvases], for the [String.prototype.toLowerCase] of the
    browser. *)
Definition filteredCanvases (toLowerCase : string -> string) (query : string)
    (canvases : list CanvasItem) : list CanvasItem :=
  filter (fun canvas =>
            JSText.includes (toLowerCase query) (toLowerCase (title canvas)))
         canvases.

Inductive Call :=
| OnCanvasSelect (canvasId : string)
| OnNewCanvas.

(** The target of Ctrl+Tab: the canvas after the current one, the first
    one after the last; with no canvas the index is not a number and
    nothing is selected. *)
Definition nextCanvas (currentCanvasId : string) (canvases : list CanvasItem)
    : option CanvasItem :=
  let currentIndex :=
    JSText.findIndex (fun c => String.eqb (id c) currentCanvasId) canvases in
  if Nat.eqb (List.length canvases) 0 then None
  else JSText.at_ canvases
         (Z.rem (currentIndex + 1) (Z.of_nat (List.length canvases))).

Definition ctrlOrMeta (e : KeyboardEvent) : bool := ctrlKey e || metaKey e.

(** [handleKeyDown]: its four conditions are tried one after the other. *)
Definition handleKeyDown (currentCanvasId : string)
    (canvases : list CanvasItem) (e : KeyboardEvent) (s : State)
    : State * list Call :=
  let tab :=
    if ctrlOrMeta e && String.eqb (key e) "Tab" then
      match nextCanvas currentCanvasId canvases with
      | Some c => [OnCanvasSelect (id c)]
      | None => []
      end
    else [] in
  let new := if ctrlOrMeta e && String.eqb (key e) "n" then [OnNewCanvas] else [] in
  let s1 := if String.eqb (key e) "Escape" && isOpen s
            then mk false (searchQuery s) else s in
  let s2 := if ctrlOrMeta e && String.eqb (key e) "k"
            then mk true (searchQuery s1) else s1 in
  (s2, (tab ++ new)%list).

(** [formatTimestamp]; [now] is the value of [new Date()]. *)
Definition formatTimestamp (now date : Z) : string :=
  let diff := (now - date)%Z in
  let minutes := (diff / (1000 * 60))%Z in
  let hours := (diff / (1000 * 60 * 60))%Z in
  let days := (diff / (1000 * 60 * 60 * 24))%Z in
  if Z.ltb minutes 60 then JS.toString minutes ++ "m ago"
  else if Z.ltb hours 24 then JS.toString hours ++ "h ago"
  else JS.toString days ++ "d ago".

Definition handleCanvasSelect (canvasId : string) (s : State)
    : State * list Call :=
  (mk false "", [OnCanvasSelect canvasId]).

Definition handleNewCanvas (s : State) : State * list Call :=
  (mk false (searchQuery s), [OnNewCanvas]).

(** The callbacks the canvas panel passes to the menu; [now] is the value
    of [Date.now()] a new canvas would read. *)
Definition call (now : Z) (c : Call) (s : CanvasPanel.State)
    : CanvasPanel.State :=
  match c with
  | OnCanvasSelect canvasId => CanvasPanel.handleCanvasSelect canvasId s
  | OnNewCanvas => CanvasPanel.handleNewCanvas now s
  end.

(** A key pressed while the panel and its menu are in the given states. *)
Definition keyDown (now : Z) (e : KeyboardEvent)
    (ps : CanvasPanel.State * State) : CanvasPanel.State * State :=
  let '(s, calls) :=
    handleKeyDown (CanvasPanel.currentCanvasId (fst ps))
      (canvasItems (fst ps)) e (snd ps) in
  (fold_left (fun acc c => call now c acc) calls (fst ps), s).

Definition ctrlTab : KeyboardEvent := mkKey true false false "Tab".

(** Ctrl+Tab pressed [n] times. *)
Fixpoint pressTab (n : nat) (ps : CanvasPanel.State * State)
    : CanvasPanel.State * State :=
  match n with
  | O => ps
  | S n' => pressTab n' (keyDown 0 ctrlTab ps)
  end.

End CanvasMenu.

(** ** ResizableDivider.tsx and the panel widths of App.tsx *)

Module PanelWidths.

Definition minLeftWidth : Q := 400.
Definition minRightWidth : Q := 450.

(** The two state cells of App that hold the widths. *)
Record State := mk { containerWidth : Q; leftPanelWidth : Q }.

(** [handleResize] of the window. *)
Definition handleResize (innerWidth : Q) (s : State) : State :=
  mk innerWidth (leftPanelWidth s).

Definition handlePanelResize (newLeftWidth : Q) (s : State) : State :=
  mk (containerWidth s) newLeftWidth.

(** Modelled from the spec: the hook [useLocalStorage] is not among the
    sources; the left-panel width is read at startup and written on
    change, so its setter is taken to store the value it is given.

    The effect of App on the widths: what it passes to the setter, if
    anything. *)
Definition widthEffect (s : State) : State :=
  let maxLeftWidth := containerWidth s - minRightWidth in
  if JS.gtb (leftPanelWidth s) maxLeftWidth
  then mk (containerWidth s) maxLeftWidth
  else if JS.gtb minLeftWidth (leftPanelWidth s)
  then mk (containerWidth s) minLeftWidth
  else s.

Definition rightPanelWidth (s : State) : Q :=
  containerWidth s - leftPanelWidth s - 1.

(** The state of the divider. *)
Record Divider := mkDivider {
  isDragging : bool;
  startX : Q;
  startWidth : Q
}.

(** The divider is rendered with [initialLeftWidth = leftPanelWidth]. *)
Definition initialDivider (s : State) : Divider :=
  mkDivider false 0 (leftPanelWidth s).

Definition handleMouseDown (e : MouseEvent) (s : State) (d : Divider) : Divider :=
  mkDivider true (clientX e) (leftPanelWidth s).

(** [handleMouseMove] of the divider, with [onResize] the
    [handlePanelResize] of App. *)
Definition handleMouseMove (e : MouseEvent) (d : Divider) (s : State) : State :=
  if negb (isDragging d) then s
  else
    let deltaX := clientX e - startX d in
    let newLeftWidth := startWidth d + deltaX in
    let maxLeftWidth := containerWidth s - minRightWidth in
    let clampedWidth := JS.max minLeftWidth (JS.min newLeftWidth maxLeftWidth) in
    handlePanelResize clampedWidth s.

Definition handleMouseUp (d : Divider) : Divider :=
  mkDivider false (startX d) (startWidth d).

(** Both bounds on the left panel hold. *)
Definition withinBounds (s : State) : Prop :=
  minLeftWidth <= leftPanelWidth s
  /\ leftPanelWidth s <= containerWidth s - minRightWidth.

End PanelWidths.

(** ** What the claims speak about *)

(** Equality of points up to equality of rationals. *)
Definition Point_eq (p q : Point) : Prop := px p == px q /\ py p == py q.

(** The zoom factor lies in the documented interval. *)
Definition zoomInRange (z : Q) : Prop := 0.5 <= z /\ z <= 3.

(** A connection from a block to itself. *)
Definition selfLoop (c : Connection.t) : Prop :=
  Connection.from c = Connection.to c.


(** Identifiers of the blocks of a node list. *)
Definition nodeIds (ns : list TextNode.t) : list string := map TextNode.id ns.

(** Number of space-separated words and number of characters of a text,
    as [calculateInitialSize] counts them. *)
Definition wordCount (text : string) : nat :=
  List.length (JS.split " "%char text).
Definition charCount (text : string) : nat := String.length text.

(** A session with its messages, whatever its other fields. *)
Definition thread (c : ChatSession.t) : string * list Message.t :=
  (ChatSession.id c, ChatSession.messages c).

(** [n] copies of the text [s], one after the other. *)
Fixpoint repeatText (n : nat) (s : string) : string :=
  match n with
  | O => EmptyString
  | S n' => s ++ repeatText n' s
  end.

(** Width and height of a dropped block before rounding, as functions of
    the number of characters and the number of words. *)
Definition rawWidth (chars : Q) : Q :=
  if JS.gtb chars 100 then JS.min 400 (240 + (chars - 100) * 1.5) else 240.

Definition baseHeight (chars : Q) : Q :=
  if JS.gtb chars 100
  then JS.min 250 (120 + JS.floor ((chars - 100) / 60) * 25)
  else 120.

Definition rawHeight (chars words : Q) : Q :=
  if JS.gtb words 20
  then JS.min 300 (baseHeight chars + JS.floor ((words - 20) / 12) * 20)
  else baseHeight chars.

Definition counted (n : nat) : Q := inject_Z (Z.of_nat n).

(** [v] brought into the interval from [lo] to [hi]. *)
Definition clampTo (lo hi v : Q) : Q :=
  if Qlt_le_dec v lo then lo else if Qlt_le_dec hi v then hi else v.

(** A property of blocks and a property of connections that hold of
    everything a panel state contains: the working copy and the stored
    canvases. *)
Definition goodCanvas (goodNode : TextNode.t -> Prop)
    (goodConn : Connection.t -> Prop) (cv : CanvasData.t) : Prop :=
  Forall goodNode (CanvasData.nodes cv)
  /\ Forall goodConn (CanvasData.connections cv).

Definition good (goodNode : TextNode.t -> Prop)
    (goodConn : Connection.t -> Prop) (s : CanvasPanel.State) : Prop :=
  Forall goodNode (CanvasPanel.nodes s)
  /\ Forall goodConn (CanvasPanel.connections s)
  /\ Forall (goodCanvas goodNode goodConn) (CanvasPanel.canvases s).

(** A block whose identifier is not the empty string. *)
Definition identified (n : TextNode.t) : Prop :=
  JS.truthy (TextNode.id n) = true.

(** A block within the documented size bounds. *)
Definition wellSized (n : TextNode.t) : Prop :=
  (TextBlock.minWidth <= TextNode.width n
   /\ TextNode.width n <= TextBlock.maxWidth)
  /\ (TextBlock.minHeight <= TextNode.height n
      /\ TextNode.height n <= TextBlock.maxHeight).

Definition soundNode (n : TextNode.t) : Prop := identified n /\ wellSized n.

(** ** The chat side as a transition system *)

Module ChatEvents.
Import Workspace.

(** A call of the sidebar's key handler on one of its callbacks. *)
Definition sidebarCall (now : Z) (c : ChatSidebarList.Call) (w : World) : World :=
  match c with
  | ChatSidebarList.OnToggle => onApp App.handleSidebarToggle w
  | ChatSidebarList.OnNewChat => newChat now w
  | ChatSidebarList.FocusSearch => w
  | ChatSidebarList.OnChatSelect chatId => selectChat chatId w
  end.

Section Steps.
(** [String.prototype.toLowerCase], which the search of the sidebar
    calls. *)
Variable toLowerCase : string -> string.

(** A key pressed while the sidebar shows the chats that match [query]. *)
Definition sidebarKey (query : string) (now : Z) (e : KeyboardEvent)
    (w : World) : World :=
  fold_left (fun acc c => sidebarCall now c acc)
    (ChatSidebarList.handleKeyDown (App.isSidebarOpen (app w))
       (App.currentChatId (app w))
       (ChatSidebarList.sortedChats toLowerCase query
          (ChatPanel.chatSessions (chat w)))
       e)
    w.

Inductive Event :=
| ETypeInput (v : string)
| ESend (now : Z)
| EReply (k : nat) (now : Z) (rnd : Q)
| ESidebarSelect (chatId : string)
| ESidebarDelete (chatId : string)
| ENewChat (now : Z)
| ETextSelected (messageId : string) (selection : option string)
| EKey (query : string) (now : Z) (e : KeyboardEvent)
| EHighlightComplete.

Definition step (ev : Event) (w : World) : World :=
  match ev with
  | ETypeInput v => typeInput v w
  | ESend now => sendMessage now w
  | EReply k now rnd => replyArrives k now rnd w
  | ESidebarSelect chatId => sidebarSelect chatId w
  | ESidebarDelete chatId => sidebarDelete chatId w
  | ENewChat now => newChat now w
  | ETextSelected messageId selection => textSelected messageId selection w
  | EKey query now e => sidebarKey query now e w
  | EHighlightComplete => onApp App.handleHighlightComplete w
  end.

Definition run (evs : list Event) (w : World) : World :=
  fold_left (fun acc ev => step ev acc) evs w.
End Steps.

(** The events that delete no chat. *)
Definition keepsChats (ev : Event) : Prop :=
  match ev with
  | ESidebarDelete _ => False
  | _ => True
  end.

End ChatEvents.

(** ** The mounted application *)

(** App renders both panels. After the handlers of an event have run,
    React renders and runs the effects whose dependencies changed; the
    drop effect of the canvas panel depends on the transfer App passes
    down, and the ref of the canvas element is attached for as long as
    the panel is mounted. *)
Module MountedApp.
Import Workspace.

Inductive Event :=
| EChat (ev : ChatEvents.Event)
| ECanvas (ev : CanvasEvents.Event)
| EBlockClick (e : MouseEvent) (nodeId : string).

Section Steps.
Variable toLowerCase : string -> string.

(** The handlers of an event. The drop effect is no handler: [step] runs
    it, with the props of App. *)
Definition handlers (rect : DOMRect) (now : Z) (ev : Event) (w : World)
    : World :=
  match ev with
  | EChat ev => ChatEvents.step toLowerCase ev w
  | ECanvas (CanvasEvents.EDrop _ _ _) => w
  | ECanvas ev => onCanvas (CanvasEvents.step ev) w
  | EBlockClick e nodeId => clickBlock e (Some rect) now nodeId w
  end.

(** One event: its handlers, then the drop effect. [rect] is the
    bounding rectangle of the canvas element and [now] the value of
    [Date.now()]. *)
Definition step (rect : DOMRect) (now : Z) (ev : Event) (w : World) : World :=
  consumeDrag (Some rect) now (handlers rect now ev w).

(** The states of the application, from its first render on. *)
Inductive reachable : World -> Prop :=
| reachable_initial (t0 : Z) : reachable (Workspace.initial t0)
| reachable_step (rect : DOMRect) (now : Z) (ev : Event) (w : World) :
    reachable w -> reachable (step rect now ev w).
End Steps.

End MountedApp.



(** ** What the further properties speak about *)

(** Session [b] is session [a] with messages added at the end. *)
Definition extends (a b : ChatSession.t) : Prop :=
  ChatSession.id b = ChatSession.id a
  /\ exists suffix,
       ChatSession.messages b = (ChatSession.messages a ++ suffix)%list.

(** The sessions [new] are the sessions [old], in their order and each
    with messages added at the end, behind sessions that were added. *)
Definition grows (old new : list ChatSession.t) : Prop :=
  exists added kept, new = (added ++ kept)%list /\ Forall2 extends old kept.

(** Connection [c] joins two different blocks of [ns], and its cached
    [toPoint] is the center of the block it points to. *)
Definition attached (ns : list TextNode.t) (c : Connection.t) : Prop :=
  ~ selfLoop c
  /\ (exists a, find (CanvasPanel.hasId (Connection.from c)) ns = Some a)
  /\ (exists b, find (CanvasPanel.hasId (Connection.to c)) ns = Some b
                /\ Connection.toPoint c = CanvasPanel.center b).

Definition coherent (ns : list TextNode.t) (cs : list Connection.t) : Prop :=
  Forall (attached ns) cs.

Definition coherentState (s : CanvasPanel.State) : Prop :=
  coherent (CanvasPanel.nodes s) (CanvasPanel.connections s)
  /\ Forall (fun cv =>
               coherent (CanvasData.nodes cv) (CanvasData.connections cv))
            (CanvasPanel.canvases s).

(** Chats in the order of the sidebar: none is more recent than one
    before it. *)
Definition newestFirst (l : list ChatSession.t) : Prop :=
  StronglySorted
    (fun a b => (ChatSession.lastActivity b <= ChatSession.lastActivity a)%Z) l.

(** The identifier of the canvas at position [i], counted round the
    list of canvases. *)
Definition idAt (s : CanvasPanel.State) (i : nat) : string :=
  nth (i mod List.length (CanvasPanel.canvases s))
      (map CanvasData.id (CanvasPanel.canvases s)) "".

(** The arrow keys, pressed without a modifier. *)
Definition arrowUp : KeyboardEvent := mkKey false false false "ArrowUp".
Definition arrowDown : KeyboardEvent := mkKey false false false "ArrowDown".

(** ** Sample inputs *)

(** Thirty-three one-letter words, 65 characters. *)
Definition manyWords : string := repeatText 32 "a " ++ "a".

(** One word of 66 characters. *)
Definition oneWord : string := repeatText 66 "a".

(** A transfer of the word "launch", selected in message 1 of the first
    chat, is pending. *)
Definition pendingTransfer : App.State :=
  App.handleTextDrag "launch" "1" "project-discussion" App.initial.

(** The canvas element fills a viewport of 800 by 600 pixels. *)
Definition viewport : DOMRect := mkRect 0 0 800 600.

Definition transferOf (text : string) : CanvasPanel.Props :=
  CanvasPanel.mkProps (Some text) (Some "1") (Some "project-discussion").

(** Two texts have been dropped, at times 1 and 2. *)
Definition twoBlocks : CanvasPanel.State :=
  CanvasEvents.run
    [ CanvasEvents.EDrop (transferOf "launch plan") (Some viewport) 1;
      CanvasEvents.EDrop (transferOf "traffic surge") (Some viewport) 2 ]
    (CanvasPanel.initial 0).

Definition noBlock : TextNode.t := TextNode.mk "" "" 0 0 0 0 None None "".
Definition blockA : TextNode.t := nth 0 (CanvasPanel.nodes twoBlocks) noBlock.
Definition blockB : TextNode.t := nth 1 (CanvasPanel.nodes twoBlocks) noBlock.

(** The top handle of the first block. *)
Definition handleOfA : Point :=
  nth 0 (TextBlock.connectionPoints blockA) (mkPoint 0 0).

(** The first block has been selected and linked to the second. *)
Definition linkedBlocks : CanvasPanel.State :=
  CanvasEvents.run
    [ CanvasEvents.EBlockMouseDown (mkMouse 400 300) (Some viewport) 3 "1";
      CanvasEvents.EMouseUp;
      CanvasEvents.EConnectionStart "1" handleOfA;
      CanvasEvents.EBlockMouseDown (mkMouse 400 300) (Some viewport) 4 "2" ]
    twoBlocks.

(** The canvas has been panned by a drag and zoomed by the wheel and by
    the zoom-in button. *)
Definition pannedAndZoomed : CanvasPanel.State :=
  CanvasEvents.run
    [ CanvasEvents.ECanvasMouseDown (mkMouse 10 10) true;
      CanvasEvents.EMouseMove (mkMouse 50 70) (Some viewport);
      CanvasEvents.EMouseUp;
      CanvasEvents.EWheel true (-1);
      CanvasEvents.EZoomIn ]
    (CanvasPanel.initial 0).

(** A question has been typed into the input of the first chat. *)
Definition typed : Workspace.World :=
  Workspace.typeInput "How do we align the teams?" (Workspace.initial 0).

(** Two of the three chats of the first render have been deleted. *)
Definition oneChat : Workspace.World :=
  Workspace.sidebarDelete "personal-notes"
    (Workspace.sidebarDelete "team-brainstorm" (Workspace.initial 0)).

(** The example of the specification: block a with center (100, 100) and
    block b with center (300, 150). *)
Definition blockAt (id : string) (x y : Q) : TextNode.t :=
  TextNode.mk id "text" x y 200 100 None None "#3B82F6".

Definition specExample : CanvasPanel.State :=
  CanvasPanel.setNodes (fun _ => [blockAt "a" 0 50; blockAt "b" 200 100])
    (CanvasPanel.initial 0).

(** The second block has been dragged by 60 pixels to the right and 30
    down. *)
Definition movedBlocks : CanvasPanel.State :=
  CanvasEvents.run
    [ CanvasEvents.EBlockMouseDown (mkMouse 400 300) (Some viewport) 5 "2";
      CanvasEvents.EMouseMove (mkMouse 460 330) (Some viewport);
      CanvasEvents.EMouseUp ]
    linkedBlocks.

Definition noLink : Connection.t :=
  Connection.mk "" "" "" (mkPoint 0 0) (mkPoint 0 0) curved None.

(** The connection of [movedBlocks]. *)
Definition theLink : Connection.t :=
  nth 0 (CanvasPanel.connections movedBlocks) noLink.

(** A second canvas has been created at time 5. *)
Definition twoCanvases : CanvasPanel.State :=
  CanvasPanel.handleNewCanvas 5 twoBlocks.

(** Lower case for the sample texts, which are ASCII: the letters A to Z
    move up by 32. *)
Definition lowerAscii (a : ascii) : ascii :=
  let n := nat_of_ascii a in
  if Nat.leb 65 n && Nat.leb n 90 then ascii_of_nat (n + 32) else a.

Fixpoint lowerSample (s : string) : string :=
  match s with
  | EmptyString => EmptyString
  | String a rest => String (lowerAscii a) (lowerSample rest)
  end.

(** The chats of the first render as the sidebar shows them. *)
Definition shownChats : list ChatSession.t :=
  ChatSidebarList.sortedChats lowerSample "" (ChatPanel.initialSessions 0).

Definition noChat : ChatSession.t := ChatSession.mk "" "" [] 0 None.

(** The first chat of the first render. *)
Definition firstChat : ChatSession.t :=
  nth 0 (ChatPanel.initialSessions 0) noChat.

(** The divider is being dragged in a window of 1200 pixels. *)
Definition wideWindow : PanelWidths.State := PanelWidths.mk 1200 500.
Definition narrowWindow : PanelWidths.State := PanelWidths.mk 800 500.
Definition dragging : PanelWidths.Divider := PanelWidths.mkDivider true 500 500.

(** A message is sent, a chat is created and the reply arrives. *)
Definition chatting : list ChatEvents.Event :=
  [ ChatEvents.ETypeInput "How do we align the teams?";
    ChatEvents.ESend 1;
    ChatEvents.ENewChat 2;
    ChatEvents.EReply 0 2001 0.5 ].

(** The chat a message was sent in has been deleted before the reply. *)
Definition orphanedReply : Workspace.World :=
  Workspace.sidebarDelete "project-discussion" (Workspace.sendMessage 1 typed).






(** * Properties *)

(** ** The handlers on concrete inputs *)

Example split_keeps_empty_pieces :
  JS.split " "%char "a b  c" = ["a"; "b"; ""; "c"]
  /\ JS.split " "%char "" = [""].
Proof. split; reflexivity. Qed.

Example trim_both_ends :
  JS.trim "  launch plan  " = "launch plan" /\ JS.trim "   " = "".
Proof. split; reflexivity. Qed.

Example toString_decimal :
  JS.toString 1720000000123 = "1720000000123".
Proof. reflexivity. Qed.

Example size_of_short_text :
  CanvasPanel.calculateInitialSize "launch plan" = CanvasPanel.mkSize 240 120.
Proof. reflexivity. Qed.

Example size_of_101_characters :
  CanvasPanel.calculateInitialSize (repeatText 101 "a")
  = CanvasPanel.mkSize 242 120.
Proof. reflexivity. Qed.

Example size_of_long_text :
  CanvasPanel.calculateInitialSize (repeatText 500 "a ")
  = CanvasPanel.mkSize 400 300.
Proof. vm_compute. reflexivity. Qed.

(** Three presses of the zoom-in button from 1 give 1.728. *)
Example three_zoom_ins :
  CanvasPanel.zoom
    (CanvasEvents.run
       [CanvasEvents.EZoomIn; CanvasEvents.EZoomIn; CanvasEvents.EZoomIn]
       (CanvasPanel.initial 0))
  == 1.728.
Proof. reflexivity. Qed.

(** A notch inwards and a notch outwards do not cancel. *)
Example wheel_in_then_out :
  CanvasPanel.zoom
    (CanvasEvents.run
       [CanvasEvents.EWheel true (-1); CanvasEvents.EWheel true 1]
       (CanvasPanel.initial 0))
  == 0.99.
Proof. reflexivity. Qed.

(** Connecting block a, center (100, 100), from its right handle to block
    b, center (300, 150). *)
Example spec_connection :
  Point_eq (CanvasPanel.center (blockAt "a" 0 50)) (mkPoint 100 100)
  /\ exists c,
       CanvasPanel.connections
         (Workspace.connectGesture "a" (mkPoint 200 100) (mkMouse 0 0) None 5
            "b" specExample) = [c]
       /\ Connection.from c = "a" /\ Connection.to c = "b"
       /\ Connection.fromPoint c = mkPoint 200 100
       /\ Point_eq (Connection.toPoint c) (mkPoint 300 150).
Proof.
  split; [split; reflexivity |].
  eexists. split; [reflexivity |]. repeat split.
Qed.

(** The guard of the canvas list can fail only with colliding identifiers:
    two canvases with one identifier leave nothing to select. *)
Example delete_with_colliding_ids :
  exists s,
    CanvasPanel.handleCanvasDelete "canvas-7"
      (CanvasPanel.setCurrentCanvasId "canvas-7"
         (CanvasPanel.setCanvases
            (fun _ => [CanvasData.mk "canvas-7" "Canvas 2" [] [] 7 7;
                       CanvasData.mk "canvas-7" "Canvas 3" [] [] 7 7])
            (CanvasPanel.initial 0)))
    = CanvasPanel.Threw s.
Proof. eexists. reflexivity. Qed.

(** ** Lists *)

Section ListFacts.
Context {A : Type}.


Lemma find_first (f : A -> bool) (l1 l2 : list A) (a : A) :
  (forall b, In b l1 -> f b = false) -> f a = true ->
  find f (l1 ++ a :: l2) = Some a.
Proof.
  induction l1 as [| b l1 IH]; intros Hnone Ha; simpl.
  - now rewrite Ha.
  - rewrite (Hnone b (or_introl eq_refl)).
    apply IH; [| exact Ha]. intros c Hc. apply Hnone. now right.
Qed.

Lemma find_exists (f : A -> bool) (l : list A) (a : A) :
  In a l -> f a = true -> exists b, find f l = Some b.
Proof.
  induction l as [| c l IH]; intros Hin Ha; simpl.
  - contradiction.
  - destruct (f c) eqn:Hc.
    + now exists c.
    + destruct Hin as [-> | Hin]; [congruence | now apply IH].
Qed.
End ListFacts.

(** In a list of blocks with pairwise distinct identifiers, a block is the
    only one that carries its identifier. *)
Lemma unique_id_split (l1 l2 : list TextNode.t) (B n : TextNode.t) :
  NoDup (nodeIds (l1 ++ B :: l2)) ->
  In n (l1 ++ l2) -> TextNode.id n <> TextNode.id B.
Proof.
  unfold nodeIds. rewrite map_app. simpl. intros Hnd Hin Heq.
  apply NoDup_remove_2 in Hnd. apply Hnd.
  rewrite <- map_app, <- Heq. now apply in_map.
Qed.

Lemma find_by_unique_id (ns : list TextNode.t) (B : TextNode.t) :
  NoDup (nodeIds ns) -> In B ns ->
  find (CanvasPanel.hasId (TextNode.id B)) ns = Some B.
Proof.
  intros Hnd Hin.
  destruct (in_split _ _ Hin) as (l1 & l2 & ->).
  apply find_first.
  - intros b Hb. unfold CanvasPanel.hasId. apply String.eqb_neq.
    apply (unique_id_split l1 l2 B b Hnd). apply in_or_app. now left.
  - unfold CanvasPanel.hasId. apply String.eqb_refl.
Qed.

(** ** Deleting a block *)

Section DeleteNode.
Import CanvasPanel.





End DeleteNode.

(** ** Numbers *)

Section NumberFacts.

Lemma gtb_true (a b : Q) : JS.gtb a b = true <-> b < a.
Proof.
  unfold JS.gtb. rewrite Qgt_alt.
  destruct (a ?= b); split; congruence.
Qed.

Lemma gtb_false (a b : Q) : JS.gtb a b = false <-> a <= b.
Proof.
  unfold JS.gtb. rewrite Qle_alt.
  destruct (a ?= b); split; congruence.
Qed.

Lemma floor_mono (a b : Q) : a <= b -> JS.floor a <= JS.floor b.
Proof.
  intros H. unfold JS.floor. rewrite <- Zle_Qle. now apply Qfloor_resp_le.
Qed.

Lemma floor_nonneg (a : Q) : 0 <= a -> 0 <= JS.floor a.
Proof. intros H. apply (floor_mono 0 a H). Qed.

Lemma round_mono (a b : Q) : a <= b -> JS.round a <= JS.round b.
Proof.
  intros H. unfold JS.round. rewrite <- Zle_Qle.
  apply Qfloor_resp_le. lra.
Qed.

(** Rounding an integer gives it back. *)
Lemma round_integer (z : Z) : JS.round (inject_Z z) = inject_Z z.
Proof.
  unfold JS.round. f_equal.
  assert (Hlo : (z <= Qfloor (inject_Z z + (1 # 2)))%Z).
  { rewrite <- (Qfloor_Z z) at 1. apply Qfloor_resp_le. lra. }
  assert (Hhi : (Qfloor (inject_Z z + (1 # 2)) < z + 1)%Z).
  { rewrite Zlt_Qlt.
    apply Qle_lt_trans with (inject_Z z + (1 # 2)); [apply Qfloor_le |].
    rewrite inject_Z_plus. change (inject_Z 1) with 1. lra. }
  lia.
Qed.

Lemma round_between (lo hi : Z) (a : Q) :
  inject_Z lo <= a -> a <= inject_Z hi ->
  inject_Z lo <= JS.round a /\ JS.round a <= inject_Z hi.
Proof.
  intros Hlo Hhi. split.
  - rewrite <- (round_integer lo). now apply round_mono.
  - rewrite <- (round_integer hi). now apply round_mono.
Qed.

Lemma count_le (n m : nat) :
  (n <= m)%nat -> inject_Z (Z.of_nat n) <= inject_Z (Z.of_nat m).
Proof. intros H. rewrite <- Zle_Qle. lia. Qed.

End NumberFacts.

(** ** The size of a dropped block *)

Section InitialSize.
Import CanvasPanel.

Lemma size_unfold (text : string) :
  calculateInitialSize text
  = mkSize (JS.round (rawWidth (counted (charCount text))))
           (JS.round (rawHeight (counted (charCount text))
                                (counted (wordCount text)))).
Proof. reflexivity. Qed.

Lemma rawWidth_bounds (c : Q) : 240 <= rawWidth c /\ rawWidth c <= 400.
Proof.
  unfold rawWidth, JS.min. destruct (JS.gtb c 100) eqn:Hc.
  - apply gtb_true in Hc. split.
    + apply Q.min_glb; lra.
    + apply Q.le_min_l.
  - split; lra.
Qed.

Lemma rawWidth_mono (c1 c2 : Q) : c1 <= c2 -> rawWidth c1 <= rawWidth c2.
Proof.
  intros H. unfold rawWidth, JS.min.
  destruct (JS.gtb c1 100) eqn:H1; destruct (JS.gtb c2 100) eqn:H2;
    try apply gtb_true in H1; try apply gtb_true in H2;
    try apply gtb_false in H1; try apply gtb_false in H2.
  - apply Q.min_le_compat_l. lra.
  - lra.
  - apply Q.min_glb; lra.
  - lra.
Qed.

Lemma sixtieths_nonneg (c : Q) : 100 < c -> 0 <= JS.floor ((c - 100) / 60).
Proof.
  intros H. apply floor_nonneg.
  unfold Qdiv. change (/ 60) with (1 # 60). lra.
Qed.

Lemma baseHeight_bounds (c : Q) : 120 <= baseHeight c /\ baseHeight c <= 250.
Proof.
  unfold baseHeight, JS.min. destruct (JS.gtb c 100) eqn:Hc.
  - apply gtb_true in Hc. pose proof (sixtieths_nonneg c Hc). split.
    + apply Q.min_glb; lra.
    + apply Q.le_min_l.
  - split; lra.
Qed.

Lemma baseHeight_mono (c1 c2 : Q) : c1 <= c2 -> baseHeight c1 <= baseHeight c2.
Proof.
  intros H. unfold baseHeight, JS.min.
  destruct (JS.gtb c1 100) eqn:H1; destruct (JS.gtb c2 100) eqn:H2;
    try apply gtb_true in H1; try apply gtb_true in H2;
    try apply gtb_false in H1; try apply gtb_false in H2.
  - apply Q.min_le_compat_l.
    assert (JS.floor ((c1 - 100) / 60) <= JS.floor ((c2 - 100) / 60)).
    { apply floor_mono. unfold Qdiv. change (/ 60) with (1 # 60). lra. }
    lra.
  - lra.
  - pose proof (sixtieths_nonneg c2 H2). apply Q.min_glb; lra.
  - lra.
Qed.

Lemma twelfths_nonneg (w : Q) : 20 < w -> 0 <= JS.floor ((w - 20) / 12).
Proof.
  intros H. apply floor_nonneg.
  unfold Qdiv. change (/ 12) with (1 # 12). lra.
Qed.

Lemma rawHeight_bounds (c w : Q) : 120 <= rawHeight c w /\ rawHeight c w <= 300.
Proof.
  pose proof (baseHeight_bounds c) as [Hlo Hhi].
  unfold rawHeight, JS.min. destruct (JS.gtb w 20) eqn:Hw.
  - apply gtb_true in Hw. pose proof (twelfths_nonneg w Hw). split.
    + apply Q.min_glb; lra.
    + apply Q.le_min_l.
  - split; lra.
Qed.

Lemma rawHeight_mono (c1 c2 w1 w2 : Q) :
  c1 <= c2 -> w1 <= w2 -> rawHeight c1 w1 <= rawHeight c2 w2.
Proof.
  intros Hc Hw.
  pose proof (baseHeight_mono c1 c2 Hc) as Hb.
  pose proof (baseHeight_bounds c1) as [_ Hhi].
  unfold rawHeight, JS.min.
  destruct (JS.gtb w1 20) eqn:H1; destruct (JS.gtb w2 20) eqn:H2;
    try apply gtb_true in H1; try apply gtb_true in H2;
    try apply gtb_false in H1; try apply gtb_false in H2.
  - apply Q.min_le_compat_l.
    assert (JS.floor ((w1 - 20) / 12) <= JS.floor ((w2 - 20) / 12)).
    { apply floor_mono. unfold Qdiv. change (/ 12) with (1 # 12). lra. }
    lra.
  - lra.
  - pose proof (twelfths_nonneg w2 H2). apply Q.min_glb; lra.
  - exact Hb.
Qed.

(** The width of a dropped block does not decrease with the length of
    the text. *)
Lemma width_mono (t1 t2 : string) :
  (charCount t1 <= charCount t2)%nat ->
  size_width (calculateInitialSize t1) <= size_width (calculateInitialSize t2).
Proof.
  intros H. rewrite !size_unfold. simpl.
  apply round_mono, rawWidth_mono, count_le, H.
Qed.

(** The height does not decrease when neither the length nor the number
    of words does. *)
Lemma height_mono (t1 t2 : string) :
  (charCount t1 <= charCount t2)%nat -> (wordCount t1 <= wordCount t2)%nat ->
  size_height (calculateInitialSize t1) <= size_height (calculateInitialSize t2).
Proof.
  intros Hc Hw. rewrite !size_unfold. simpl.
  apply round_mono, rawHeight_mono; apply count_le; assumption.
Qed.

Lemma size_bounds (text : string) :
  (240 <= size_width (calculateInitialSize text)
   /\ size_width (calculateInitialSize text) <= 400)
  /\ (120 <= size_height (calculateInitialSize text)
      /\ size_height (calculateInitialSize text) <= 300).
Proof.
  rewrite size_unfold. simpl. split.
  - apply (round_between 240 400); apply rawWidth_bounds.
  - apply (round_between 120 300); apply rawHeight_bounds.
Qed.

End InitialSize.

(** ** Consuming the pending drag transfer *)

Section Drop.
Import CanvasPanel Workspace.

Lemma consumeDrag_idle (rect : option DOMRect) (now : Z) (w : World) :
  App.draggedText (app w) = None -> consumeDrag rect now w = w.
Proof.
  intros H. unfold consumeDrag, dropEffect, App.canvasProps. simpl.
  rewrite H. destruct w; reflexivity.
Qed.

(** C2, as the code has it. Consuming a pending transfer of a non-empty
    text appends exactly one block, centred on the middle of the canvas
    rectangle taken to canvas space, and clears the transfer, so that the
    effect does nothing when it runs again.
    The width of the block is between 200 and 600 and does not decrease
    with the length of the text; its height is between 100 and 500 and
    does not decrease when neither the length nor the number of
    space-separated words decreases. *)
Theorem drop_appends_one_sized_block
    (w : World) (dragged : string) (r : DOMRect) (now : Z) :
  App.draggedText (app w) = Some dragged -> dragged <> "" ->
  let w' := consumeDrag (Some r) now w in
  let size := calculateInitialSize dragged in
  (exists n,
      nodes (canvas w') = (nodes (canvas w) ++ [n])%list
      /\ TextNode.text n = dragged
      /\ TextNode.width n = size_width size
      /\ TextNode.height n = size_height size
      /\ Point_eq (center n)
           (screenToCanvas (pan (canvas w)) (zoom (canvas w))
              (mkPoint (rwidth r / 2) (rheight r / 2))))
  /\ App.canvasProps (app w') = mkProps None None None
  /\ (forall rect' now', consumeDrag rect' now' w' = w')
  /\ (200 <= size_width size /\ size_width size <= 600)
  /\ (100 <= size_height size /\ size_height size <= 500)
  /\ (forall t1 t2,
        (charCount t1 <= charCount t2)%nat ->
        size_width (calculateInitialSize t1)
        <= size_width (calculateInitialSize t2))
  /\ (forall t1 t2,
        (charCount t1 <= charCount t2)%nat ->
        (wordCount t1 <= wordCount t2)%nat ->
        size_height (calculateInitialSize t1)
        <= size_height (calculateInitialSize t2)).
Proof.
  intros Hdrag Hne w' size.
  assert (Hw' : w' = w |> onCanvas (setNodes (fun prev =>
              (prev ++ [TextNode.mk (JS.toString now) dragged
                 (px (screenToCanvas (pan (canvas w)) (zoom (canvas w))
                        (mkPoint (rwidth r / 2) (rheight r / 2)))
                  - size_width size / 2)
                 (py (screenToCanvas (pan (canvas w)) (zoom (canvas w))
                        (mkPoint (rwidth r / 2) (rheight r / 2)))
                  - size_height size / 2)
                 (size_width size) (size_height size)
                 (orUndefined (App.sourceMsgId (app w)))
                 (orUndefined (App.sourceChatId (app w)))
                 (nth (Nat.modulo (List.length (nodes (canvas w)))
                                  (List.length colors))
                      colors "undefined")])%list))
            |> onApp App.handleTextDragComplete).
  { subst w'. unfold consumeDrag, dropEffect, App.canvasProps. simpl.
    rewrite Hdrag. destruct dragged as [| a rest]; [congruence |].
    reflexivity. }
  pose proof (size_bounds dragged) as [[Hw1 Hw2] [Hh1 Hh2]].
  fold size in Hw1, Hw2, Hh1, Hh2.
  split; [| split; [| split; [| split; [| split; [| split]]]]].
  - rewrite Hw'. eexists. split; [reflexivity |].
    repeat split; simpl; unfold Qdiv; ring.
  - rewrite Hw'. reflexivity.
  - intros rect' now'. apply consumeDrag_idle. rewrite Hw'. reflexivity.
  - split; lra.
  - split; lra.
  - exact width_mono.
  - exact height_mono.
Qed.

(** C2, as stated, fails: a longer text can give a lower block, because
    the height also grows with the number of words. *)
Lemma height_not_monotone_in_length :
  (charCount manyWords <= charCount oneWord)%nat
  /\ ~ (size_height (calculateInitialSize manyWords)
        <= size_height (calculateInitialSize oneWord)).
Proof.
  split.
  - vm_compute. lia.
  - vm_compute. intros H. apply H. reflexivity.
Qed.

End Drop.

(** Case analysis on whatever a handler branches on. *)
Ltac break_match :=
  match goal with
  | |- context [match ?x with _ => _ end] => destruct x eqn:?
  | |- context [if ?x then _ else _] => destruct x eqn:?
  end.

(** ** Zoom *)

Section Zoom.
Import CanvasPanel CanvasEvents.

Lemma clamp_is_clampTo (v : Q) :
  JS.max 0.5 (JS.min 3 v) == clampTo 0.5 3 v.
Proof.
  unfold clampTo, JS.max, JS.min.
  destruct (Qlt_le_dec v 0.5) as [Hlo | Hlo].
  - rewrite (Q.min_r 3 v) by lra. apply Q.max_l. lra.
  - destruct (Qlt_le_dec 3 v) as [Hhi | Hhi].
    + rewrite (Q.min_l 3 v) by lra. apply Q.max_r. lra.
    + rewrite (Q.min_r 3 v) by lra. apply Q.max_r. lra.
Qed.

Lemma handleWheel_range (inCanvas : bool) (deltaY : Q) (s : State) :
  zoomInRange (zoom s) -> zoomInRange (zoom (handleWheel inCanvas deltaY s)).
Proof.
  intros H. unfold handleWheel. destruct inCanvas; [| exact H].
  simpl. unfold zoomInRange, JS.max, JS.min. split.
  - apply Q.le_max_l.
  - apply Q.max_lub; [lra | apply Q.le_min_l].
Qed.

Lemma handleZoomIn_range (s : State) :
  zoomInRange (zoom s) -> zoomInRange (zoom (handleZoomIn s)).
Proof.
  intros [Hlo Hhi]. simpl. unfold zoomInRange, JS.min. split.
  - apply Q.min_glb; lra.
  - apply Q.le_min_r.
Qed.

Lemma handleZoomOut_range (s : State) :
  zoomInRange (zoom s) -> zoomInRange (zoom (handleZoomOut s)).
Proof.
  intros [Hlo Hhi]. simpl. unfold zoomInRange, JS.max. split.
  - apply Q.le_max_r.
  - apply Q.max_lub; [| lra].
    unfold Qdiv. change (/ 1.2) with (10 # 12). lra.
Qed.

(** No other event touches the zoom factor. *)
Lemma step_zoom (ev : Event) (s : State) :
  match ev with
  | EWheel _ _ | EZoomIn | EZoomOut => True
  | _ => zoom (step ev s) = zoom s
  end.
Proof.
  destruct ev; try exact I; simpl;
    unfold dropEffect, handleBlockMouseDown, completeConnection,
      startDragging, handleMouseMove, handleCanvasMouseDown,
      handleCanvasSelect, handleNewCanvas, handleCanvasDelete,
      handleCanvasSelectIn, TextBlock.handleMouseMove;
    repeat break_match; reflexivity.
Qed.

Lemma step_range (ev : Event) (s : State) :
  zoomInRange (zoom s) -> zoomInRange (zoom (step ev s)).
Proof.
  intros H. pose proof (step_zoom ev s) as Hz.
  destruct ev; try (rewrite Hz; exact H).
  - now apply handleWheel_range.
  - now apply handleZoomIn_range.
  - now apply handleZoomOut_range.
Qed.

Lemma reachable_zoomInRange (s : State) :
  reachable s -> zoomInRange (zoom s).
Proof.
  induction 1 as [t0 | ev s Hs IH].
  - simpl. unfold zoomInRange. split; lra.
  - now apply step_range.
Qed.

(** C4. From the first render, where the zoom factor is 1, whatever
    events follow (wheel notches, presses of the zoom buttons, and every
    other event of the panel), the zoom factor lies between 0.5 and 3. *)
Theorem zoom_stays_in_range (s : State) :
  reachable s -> zoomInRange (zoom s).
Proof. exact (reachable_zoomInRange s). Qed.

(** C5, as the code has it. A wheel notch over the canvas multiplies the
    zoom factor by 1.1 when the wheel's [deltaY] is not positive and by
    0.9 when it is positive, and the product is then brought into the
    interval from 0.5 to 3. *)
Theorem wheel_notch_scales_zoom (s : State) (deltaY : Q) :
  (deltaY <= 0 ->
   zoom (handleWheel true deltaY s) == clampTo 0.5 3 (zoom s * 1.1))
  /\ (0 < deltaY ->
      zoom (handleWheel true deltaY s) == clampTo 0.5 3 (zoom s * 0.9)).
Proof.
  split; intros H; simpl.
  - apply gtb_false in H. rewrite H. apply clamp_is_clampTo.
  - apply gtb_true in H. rewrite H. apply clamp_is_clampTo.
Qed.

(** C5, as stated, fails: at zoom 1 a notch outwards gives 0.9, which
    is not 1 divided by 1.1. *)
Lemma wheel_out_is_not_the_inverse :
  zoom (handleWheel true 100 (initial 0)) == 0.9
  /\ ~ (zoom (handleWheel true 100 (initial 0))
        == clampTo 0.5 3 (zoom (initial 0) * / 1.1)).
Proof.
  split.
  - reflexivity.
  - vm_compute. discriminate.
Qed.

(** C3. In every state the panel can reach, taking a screen coordinate
    to canvas space, by subtracting the pan offset and dividing by the
    zoom factor, and back, by multiplying by the zoom factor and adding
    the pan offset, gives the screen coordinate again. *)
Theorem screen_canvas_round_trip (s : State) (p : Point) :
  reachable s ->
  Point_eq (canvasToScreen (pan s) (zoom s)
              (screenToCanvas (pan s) (zoom s) p)) p.
Proof.
  intros Hs. destruct (reachable_zoomInRange s Hs) as [Hlo _].
  assert (Hnz : ~ zoom s == 0) by lra.
  split; simpl; field; exact Hnz.
Qed.

End Zoom.

(** ** What every reachable state of the canvas panel satisfies *)

Section Invariant.
Import CanvasPanel CanvasEvents.

(** A property of blocks and a property of connections that new blocks
    and new connections have and that moving and resizing keep. *)
Variable goodNode : TextNode.t -> Prop.
Variable goodConn : Connection.t -> Prop.

Hypothesis dropped_good : forall now text x y m c col,
  goodNode (TextNode.mk (JS.toString now) text x y
              (size_width (calculateInitialSize text))
              (size_height (calculateInitialSize text)) m c col).
Hypothesis resized_good : forall w h n,
  TextBlock.minWidth <= w /\ w <= TextBlock.maxWidth ->
  TextBlock.minHeight <= h /\ h <= TextBlock.maxHeight ->
  goodNode n -> goodNode (withSize w h n).
Hypothesis moved_good : forall p n,
  goodNode n -> goodNode (withPosition p n).
Hypothesis connected_good : forall now source target p q,
  source <> target ->
  goodConn (Connection.mk (JS.toString now) source target p q curved None).
Hypothesis fromPoint_good : forall p c,
  goodConn c -> goodConn (withFromPoint p c).
Hypothesis toPoint_good : forall p c,
  goodConn c -> goodConn (withToPoint p c).

Abbreviation Good := (good goodNode goodConn).
Abbreviation GoodCanvas := (goodCanvas goodNode goodConn).

Lemma Forall_snoc {A} (P : A -> Prop) (l : list A) (a : A) :
  Forall P l -> P a -> Forall P (l ++ [a])%list.
Proof. intros Hl Ha. apply Forall_app. split; [exact Hl | now constructor]. Qed.

Lemma Forall_map_keeps {A} (P : A -> Prop) (f : A -> A) (l : list A) :
  (forall a, P a -> P (f a)) -> Forall P l -> Forall P (map f l).
Proof. intros Hf Hl. induction Hl; simpl; constructor; auto. Qed.

Lemma Forall_filter_keeps {A} (P : A -> Prop) (f : A -> bool) (l : list A) :
  Forall P l -> Forall P (filter f l).
Proof.
  intros Hl. induction Hl as [| a l Ha Hl IH]; simpl; [constructor |].
  destruct (f a); [constructor |]; assumption.
Qed.

Lemma found_canvas_good (f : CanvasData.t -> bool) (cs : list CanvasData.t)
    (cv : CanvasData.t) :
  Forall GoodCanvas cs -> find f cs = Some cv -> GoodCanvas cv.
Proof.
  intros Hcs Hfind. apply find_some in Hfind.
  rewrite Forall_forall in Hcs. now apply Hcs.
Qed.

Lemma good_initial (t0 : Z) : Good (initial t0).
Proof.
  repeat split; simpl; repeat constructor.
Qed.

(** A state that differs in neither blocks, connections nor canvases. *)
Lemma good_frame (s s' : State) :
  nodes s' = nodes s -> connections s' = connections s ->
  canvases s' = canvases s -> Good s -> Good s'.
Proof. unfold good. intros -> -> ->. tauto. Qed.

Lemma good_select (cs : list CanvasData.t) (canvasId : string) (s : State) :
  Forall GoodCanvas cs -> Good s -> Good (handleCanvasSelectIn cs canvasId s).
Proof.
  intros Hcs (Hn & Hc & Hcv). unfold handleCanvasSelectIn.
  destruct (find _ cs) as [cv |] eqn:Hfind; [| repeat split; assumption].
  destruct (found_canvas_good _ _ _ Hcs Hfind) as [Hcn Hcc].
  repeat split; simpl; assumption.
Qed.

Lemma good_drop (p : Props) (rect : option DOMRect) (now : Z) (s : State) :
  Good s -> Good (fst (dropEffect p rect now s)).
Proof.
  intros (Hn & Hc & Hcv). unfold dropEffect.
  repeat break_match; simpl; repeat split; try assumption.
  apply Forall_snoc; [assumption | apply dropped_good].
Qed.

Lemma good_startDragging (e : MouseEvent) (rect : option DOMRect)
    (nodeId : string) (s : State) :
  Good s -> Good (startDragging e rect nodeId s).
Proof.
  apply good_frame; unfold startDragging; repeat break_match; reflexivity.
Qed.

Lemma good_completeConnection (now : Z) (source nodeId : string) (s : State) :
  source <> nodeId -> Good s -> Good (completeConnection now source nodeId s).
Proof.
  intros Hne (Hn & Hc & Hcv). unfold completeConnection.
  repeat break_match; simpl; repeat split; try assumption.
  apply Forall_snoc; [assumption | now apply connected_good].
Qed.

Lemma good_blockMouseDown (e : MouseEvent) (rect : option DOMRect) (now : Z)
    (nodeId : string) (s : State) :
  Good s -> Good (handleBlockMouseDown e rect now nodeId s).
Proof.
  intros H. unfold handleBlockMouseDown.
  destruct (connectingFrom s) as [source |]; [| now apply good_startDragging].
  destruct (JS.truthy source && negb (String.eqb source nodeId)) eqn:Hguard;
    [| now apply good_startDragging].
  apply andb_true_iff in Hguard. destruct Hguard as [_ Hne].
  apply negb_true_iff, String.eqb_neq in Hne.
  now apply good_completeConnection.
Qed.

Lemma clamped (lo hi v : Q) :
  lo <= hi -> lo <= JS.max lo (JS.min hi v) /\ JS.max lo (JS.min hi v) <= hi.
Proof.
  intros H. unfold JS.max, JS.min. split.
  - apply Q.le_max_l.
  - apply Q.max_lub; [exact H | apply Q.le_min_l].
Qed.

Lemma good_resize (nodeId : string) (isResizing : bool)
    (resizeStart : TextBlock.ResizeStart) (e : MouseEvent) (s : State) :
  Good s -> Good (TextBlock.handleMouseMove nodeId isResizing resizeStart e s).
Proof.
  intros H. unfold TextBlock.handleMouseMove.
  destruct (negb isResizing); [exact H |].
  destruct H as (Hn & Hc & Hcv). unfold handleBlockResize.
  repeat split; simpl; try assumption.
  - apply Forall_map_keeps; [| assumption].
    intros n Hgood. destruct (hasId nodeId n); [| exact Hgood].
    apply resized_good; [| | exact Hgood]; apply clamped; vm_compute;
      discriminate.
  - apply Forall_map_keeps; [| assumption].
    intros c Hgood. repeat break_match; auto.
Qed.

Lemma good_mouseMove (e : MouseEvent) (rect : option DOMRect) (s : State) :
  Good s -> Good (handleMouseMove e rect s).
Proof.
  intros (Hn & Hc & Hcv). unfold handleMouseMove.
  repeat break_match; simpl; repeat split; try assumption;
    (apply Forall_map_keeps; [| assumption]);
    intros a Hgood; repeat break_match; auto.
Qed.

Lemma good_deleteNode (nodeId : string) (s : State) :
  Good s -> Good (handleDeleteNode nodeId s).
Proof.
  intros (Hn & Hc & Hcv).
  repeat split; simpl; try assumption; now apply Forall_filter_keeps.
Qed.

Lemma good_deleteConnection (connectionId : string) (s : State) :
  Good s -> Good (handleDeleteConnection connectionId s).
Proof.
  intros (Hn & Hc & Hcv).
  repeat split; simpl; try assumption; now apply Forall_filter_keeps.
Qed.

Lemma good_newCanvas (now : Z) (s : State) :
  Good s -> Good (handleNewCanvas now s).
Proof.
  intros (Hn & Hc & Hcv). unfold handleNewCanvas.
  apply good_select; [assumption |].
  repeat split; simpl; try assumption.
  apply Forall_snoc; [assumption |]. split; constructor.
Qed.

Lemma good_canvasDelete (canvasId : string) (s : State) :
  Good s -> Good (stateOf (handleCanvasDelete canvasId s)).
Proof.
  intros (Hn & Hc & Hcv). unfold handleCanvasDelete.
  assert (Hkept : forall f, Good (s |> setCanvases (filter f))).
  { intros f. repeat split; simpl; try assumption.
    now apply Forall_filter_keeps. }
  repeat break_match; simpl; try apply good_select; auto.
  repeat split; assumption.
Qed.

Lemma good_update (now : Z) (s : State) :
  Good s -> Good (updateCanvasData now s).
Proof.
  intros (Hn & Hc & Hcv).
  repeat split; simpl; try assumption.
  apply Forall_map_keeps; [| assumption].
  intros cv Hgood. break_match; [split; assumption | assumption].
Qed.

Lemma good_step (ev : Event) (s : State) : Good s -> Good (step ev s).
Proof.
  intros H. destruct ev; simpl.
  - now apply good_drop.
  - revert H. apply good_frame; unfold handleWheel; repeat break_match;
      reflexivity.
  - revert H. apply good_frame; reflexivity.
  - revert H. apply good_frame; reflexivity.
  - now apply good_blockMouseDown.
  - revert H. apply good_frame; reflexivity.
  - now apply good_resize.
  - now apply good_mouseMove.
  - revert H. apply good_frame; reflexivity.
  - revert H. apply good_frame; unfold handleCanvasMouseDown;
      repeat break_match; reflexivity.
  - now apply good_deleteNode.
  - now apply good_deleteConnection.
  - apply good_select; [apply H | exact H].
  - now apply good_newCanvas.
  - now apply good_canvasDelete.
  - now apply good_update.
Qed.

Lemma good_reachable (s : State) : reachable s -> Good s.
Proof.
  induction 1 as [t0 | ev s Hs IH].
  - apply good_initial.
  - now apply good_step.
Qed.

End Invariant.

(** ** Connections *)

Section Connections.
Import CanvasPanel CanvasEvents.

Lemma toString_truthy (n : Z) : JS.truthy (JS.toString n) = true.
Proof.
  unfold JS.toString. destruct (Z.to_int n) as [d | d]; [| reflexivity].
  destruct d; reflexivity.
Qed.

Lemma same_id_same_block (ns : list TextNode.t) (a b : TextNode.t) :
  NoDup (nodeIds ns) -> In a ns -> In b ns ->
  TextNode.id a = TextNode.id b -> a = b.
Proof.
  induction ns as [| n ns IH]; simpl; intros Hnd Ha Hb Hid; [contradiction |].
  inversion Hnd as [| ? ? Hnotin Hnd']; subst.
  destruct Ha as [-> | Ha]; destruct Hb as [-> | Hb].
  - reflexivity.
  - exfalso. apply Hnotin. rewrite Hid. now apply in_map.
  - exfalso. apply Hnotin. rewrite <- Hid. now apply in_map.
  - now apply IH.
Qed.

(** Every connection of a reachable state joins two different
    identifiers, in the working copy and in the stored canvases. *)
Lemma reachable_no_loops (s : State) :
  reachable s -> good (fun _ => True) (fun c => ~ selfLoop c) s.
Proof.
  apply good_reachable; auto.
Qed.

(** Every block of a reachable state has a non-empty identifier and a
    size within the documented bounds. *)
Lemma reachable_sound_nodes (s : State) :
  reachable s -> good soundNode (fun _ => True) s.
Proof.
  apply good_reachable; auto.
  - intros now text x y m c col. split.
    + apply toString_truthy.
    + pose proof (size_bounds text) as [[Hw1 Hw2] [Hh1 Hh2]].
      unfold wellSized, TextBlock.minWidth, TextBlock.maxWidth,
        TextBlock.minHeight, TextBlock.maxHeight.
      cbn [TextNode.width TextNode.height].
      repeat split; lra.
  - intros w h n Hw Hh [Hid _]. split; [exact Hid | split; assumption].
Qed.


(** C10. No reachable state holds a connection from a block to itself,
    neither among the working connections nor in a stored canvas; and
    when the connection mode is armed from a block, a mouse-down on the
    body of that block starts a drag and adds no connection. *)
Theorem no_connection_to_itself (s : State) :
  reachable s ->
  (forall c, In c (connections s) -> ~ selfLoop c)
  /\ (forall cv c, In cv (canvases s) ->
                   In c (CanvasData.connections cv) -> ~ selfLoop c)
  /\ (forall e rect now a,
        connectingFrom s = Some a ->
        handleBlockMouseDown e rect now a s = startDragging e rect a s
        /\ connections (handleBlockMouseDown e rect now a s) = connections s).
Proof.
  intros Hs. destruct (reachable_no_loops s Hs) as (_ & Hc & Hcv).
  rewrite Forall_forall in Hc, Hcv.
  split; [exact Hc | split].
  - intros cv c Hin. destruct (Hcv cv Hin) as [_ Hcc].
    rewrite Forall_forall in Hcc. apply Hcc.
  - intros e rect now a Harmed.
    assert (Hdrag : handleBlockMouseDown e rect now a s
                    = startDragging e rect a s).
    { unfold handleBlockMouseDown. rewrite Harmed, String.eqb_refl.
      now rewrite andb_false_r. }
    split; [exact Hdrag |]. rewrite Hdrag.
    unfold startDragging. repeat break_match; reflexivity.
Qed.

(** Among blocks with pairwise distinct identifiers, two different
    blocks carry different identifiers and each is the first block that
    carries its own. *)
Lemma distinct_blocks_by_id (ns : list TextNode.t) (A B : TextNode.t) :
  NoDup (nodeIds ns) -> In A ns -> In B ns -> A <> B ->
  TextNode.id A <> TextNode.id B
  /\ find (hasId (TextNode.id B)) ns = Some B.
Proof.
  intros Hnd HA HB Hdistinct. split.
  - intros Hid. apply Hdistinct. now apply (same_id_same_block ns).
  - now apply find_by_unique_id.
Qed.


End Connections.

(** ** Chats *)

Section Chats.
Import Workspace.

Lemma thread_appendTo (chatId : string) (m : Message.t) (now : Z)
    (c : ChatSession.t) :
  thread (ChatPanel.appendTo chatId m now c)
  = (ChatSession.id c,
     if String.eqb (ChatSession.id c) chatId
     then (ChatSession.messages c ++ [m])%list
     else ChatSession.messages c).
Proof.
  unfold ChatPanel.appendTo.
  destruct (String.eqb (ChatSession.id c) chatId); reflexivity.
Qed.

Lemma thread_clearUnread (chatId : string) (c : ChatSession.t) :
  thread (if String.eqb (ChatSession.id c) chatId
          then ChatSession.merge c ChatSidebar.clearUnread else c)
  = thread c.
Proof. destruct (String.eqb (ChatSession.id c) chatId); reflexivity. Qed.

(** Selecting a chat in the sidebar changes the active chat and the
    highlight, and at most the unread counter of a session. *)
Lemma sidebarSelect_spec (t : string) (w : World) :
  App.currentChatId (app (sidebarSelect t w)) = t
  /\ App.highlightedMessageId (app (sidebarSelect t w)) = None
  /\ replies (sidebarSelect t w) = replies w
  /\ map thread (ChatPanel.chatSessions (chat (sidebarSelect t w)))
     = map thread (ChatPanel.chatSessions (chat w)).
Proof.
  unfold sidebarSelect, ChatSidebar.handleChatSelect.
  repeat break_match; simpl; repeat split; try reflexivity.
  rewrite map_map. apply map_ext. intros c. apply thread_clearUnread.
Qed.

Lemma last_cons {A} (l : list A) (a d : A) : last (a :: l) d = last l a.
Proof.
  revert a d. induction l as [| b l IH]; intros a d; [reflexivity |].
  change (last (a :: b :: l) d) with (last (b :: l) d).
  now rewrite (IH b d), (IH b a).
Qed.

Lemma switchChats_spec (switches : list string) (w : World) :
  App.currentChatId (app (switchChats switches w))
  = last switches (App.currentChatId (app w))
  /\ replies (switchChats switches w) = replies w
  /\ map thread (ChatPanel.chatSessions (chat (switchChats switches w)))
     = map thread (ChatPanel.chatSessions (chat w)).
Proof.
  revert w. induction switches as [| t rest IH]; intros w.
  - repeat split.
  - change (switchChats (t :: rest) w)
      with (switchChats rest (sidebarSelect t w)).
    destruct (IH (sidebarSelect t w)) as (Hcur & Hrep & Hthr).
    destruct (sidebarSelect_spec t w) as (Ht & _ & Hrep' & Hthr').
    rewrite Hcur, Hrep, Hthr, Ht, Hrep', Hthr', last_cons.
    repeat split.
Qed.

Lemma nth_error_snoc {A} (l : list A) (a : A) :
  nth_error (l ++ [a]) (List.length l) = Some a.
Proof. induction l; simpl; auto. Qed.

(** C7. A user message is sent while chat S is active; the active chat
    is then switched, any number of times; the reply timer of the
    message fires. The reply is appended, after the user message, to the
    sessions whose identifier is S, and the messages of every other
    session are what they were. *)
Theorem reply_reaches_the_chat_it_was_sent_from
    (w : World) (now now' : Z) (rnd : Q) (switches : list string) :
  JS.trim (ChatPanel.inputValue (chat w)) <> "" ->
  let S := App.currentChatId (app w) in
  let sent := JS.trim (ChatPanel.inputValue (chat w)) in
  let userMessage := Message.mk (JS.toString now) user sent now in
  let aiMessage :=
    Message.mk (JS.toString (now' + 1)) ai
      (ChatPanel.simulateAIResponse rnd sent) now' in
  let w1 := sendMessage now w in
  let w2 := switchChats switches w1 in
  let w3 := replyArrives (List.length (replies w)) now' rnd w2 in
  App.currentChatId (app w2) = last switches S
  /\ App.currentChatId (app w3) = last switches S
  /\ replies w3 = replies w
  /\ map thread (ChatPanel.chatSessions (chat w3))
     = map (fun c =>
              (ChatSession.id c,
               if String.eqb (ChatSession.id c) S
               then (ChatSession.messages c ++ [userMessage; aiMessage])%list
               else ChatSession.messages c))
           (ChatPanel.chatSessions (chat w)).
Proof.
  intros Hinput S sent userMessage aiMessage w1 w2 w3.
  assert (Htruthy : JS.truthy sent = true).
  { subst sent. destruct (JS.trim _); [congruence | reflexivity]. }
  assert (Hw1 : w1 = w |> onChat (fun _ =>
                     chat w |> ChatPanel.setChatSessions
                                 (map (ChatPanel.appendTo S userMessage now))
                            |> ChatPanel.setInputValue ""
                            |> ChatPanel.setIsTyping true)
                       |> setReplies (fun prev =>
                            (prev ++ [ChatPanel.mkReply S sent])%list)).
  { subst w1. unfold sendMessage, ChatPanel.handleSendMessage.
    fold sent. rewrite Htruthy. reflexivity. }
  destruct (switchChats_spec switches w1) as (Hcur & Hrep & Hthr).
  fold w2 in Hcur, Hrep, Hthr.
  assert (Hfire : w3 = w2 |> onChat (ChatPanel.fireReply
                                       (ChatPanel.mkReply S sent) now' rnd)
                          |> setReplies (removeAt (List.length (replies w)))).
  { subst w3. unfold replyArrives. rewrite Hrep, Hw1. simpl.
    now rewrite nth_error_snoc. }
  assert (Hremove : forall A (l : list A) a,
             removeAt (List.length l) (l ++ [a])%list = l).
  { intros A l a. induction l; simpl; congruence. }
  split; [| split; [| split]].
  - rewrite Hcur, Hw1. reflexivity.
  - rewrite Hfire. simpl. rewrite Hcur, Hw1. reflexivity.
  - rewrite Hfire. simpl. rewrite Hrep, Hw1. simpl. apply Hremove.
  - rewrite Hfire. simpl. rewrite map_map.
    rewrite (map_ext _ _ (thread_appendTo S aiMessage now')).
    rewrite <- (map_map thread
                  (fun t => (fst t, if String.eqb (fst t) S
                                    then (snd t ++ [aiMessage])%list
                                    else snd t))).
    rewrite Hthr, Hw1. simpl. rewrite !map_map.
    apply map_ext. intros c. rewrite thread_appendTo. simpl.
    destruct (String.eqb (ChatSession.id c) S); [| reflexivity].
    now rewrite <- app_assoc.
Qed.

(** What [handleChatSelect] of App does to the state. *)
Lemma handleChatSelect_spec (chatId : string) (s : App.State) :
  App.currentChatId (App.handleChatSelect chatId s) = chatId
  /\ App.highlightedMessageId (App.handleChatSelect chatId s) = None
  /\ App.canvasProps (App.handleChatSelect chatId s) = App.canvasProps s.
Proof. repeat split. Qed.

(** What [handleNewChat] of App does to the pending transfer. *)
Lemma handleNewChat_clears (now : Z) (s : App.State) :
  App.highlightedMessageId (App.handleNewChat now s) = None
  /\ App.canvasProps (App.handleNewChat now s)
     = CanvasPanel.mkProps None None None.
Proof. repeat split. Qed.

(** [handleChatSelect] on its own, entered with a transfer that the
    canvas panel has not consumed yet: it clears the highlight and does
    not write the transfer. *)
Example chat_select_does_not_write_the_transfer :
  App.highlightedMessageId
    (App.handleChatSelect "personal-notes" pendingTransfer) = None
  /\ App.canvasProps (App.handleChatSelect "personal-notes" pendingTransfer)
     = CanvasPanel.mkProps (Some "launch") (Some "1")
                           (Some "project-discussion").
Proof. repeat split. Qed.

(** C9. With exactly one canvas, a request to delete a canvas returns
    without an error and leaves the state of the panel, and so the list
    of canvases, as it was; with exactly one chat session, a request to
    delete a chat leaves the whole workspace, and so the list of
    sessions, as it was. *)
Theorem sole_canvas_and_sole_chat_are_kept
    (s : CanvasPanel.State) (w : World) (canvasId chatId : string) :
  (List.length (CanvasPanel.canvases s) = 1%nat ->
   CanvasPanel.handleCanvasDelete canvasId s = CanvasPanel.Returned s
   /\ CanvasEvents.step (CanvasEvents.ECanvasDelete canvasId) s = s)
  /\ (List.length (ChatPanel.chatSessions (chat w)) = 1%nat ->
      sidebarDelete chatId w = w).
Proof.
  split; intros Hone.
  - unfold CanvasEvents.step, CanvasPanel.handleCanvasDelete.
    rewrite Hone. split; reflexivity.
  - unfold sidebarDelete, ChatSidebar.handleDeleteChat.
    rewrite Hone. reflexivity.
Qed.

End Chats.

(** ** The transfer in the mounted application *)

Section Mounted.
Import Workspace.
Variable toLowerCase : string -> string.









End Mounted.

(** ** The theorems at sample inputs *)

Section Samples.
Import CanvasPanel CanvasEvents Workspace.

Lemma reachable_run (evs : list Event) (s : State) :
  reachable s -> reachable (run evs s).
Proof.
  revert s. induction evs as [| ev evs IH]; intros s Hs; simpl.
  - exact Hs.
  - apply IH. now apply reachable_step.
Qed.

Lemma twoBlocks_reachable : reachable twoBlocks.
Proof. apply reachable_run, reachable_initial. Qed.



Lemma drop_witness :
  App.draggedText pendingTransfer = Some "launch"
  /\ List.length
       (nodes (canvas (consumeDrag (Some viewport) 1
                         (onApp (fun _ => pendingTransfer) (Workspace.initial 0)))))
     = 1%nat.
Proof.
  split; [reflexivity |].
  destruct (drop_appends_one_sized_block
              (onApp (fun _ => pendingTransfer) (Workspace.initial 0))
              "launch" viewport 1 eq_refl)
    as ((n & Hnodes & _) & _).
  - discriminate.
  - rewrite Hnodes. reflexivity.
Defined.

Lemma pannedAndZoomed_reachable : reachable pannedAndZoomed.
Proof. apply reachable_run, reachable_initial. Qed.

Lemma round_trip_witness :
  Point_eq
    (canvasToScreen (pan pannedAndZoomed) (zoom pannedAndZoomed)
       (screenToCanvas (pan pannedAndZoomed) (zoom pannedAndZoomed)
          (mkPoint 123 45)))
    (mkPoint 123 45).
Proof.
  exact (screen_canvas_round_trip pannedAndZoomed (mkPoint 123 45)
           pannedAndZoomed_reachable).
Defined.

Lemma zoom_range_witness :
  zoom pannedAndZoomed == 1.32 /\ zoomInRange (zoom pannedAndZoomed).
Proof.
  split; [reflexivity |].
  exact (zoom_stays_in_range pannedAndZoomed pannedAndZoomed_reachable).
Defined.

Lemma wheel_notch_witness :
  zoom (handleWheel true (-1) (CanvasPanel.initial 0)) == 1.1
  /\ zoom (handleWheel true 1 (CanvasPanel.initial 0)) == 0.9.
Proof.
  destruct (wheel_notch_scales_zoom (CanvasPanel.initial 0) (-1)) as [Hin _].
  destruct (wheel_notch_scales_zoom (CanvasPanel.initial 0) 1) as [_ Hout].
  split.
  - rewrite Hin; [reflexivity | discriminate].
  - rewrite Hout; reflexivity.
Defined.








Lemma reply_witness :
  JS.trim (ChatPanel.inputValue (chat typed)) <> ""
  /\ map (fun c => List.length (ChatSession.messages c))
       (ChatPanel.chatSessions
          (chat (replyArrives 0 2001 0.5
                   (switchChats ["personal-notes"] (sendMessage 1 typed)))))
     = [7%nat; 2%nat; 2%nat].
Proof.
  assert (Hinput : JS.trim (ChatPanel.inputValue (chat typed)) <> "")
    by discriminate.
  split; [exact Hinput |].
  destruct (reply_reaches_the_chat_it_was_sent_from typed 1 2001 0.5
              ["personal-notes"] Hinput) as (_ & _ & _ & Hthreads).
  apply (f_equal (map (fun t => List.length (snd t)))) in Hthreads.
  rewrite !map_map in Hthreads. simpl in Hthreads. exact Hthreads.
Defined.

Lemma sole_survivor_witness :
  List.length (canvases (CanvasPanel.initial 0)) = 1%nat
  /\ List.length (ChatPanel.chatSessions (chat oneChat)) = 1%nat
  /\ handleCanvasDelete "default-canvas" (CanvasPanel.initial 0)
     = Returned (CanvasPanel.initial 0)
  /\ sidebarDelete "project-discussion" oneChat = oneChat.
Proof.
  destruct (sole_canvas_and_sole_chat_are_kept (CanvasPanel.initial 0)
              oneChat "default-canvas" "project-discussion")
    as [Hcanvas Hchat].
  split; [reflexivity | split; [reflexivity | split]].
  - apply Hcanvas. reflexivity.
  - apply Hchat. reflexivity.
Defined.

Lemma linkedBlocks_reachable : reachable linkedBlocks.
Proof. apply reachable_run, twoBlocks_reachable. Qed.

Lemma no_loop_witness :
  List.length (connections linkedBlocks) = 1%nat
  /\ forall c, In c (connections linkedBlocks) -> ~ selfLoop c.
Proof.
  split; [reflexivity |].
  exact (proj1 (no_connection_to_itself linkedBlocks linkedBlocks_reachable)).
Defined.

End Samples.

(** ** Connections and the blocks they join *)

Section Coherence.
Import CanvasPanel CanvasEvents.

Lemma hasId_spec (i : string) (n : TextNode.t) :
  hasId i n = true <-> TextNode.id n = i.
Proof. unfold hasId. apply String.eqb_eq. Qed.

Lemma find_hasId_snoc (i : string) (ns : list TextNode.t) (x a : TextNode.t) :
  find (hasId i) ns = Some a -> find (hasId i) (ns ++ [x]) = Some a.
Proof.
  induction ns as [| n ns IH]; simpl; [discriminate |].
  destruct (hasId i n); auto.
Qed.

Lemma find_hasId_map (g : TextNode.t -> TextNode.t) (i : string)
    (ns : list TextNode.t) :
  (forall n, TextNode.id (g n) = TextNode.id n) ->
  find (hasId i) (map g ns) = option_map g (find (hasId i) ns).
Proof.
  intros Hid. induction ns as [| n ns IH]; simpl; [reflexivity |].
  unfold hasId at 1. rewrite Hid. fold (hasId i n).
  destruct (hasId i n); auto.
Qed.

Lemma find_hasId_filter (k : TextNode.t -> bool) (i : string)
    (ns : list TextNode.t) :
  (forall n, TextNode.id n = i -> k n = true) ->
  find (hasId i) (filter k ns) = find (hasId i) ns.
Proof.
  intros Hk. induction ns as [| n ns IH]; simpl; [reflexivity |].
  destruct (hasId i n) eqn:Hn.
  - rewrite (Hk n (proj1 (hasId_spec i n) Hn)). simpl. now rewrite Hn.
  - destruct (k n); simpl; [rewrite Hn |]; exact IH.
Qed.

Lemma found_has_id (i : string) (ns : list TextNode.t) (a : TextNode.t) :
  find (hasId i) ns = Some a -> In a ns /\ TextNode.id a = i.
Proof.
  intros H. apply find_some in H. destruct H as [Hin Hid].
  split; [exact Hin | now apply hasId_spec].
Qed.

Lemma attached_snoc (ns : list TextNode.t) (x : TextNode.t) (c : Connection.t) :
  attached ns c -> attached (ns ++ [x]) c.
Proof.
  intros (Hloop & [a Ha] & [b [Hb Hto]]). split; [exact Hloop | split].
  - exists a. now apply find_hasId_snoc.
  - exists b. split; [now apply find_hasId_snoc | exact Hto].
Qed.

Lemma attached_withFromPoint (ns : list TextNode.t) (p : Point)
    (c : Connection.t) :
  attached ns c -> attached ns (withFromPoint p c).
Proof. intros H. exact H. Qed.

(** Blocks with identifier [i] are changed by [g], which keeps
    identifiers, and the connections are changed by [h], which gives a
    connection that points to [i] the center of the changed block. *)
Lemma coherent_remap (i : string) (g : TextNode.t -> TextNode.t)
    (h : Connection.t -> Connection.t)
    (ns : list TextNode.t) (cs : list Connection.t) :
  (forall n, TextNode.id (g n) = TextNode.id n) ->
  (forall n, TextNode.id n <> i -> g n = n) ->
  (forall c, attached ns c ->
     (Connection.to c <> i
      /\ (h c = c \/ exists p, h c = withFromPoint p c))
     \/ (Connection.to c = i
         /\ exists b, find (hasId i) ns = Some b
                      /\ h c = withToPoint (center (g b)) c)) ->
  coherent ns cs -> coherent (map g ns) (map h cs).
Proof.
  intros Hid Hother Hh Hcs. unfold coherent in *.
  rewrite Forall_forall in Hcs. apply Forall_forall.
  intros c' Hc'. apply in_map_iff in Hc'. destruct Hc' as (c & <- & Hc).
  pose proof (Hcs c Hc) as Hatt.
  destruct Hatt as (Hloop & [a Ha] & [b [Hb Hto]]).
  assert (Hfrom' : exists a', find (hasId (Connection.from c)) (map g ns)
                              = Some a').
  { exists (g a). now rewrite (find_hasId_map g _ ns Hid), Ha. }
  destruct (Hh c (Hcs c Hc)) as [[Hne Hkeep] | [Heq (b0 & Hb0 & Hnew)]].
  - assert (Hatt' : attached (map g ns) c).
    { split; [exact Hloop | split; [exact Hfrom' |]].
      exists b. split; [| exact Hto].
      rewrite (find_hasId_map g _ ns Hid), Hb. simpl. f_equal.
      apply Hother. destruct (found_has_id _ _ _ Hb) as [_ Hidb]. congruence. }
    destruct Hkeep as [-> | [p ->]]; [exact Hatt' |].
    now apply attached_withFromPoint.
  - rewrite Hnew. rewrite Heq in Hb. rewrite Hb in Hb0. inversion Hb0; subst b0.
    split; [exact Hloop | split; [exact Hfrom' |]].
    exists (g b). split; [| reflexivity].
    simpl. rewrite Heq. now rewrite (find_hasId_map g _ ns Hid), Hb.
Qed.

Lemma coherent_resize (i : string) (width height : Q)
    (ns : list TextNode.t) (cs : list Connection.t) :
  coherent ns cs ->
  coherent
    (map (fun node => if hasId i node then withSize width height node else node)
         ns)
    (map (fun conn =>
            match (if String.eqb (Connection.from conn) i
                   then match find (hasId i) ns with
                        | Some node =>
                            Some (mkPoint (TextNode.x node + width / 2)
                                          (TextNode.y node + height / 2))
                        | None => None
                        end
                   else None) with
            | Some p => withFromPoint p conn
            | None =>
                match (if String.eqb (Connection.to conn) i
                       then match find (hasId i) ns with
                            | Some node =>
                                Some (mkPoint (TextNode.x node + width / 2)
                                              (TextNode.y node + height / 2))
                            | None => None
                            end
                       else None) with
                | Some p => withToPoint p conn
                | None => conn
                end
            end) cs).
Proof.
  apply (coherent_remap i).
  - intros n. destruct (hasId i n); reflexivity.
  - intros n Hn. destruct (hasId i n) eqn:Hh; [| reflexivity].
    apply hasId_spec in Hh. contradiction.
  - intros c (Hloop & _ & [b [Hb _]]).
    destruct (String.eqb (Connection.to c) i) eqn:Hto.
    + right. apply String.eqb_eq in Hto. split; [exact Hto |].
      rewrite Hto in Hb. exists b. split; [exact Hb |].
      assert (Hfrom : String.eqb (Connection.from c) i = false).
      { apply String.eqb_neq. unfold selfLoop in Hloop. congruence. }
      rewrite Hfrom, Hb.
      destruct (found_has_id _ _ _ Hb) as [_ Hidb].
      apply hasId_spec in Hidb. rewrite Hidb. reflexivity.
    + left. apply String.eqb_neq in Hto. split; [exact Hto |].
      destruct (String.eqb (Connection.from c) i);
        destruct (find (hasId i) ns); eauto.
Qed.

Lemma coherent_move (d : string) (newPosition : Point)
    (ns : list TextNode.t) (cs : list Connection.t) (node : TextNode.t) :
  find (hasId d) ns = Some node ->
  coherent ns cs ->
  coherent
    (map (fun n => if hasId d n then withPosition newPosition n else n) ns)
    (map (fun conn =>
            if String.eqb (Connection.from conn) d
            then withFromPoint
                   (mkPoint (px newPosition + TextNode.width node / 2)
                            (py newPosition + TextNode.height node / 2)) conn
            else if String.eqb (Connection.to conn) d
            then withToPoint
                   (mkPoint (px newPosition + TextNode.width node / 2)
                            (py newPosition + TextNode.height node / 2)) conn
            else conn) cs).
Proof.
  intros Hnode. apply (coherent_remap d).
  - intros n. destruct (hasId d n); reflexivity.
  - intros n Hn. destruct (hasId d n) eqn:Hh; [| reflexivity].
    apply hasId_spec in Hh. contradiction.
  - intros c (Hloop & _ & _).
    destruct (String.eqb (Connection.to c) d) eqn:Hto.
    + right. apply String.eqb_eq in Hto. split; [exact Hto |].
      exists node. split; [exact Hnode |].
      assert (Hfrom : String.eqb (Connection.from c) d = false).
      { apply String.eqb_neq. unfold selfLoop in Hloop. congruence. }
      rewrite Hfrom.
      destruct (found_has_id _ _ _ Hnode) as [_ Hidn].
      apply hasId_spec in Hidn. rewrite Hidn. reflexivity.
    + left. apply String.eqb_neq in Hto. split; [exact Hto |].
      destruct (String.eqb (Connection.from c) d); eauto.
Qed.

(** Moving the blocks of an identifier no block carries changes
    nothing that a connection depends on. *)
Lemma coherent_move_nothing (d : string) (newPosition : Point)
    (ns : list TextNode.t) (cs : list Connection.t) :
  find (hasId d) ns = None ->
  coherent ns cs ->
  coherent
    (map (fun n => if hasId d n then withPosition newPosition n else n) ns) cs.
Proof.
  intros Hnone Hcs. rewrite <- (map_id cs). apply (coherent_remap d).
  - intros n. destruct (hasId d n); reflexivity.
  - intros n Hn. destruct (hasId d n) eqn:Hh; [| reflexivity].
    apply hasId_spec in Hh. contradiction.
  - intros c (_ & _ & [b [Hb _]]). left. split; [| now left].
    intros Hto. rewrite Hto in Hb. congruence.
  - exact Hcs.
Qed.

Lemma coherent_delete (i : string) (ns : list TextNode.t)
    (cs : list Connection.t) :
  coherent ns cs ->
  coherent
    (filter (fun n => negb (String.eqb (TextNode.id n) i)) ns)
    (filter (fun c => negb (String.eqb (Connection.from c) i)
                      && negb (String.eqb (Connection.to c) i)) cs).
Proof.
  unfold coherent. rewrite !Forall_forall. intros Hcs c Hc.
  apply filter_In in Hc. destruct Hc as [Hc Hkeep].
  apply andb_true_iff in Hkeep. destruct Hkeep as [Hfrom Hto].
  apply negb_true_iff, String.eqb_neq in Hfrom, Hto.
  destruct (Hcs c Hc) as (Hloop & [a Ha] & [b [Hb Hpoint]]).
  split; [exact Hloop | split].
  - exists a. rewrite find_hasId_filter; [exact Ha |].
    intros n Hn. apply negb_true_iff, String.eqb_neq. congruence.
  - exists b. split; [| exact Hpoint].
    rewrite find_hasId_filter; [exact Hb |].
    intros n Hn. apply negb_true_iff, String.eqb_neq. congruence.
Qed.

Lemma coherent_initial (t0 : Z) : coherentState (initial t0).
Proof. split; simpl; repeat constructor. Qed.

Lemma coherent_frame (s s' : State) :
  nodes s' = nodes s -> connections s' = connections s ->
  canvases s' = canvases s -> coherentState s -> coherentState s'.
Proof. unfold coherentState. intros -> -> ->. tauto. Qed.

Lemma coherent_select (cs : list CanvasData.t) (canvasId : string) (s : State) :
  Forall (fun cv => coherent (CanvasData.nodes cv) (CanvasData.connections cv))
         cs ->
  coherentState s -> coherentState (handleCanvasSelectIn cs canvasId s).
Proof.
  intros Hcs [Hw Hst]. unfold handleCanvasSelectIn.
  destruct (find _ cs) as [cv |] eqn:Hfind; [| split; assumption].
  apply find_some in Hfind. rewrite Forall_forall in Hcs.
  split; simpl; [apply Hcs, Hfind | exact Hst].
Qed.

Lemma coherent_step (ev : Event) (s : State) :
  coherentState s -> coherentState (step ev s).
Proof.
  intros H. pose proof H as [Hw Hst]. destruct ev; simpl.
  - (* drop *)
    unfold dropEffect. repeat break_match; simpl; try exact H.
    split; simpl; [| exact Hst].
    unfold coherent in *. rewrite Forall_forall in *.
    intros c Hc. now apply attached_snoc, Hw.
  - revert H. apply coherent_frame; unfold handleWheel; repeat break_match;
      reflexivity.
  - revert H. apply coherent_frame; reflexivity.
  - revert H. apply coherent_frame; reflexivity.
  - (* mouse down on a block *)
    unfold handleBlockMouseDown.
    assert (Hdrag : coherentState (startDragging e rect nodeId s)).
    { revert H. apply coherent_frame; unfold startDragging;
        repeat break_match; reflexivity. }
    destruct (connectingFrom s) as [source |]; [| exact Hdrag].
    destruct (JS.truthy source && negb (String.eqb source nodeId)) eqn:Hguard;
      [| exact Hdrag].
    apply andb_true_iff in Hguard. destruct Hguard as [_ Hne].
    apply negb_true_iff, String.eqb_neq in Hne.
    unfold completeConnection.
    destruct (find (hasId source) (nodes s)) as [a |] eqn:Ha;
      [| split; simpl; assumption].
    destruct (find (hasId nodeId) (nodes s)) as [b |] eqn:Hb;
      [| split; simpl; assumption].
    destruct (connectionStart s) as [start |]; [| split; simpl; assumption].
    split; simpl; [| exact Hst].
    apply Forall_app. split; [exact Hw |]. constructor; [| constructor].
    split; [exact Hne | split; simpl; eauto].
  - revert H. apply coherent_frame; reflexivity.
  - (* resize *)
    unfold TextBlock.handleMouseMove. destruct (negb isResizing); [exact H |].
    unfold handleBlockResize. split; simpl; [| exact Hst].
    now apply coherent_resize.
  - (* mouse move *)
    unfold handleMouseMove.
    assert (Hpan : forall s1 p, coherentState s1 -> coherentState (setPan p s1)).
    { intros s1 p. apply coherent_frame; reflexivity. }
    assert (Hmoved :
      coherentState
        match draggingNode s, rect with
        | Some dragging, Some r =>
            if JS.truthy dragging then
              let c := pointer e r s in
              let newPosition :=
                mkPoint (px c - px (dragOffset s)) (py c - py (dragOffset s)) in
              let s' :=
                s |> setNodes (map (fun node =>
                       if hasId dragging node
                       then withPosition newPosition node else node)) in
              match find (hasId dragging) (nodes s) with
              | Some node =>
                  let p :=
                    mkPoint (px newPosition + TextNode.width node / 2)
                            (py newPosition + TextNode.height node / 2) in
                  s' |> setConnections (map (fun conn =>
                          if String.eqb (Connection.from conn) dragging
                          then withFromPoint p conn
                          else if String.eqb (Connection.to conn) dragging
                          then withToPoint p conn
                          else conn))
              | None => s'
              end
            else s
        | _, _ => s
        end).
    { destruct (draggingNode s) as [dragging |]; [| exact H].
      destruct rect as [r |]; [| exact H].
      destruct (JS.truthy dragging); [| exact H].
      cbv zeta.
      destruct (find (hasId dragging) (nodes s)) as [node |] eqn:Hnode.
      - split; simpl; [| exact Hst]. now apply coherent_move.
      - split; simpl; [| exact Hst]. now apply coherent_move_nothing. }
    destruct (isPanning s); [| exact Hmoved].
    destruct rect; [now apply Hpan | exact Hmoved].
  - revert H. apply coherent_frame; reflexivity.
  - revert H. apply coherent_frame; unfold handleCanvasMouseDown;
      repeat break_match; reflexivity.
  - (* delete a block *)
    split; simpl; [| exact Hst]. now apply coherent_delete.
  - (* delete a connection *)
    split; simpl; [| exact Hst].
    unfold coherent in *. rewrite Forall_forall in *.
    intros c Hc. apply filter_In in Hc. now apply Hw.
  - now apply coherent_select.
  - (* new canvas *)
    unfold handleNewCanvas. apply coherent_select; [exact Hst |].
    split; simpl; [exact Hw |].
    apply Forall_app. split; [exact Hst |]. repeat constructor.
  - (* delete a canvas *)
    unfold handleCanvasDelete.
    assert (Hkept : forall f, coherentState (s |> setCanvases (filter f))).
    { intros f. split; simpl; [exact Hw |].
      rewrite Forall_forall in *. intros cv Hcv.
      apply filter_In in Hcv. now apply Hst. }
    repeat break_match; simpl; try apply coherent_select; auto.
  - (* write-back *)
    split; simpl; [exact Hw |].
    rewrite Forall_forall in *. intros cv Hcv.
    apply in_map_iff in Hcv. destruct Hcv as (cv0 & <- & Hcv0).
    break_match; [exact Hw | now apply Hst].
Qed.

Lemma coherent_reachable (s : State) : reachable s -> coherentState s.
Proof.
  induction 1 as [t0 | ev s Hs IH].
  - apply coherent_initial.
  - now apply coherent_step.
Qed.

End Coherence.

(** ** Invariants of the canvas panel *)

Section CanvasInvariants.
Import CanvasPanel CanvasEvents.

(** X1. In every state the panel can reach, each block, in the working
    copy and in every stored canvas, has a non-empty identifier, a width
    between 200 and 600 and a height between 100 and 500. *)
Theorem blocks_keep_identifier_and_size (s : State) :
  reachable s ->
  (forall n, In n (nodes s) -> identified n /\ wellSized n)
  /\ (forall cv n, In cv (canvases s) -> In n (CanvasData.nodes cv) ->
                   identified n /\ wellSized n).
Proof.
  intros Hs. destruct (reachable_sound_nodes s Hs) as (Hn & _ & Hcv).
  rewrite Forall_forall in Hn, Hcv. split; [exact Hn |].
  intros cv n Hin. destruct (Hcv cv Hin) as [Hcn _].
  rewrite Forall_forall in Hcn. apply Hcn.
Qed.

Lemma found_in_ids (i : string) (ns : list TextNode.t) (a : TextNode.t) :
  find (hasId i) ns = Some a -> In i (nodeIds ns).
Proof.
  intros H. destruct (found_has_id _ _ _ H) as [Hin <-].
  now apply in_map.
Qed.

Lemma attached_not_dangling (ns : list TextNode.t) (c : Connection.t) :
  attached ns c ->
  In (Connection.from c) (nodeIds ns) /\ In (Connection.to c) (nodeIds ns).
Proof.
  intros (_ & [a Ha] & [b [Hb _]]). split; eapply found_in_ids; eassumption.
Qed.

(** X2. In every state the panel can reach, both ends of each connection
    are identifiers of blocks of the same canvas: of the working copy for
    a working connection, of the stored canvas for a stored one. *)
Theorem connections_never_dangle (s : State) :
  reachable s ->
  (forall c, In c (connections s) ->
     In (Connection.from c) (nodeIds (nodes s))
     /\ In (Connection.to c) (nodeIds (nodes s)))
  /\ (forall cv c, In cv (canvases s) -> In c (CanvasData.connections cv) ->
        In (Connection.from c) (nodeIds (CanvasData.nodes cv))
        /\ In (Connection.to c) (nodeIds (CanvasData.nodes cv))).
Proof.
  intros Hs. destruct (coherent_reachable s Hs) as [Hw Hst].
  unfold coherent in *. rewrite Forall_forall in Hw, Hst. split.
  - intros c Hc. now apply attached_not_dangling, Hw.
  - intros cv c Hcv Hc. pose proof (Hst cv Hcv) as Hcs.
    rewrite Forall_forall in Hcs. now apply attached_not_dangling, Hcs.
Qed.

(** X3. In every state the panel can reach, the cached [toPoint] of each
    working connection is the center of the block the connection points
    to, the first block with that identifier; with pairwise distinct
    identifiers, of every block with that identifier. *)
Theorem connection_points_at_center_of_target (s : State) (c : Connection.t) :
  reachable s -> In c (connections s) ->
  (exists b, find (hasId (Connection.to c)) (nodes s) = Some b
             /\ Connection.toPoint c = center b)
  /\ (NoDup (nodeIds (nodes s)) ->
      forall b, In b (nodes s) -> TextNode.id b = Connection.to c ->
                Connection.toPoint c = center b).
Proof.
  intros Hs Hc. destruct (coherent_reachable s Hs) as [Hw _].
  unfold coherent in Hw. rewrite Forall_forall in Hw.
  destruct (Hw c Hc) as (_ & _ & [b [Hb Hto]]).
  split; [now exists b |].
  intros Hnd b' Hin Hid. rewrite <- Hid in Hb.
  rewrite (find_by_unique_id _ b' Hnd Hin) in Hb. congruence.
Qed.

End CanvasInvariants.

(** ** Pointer gestures *)

Section Gestures.
Import CanvasPanel CanvasEvents.

(** X4. A block is pressed while no connection is armed and the pointer
    then moves: the block is at its old position plus the displacement of
    the pointer divided by the zoom factor, with its size and text; it is
    selected, and the blocks with other identifiers are where they were. *)
Theorem drag_moves_block_with_pointer
    (s : State) (i : string) (n : TextNode.t) (e e' : MouseEvent)
    (r : DOMRect) (now : Z) :
  connectingFrom s = None ->
  find (hasId i) (nodes s) = Some n ->
  JS.truthy i = true ->
  let s1 := handleBlockMouseDown e (Some r) now i s in
  let s2 := handleMouseMove e' (Some r) s1 in
  (exists n',
      find (hasId i) (nodes s2) = Some n'
      /\ TextNode.x n' == TextNode.x n + (clientX e' - clientX e) / zoom s
      /\ TextNode.y n' == TextNode.y n + (clientY e' - clientY e) / zoom s
      /\ TextNode.width n' = TextNode.width n
      /\ TextNode.height n' = TextNode.height n
      /\ TextNode.text n' = TextNode.text n)
  /\ selectedNode s2 = Some i
  /\ (forall m, In m (nodes s) -> TextNode.id m <> i -> In m (nodes s2)).
Proof.
  intros Hidle Hfind Htruthy s1 s2.
  assert (Hs1 : s1 = s |> setDraggingNode (Some i) |> setSelectedNode (Some i)
                       |> setDragOffset
                            (mkPoint (px (pointer e r s) - TextNode.x n)
                                     (py (pointer e r s) - TextNode.y n))).
  { subst s1. unfold handleBlockMouseDown, startDragging.
    now rewrite Hidle, Hfind. }
  assert (Hnodes : nodes s2
            = map (fun node =>
                     if hasId i node
                     then withPosition
                            (mkPoint
                               (px (pointer e' r s)
                                - (px (pointer e r s) - TextNode.x n))
                               (py (pointer e' r s)
                                - (py (pointer e r s) - TextNode.y n))) node
                     else node) (nodes s)).
  { subst s2. rewrite Hs1. unfold handleMouseMove. simpl.
    rewrite Htruthy, Hfind. destruct (isPanning s); reflexivity. }
  split; [| split].
  - assert (Hh : hasId i n = true) by (apply find_some in Hfind; tauto).
    exists (withPosition
              (mkPoint
                 (px (pointer e' r s) - (px (pointer e r s) - TextNode.x n))
                 (py (pointer e' r s) - (py (pointer e r s) - TextNode.y n)))
              n).
    split.
    + rewrite Hnodes, find_hasId_map, Hfind; [simpl; now rewrite Hh |].
      intros m. destruct (hasId i m); reflexivity.
    + unfold pointer, screenToCanvas. simpl.
      split; [unfold Qdiv; ring | split; [unfold Qdiv; ring |]].
      repeat split.
  - subst s2. rewrite Hs1. unfold handleMouseMove. simpl.
    rewrite Htruthy, Hfind. destruct (isPanning s); reflexivity.
  - intros m Hm Hid. rewrite Hnodes. apply in_map_iff. exists m.
    split; [| exact Hm].
    destruct (hasId i m) eqn:Hh; [| reflexivity].
    apply hasId_spec in Hh. contradiction.
Qed.

(** X5. The empty canvas is pressed and the pointer then moves: the pan
    offset is the old one plus the displacement of the pointer, the zoom
    factor is kept, no block is selected and no connection is armed; and
    once the button is released, a move of the pointer changes nothing. *)
Theorem pan_follows_pointer
    (s : State) (e e' e'' : MouseEvent) (r : DOMRect) (rect : option DOMRect) :
  let s1 := handleCanvasMouseDown e true s in
  let s2 := handleMouseMove e' (Some r) s1 in
  Point_eq (pan s2)
    (mkPoint (px (pan s) + (clientX e' - clientX e))
             (py (pan s) + (clientY e' - clientY e)))
  /\ zoom s2 = zoom s
  /\ selectedNode s2 = None
  /\ connectingFrom s2 = None
  /\ connectionStart s2 = None
  /\ handleMouseMove e'' rect (handleMouseUp s2) = handleMouseUp s2.
Proof.
  intros s1 s2.
  assert (Hpan : pan s2 = mkPoint (clientX e' - (clientX e - px (pan s)))
                                  (clientY e' - (clientY e - py (pan s)))).
  { subst s2 s1. unfold handleMouseMove, handleCanvasMouseDown. simpl.
    repeat break_match; reflexivity. }
  split; [| split; [| split; [| split; [| split]]]].
  - rewrite Hpan. split; simpl; ring.
  - subst s2 s1. unfold handleMouseMove, handleCanvasMouseDown. simpl.
    repeat break_match; reflexivity.
  - subst s2 s1. unfold handleMouseMove, handleCanvasMouseDown. simpl.
    repeat break_match; reflexivity.
  - subst s2 s1. unfold handleMouseMove, handleCanvasMouseDown. simpl.
    repeat break_match; reflexivity.
  - subst s2 s1. unfold handleMouseMove, handleCanvasMouseDown. simpl.
    repeat break_match; reflexivity.
  - unfold handleMouseMove at 1. simpl. reflexivity.
Qed.

End Gestures.

(** ** The canvas store *)

Section CanvasStore.
Import CanvasPanel CanvasEvents.

Lemma find_canvas_map (g : CanvasData.t -> CanvasData.t) (i : string)
    (cs : list CanvasData.t) :
  (forall cv, CanvasData.id (g cv) = CanvasData.id cv) ->
  find (fun c => String.eqb (CanvasData.id c) i) (map g cs)
  = option_map g (find (fun c => String.eqb (CanvasData.id c) i) cs).
Proof.
  intros Hid. induction cs as [| cv cs IH]; simpl; [reflexivity |].
  rewrite Hid. destruct (String.eqb (CanvasData.id cv) i); auto.
Qed.

Lemma find_canvas_present (i : string) (cs : list CanvasData.t) :
  In i (map CanvasData.id cs) ->
  exists cv, find (fun c => String.eqb (CanvasData.id c) i) cs = Some cv
             /\ CanvasData.id cv = i.
Proof.
  intros Hin. apply in_map_iff in Hin. destruct Hin as (cv & Hid & Hcv).
  destruct (find_exists (fun c => String.eqb (CanvasData.id c) i) cs cv Hcv)
    as [cv' Hfind].
  - now apply String.eqb_eq.
  - exists cv'. split; [exact Hfind |].
    apply find_some in Hfind. now apply String.eqb_eq.
Qed.

(** X7. Once the working copy has been written back, switching to any
    canvas and back to the current one restores the blocks and the
    connections of the working copy; the first switch does open the
    other canvas when there is a canvas with that identifier. *)
Theorem written_back_canvas_survives_switching
    (s : State) (now : Z) (other : string) :
  In (currentCanvasId s) (map CanvasData.id (canvases s)) ->
  let s' :=
    handleCanvasSelect (currentCanvasId s)
      (handleCanvasSelect other (updateCanvasData now s)) in
  nodes s' = nodes s
  /\ connections s' = connections s
  /\ currentCanvasId s' = currentCanvasId s
  /\ (In other (map CanvasData.id (canvases s)) ->
      currentCanvasId (handleCanvasSelect other (updateCanvasData now s))
      = other).
Proof.
  intros Hin s'.
  destruct (find_canvas_present _ _ Hin) as (cv & Hfind & Hid).
  set (write := fun canvas =>
         if String.eqb (CanvasData.id canvas) (currentCanvasId s)
         then CanvasData.mk (CanvasData.id canvas) (CanvasData.title canvas)
                (nodes s) (connections s) (CanvasData.createdAt canvas) now
         else canvas).
  assert (Hwrite : forall c, CanvasData.id (write c) = CanvasData.id c).
  { intros c. unfold write. destruct (String.eqb _ _); reflexivity. }
  assert (Hcanvases :
            canvases (handleCanvasSelect other (updateCanvasData now s))
            = map write (canvases s)).
  { unfold handleCanvasSelect, handleCanvasSelectIn.
    destruct (find _ (canvases (updateCanvasData now s))); reflexivity. }
  assert (Hs' : s' = handleCanvasSelect other (updateCanvasData now s)
                       |> setCurrentCanvasId (currentCanvasId s)
                       |> setNodes (fun _ => nodes s)
                       |> setConnections (fun _ => connections s)
                       |> setSelectedNode None
                       |> setConnectingFrom None
                       |> setConnectionStart None).
  { subst s'. unfold handleCanvasSelect at 1. unfold handleCanvasSelectIn at 1.
    rewrite Hcanvases, (find_canvas_map write _ _ Hwrite), Hfind. simpl.
    unfold write. now rewrite Hid, String.eqb_refl. }
  rewrite Hs'. split; [| split; [| split]]; try reflexivity.
  intros Hother.
  destruct (find_canvas_present _ _ Hother) as (cv' & Hfind' & _).
  unfold handleCanvasSelect, handleCanvasSelectIn.
  change (canvases (updateCanvasData now s)) with (map write (canvases s)).
  rewrite (find_canvas_map write _ _ Hwrite), Hfind'. reflexivity.
Qed.

(** X8. A new canvas, under an identifier no canvas carries, is appended
    to the list of canvases, empty; the panel stays on the current canvas:
    the current identifier, the working copy and the rest of the state are
    what they were. *)
Theorem new_canvas_is_appended_not_opened (s : State) (now : Z) :
  ~ In ("canvas-" ++ JS.toString now) (map CanvasData.id (canvases s)) ->
  handleNewCanvas now s
  = s |> setCanvases (fun prev =>
         (prev ++ [CanvasData.mk ("canvas-" ++ JS.toString now)
                     ("Canvas "
                      ++ JS.toString (Z.of_nat (List.length (canvases s)) + 1))
                     [] [] now now])%list).
Proof.
  intros Hfresh. unfold handleNewCanvas, handleCanvasSelectIn.
  destruct (find _ (canvases s)) as [cv |] eqn:Hfind; [| reflexivity].
  exfalso. apply Hfresh. apply find_some in Hfind.
  destruct Hfind as [Hin Hid]. apply String.eqb_eq in Hid.
  apply in_map_iff. exists cv. split; [exact Hid | exact Hin].
Qed.

Lemma find_first_kept (canvasId : string) (cs rest : list CanvasData.t)
    (first : CanvasData.t) :
  filter (fun c => negb (String.eqb (CanvasData.id c) canvasId)) cs
  = first :: rest ->
  find (fun c => String.eqb (CanvasData.id c) (CanvasData.id first)) cs
  = Some first.
Proof.
  induction cs as [| cv cs IH]; simpl; [discriminate |].
  destruct (String.eqb (CanvasData.id cv) canvasId) eqn:Hcv; simpl.
  - intros Hrest.
    assert (Hfirst : In first (filter (fun c =>
                        negb (String.eqb (CanvasData.id c) canvasId)) cs)).
    { rewrite Hrest. now left. }
    apply filter_In in Hfirst. destruct Hfirst as [_ Hkeep].
    apply negb_true_iff, String.eqb_neq in Hkeep.
    apply String.eqb_eq in Hcv.
    assert (Hne : String.eqb (CanvasData.id cv) (CanvasData.id first) = false).
    { apply String.eqb_neq. congruence. }
    rewrite Hne. now apply IH.
  - intros Hrest. inversion Hrest; subst. now rewrite String.eqb_refl.
Qed.

(** X9. With two canvases or more, one of which does not carry the
    identifier to delete, the request returns without an error and the
    canvases with that identifier are gone; when the current canvas was
    among them, the first remaining canvas becomes the current one and its
    blocks and connections become the working copy; otherwise the working
    copy is untouched. *)
Theorem deleting_a_canvas_opens_the_first_remaining
    (s : State) (canvasId : string) (first : CanvasData.t)
    (rest : list CanvasData.t) :
  (2 <= List.length (canvases s))%nat ->
  filter (fun c => negb (String.eqb (CanvasData.id c) canvasId)) (canvases s)
  = first :: rest ->
  exists s',
    handleCanvasDelete canvasId s = Returned s'
    /\ canvases s' = first :: rest
    /\ (currentCanvasId s = canvasId ->
        currentCanvasId s' = CanvasData.id first
        /\ nodes s' = CanvasData.nodes first
        /\ connections s' = CanvasData.connections first
        /\ connectingFrom s' = None)
    /\ (currentCanvasId s <> canvasId ->
        currentCanvasId s' = currentCanvasId s
        /\ nodes s' = nodes s
        /\ connections s' = connections s).
Proof.
  intros Hmany Hkept. unfold handleCanvasDelete.
  destruct (Nat.leb (List.length (canvases s)) 1) eqn:Hone.
  { apply Nat.leb_le in Hone. lia. }
  destruct (String.eqb (currentCanvasId s) canvasId) eqn:Hcur.
  - rewrite Hkept. eexists. split; [reflexivity |].
    unfold handleCanvasSelectIn.
    rewrite (find_first_kept canvasId _ rest first Hkept). simpl.
    split; [exact Hkept | split].
    + intros _. repeat split.
    + intros Hne. apply String.eqb_eq in Hcur. contradiction.
  - eexists. split; [reflexivity |]. simpl.
    split; [exact Hkept | split].
    + intros Heq. apply String.eqb_neq in Hcur. contradiction.
    + intros _. repeat split.
Qed.

End CanvasStore.

(** ** The canvas menu *)

Section Menu.
Import CanvasPanel.

Lemma findIndex_nonneg_or_absent {A} (p : A -> bool) (l : list A) :
  (JSText.findIndex p l = -1)%Z \/ (0 <= JSText.findIndex p l)%Z.
Proof.
  induction l as [| a l IH]; simpl; [now left |].
  destruct (p a); [right; lia |].
  destruct (Z.ltb_spec (JSText.findIndex p l) 0); [now left | right; lia].
Qed.

Lemma findIndex_nth {A} (key : A -> string) (l : list A) (i : nat) (d : A) :
  NoDup (map key l) -> (i < List.length l)%nat ->
  JSText.findIndex (fun c => String.eqb (key c) (key (nth i l d))) l
  = Z.of_nat i.
Proof.
  revert i. induction l as [| a l IH]; intros i Hnd Hi; simpl in *; [lia |].
  inversion Hnd as [| ? ? Hnotin Hnd']; subst.
  destruct i as [| i].
  - now rewrite String.eqb_refl.
  - assert (Hne : String.eqb (key a) (key (nth i l d)) = false).
    { apply String.eqb_neq. intros Heq. apply Hnotin. rewrite Heq.
      apply in_map, nth_In. lia. }
    rewrite Hne, (IH i Hnd') by lia.
    destruct (Z.ltb_spec (Z.of_nat i) 0); lia.
Qed.

Lemma at_nat {A} (l : list A) (j : nat) :
  JSText.at_ l (Z.of_nat j) = nth_error l j.
Proof.
  unfold JSText.at_. destruct (Z.ltb_spec (Z.of_nat j) 0); [lia |].
  now rewrite Nat2Z.id.
Qed.

Lemma canvasItems_ids (s : State) :
  map CanvasMenu.id (CanvasMenu.canvasItems s) = map CanvasData.id (canvases s).
Proof. unfold CanvasMenu.canvasItems. rewrite map_map. reflexivity. Qed.

Lemma handleCanvasSelect_present (i : string) (s : State) :
  In i (map CanvasData.id (canvases s)) ->
  currentCanvasId (handleCanvasSelect i s) = i
  /\ canvases (handleCanvasSelect i s) = canvases s.
Proof.
  intros Hin. destruct (find_canvas_present _ _ Hin) as (cv & Hfind & _).
  unfold handleCanvasSelect, handleCanvasSelectIn. rewrite Hfind.
  split; reflexivity.
Qed.

Lemma ctrlTab_step (s : State) (m : CanvasMenu.State) (i : nat) :
  NoDup (map CanvasData.id (canvases s)) ->
  (i < List.length (canvases s))%nat ->
  currentCanvasId s = idAt s i ->
  let ps := CanvasMenu.keyDown 0 CanvasMenu.ctrlTab (s, m) in
  canvases (fst ps) = canvases s
  /\ currentCanvasId (fst ps) = idAt s (i + 1).
Proof.
  intros Hnd Hi Hcur.
  set (n := List.length (canvases s)) in *.
  assert (Hlen : List.length (CanvasMenu.canvasItems s) = n).
  { unfold CanvasMenu.canvasItems. now rewrite length_map. }
  assert (Hidx : JSText.findIndex
                   (fun c => String.eqb (CanvasMenu.id c) (currentCanvasId s))
                   (CanvasMenu.canvasItems s) = Z.of_nat i).
  { rewrite Hcur. unfold idAt. fold n. rewrite Nat.mod_small by exact Hi.
    rewrite <- canvasItems_ids.
    rewrite (nth_indep _ "" (CanvasMenu.id (CanvasMenu.mkItem "" "" 0 0 0 0)))
      by (rewrite length_map; lia).
    rewrite map_nth. apply (findIndex_nth CanvasMenu.id).
    - now rewrite canvasItems_ids.
    - lia. }
  assert (Hrem : Z.rem (Z.of_nat i + 1) (Z.of_nat n)
                 = Z.of_nat ((i + 1) mod n)).
  { rewrite Z.rem_mod_nonneg by lia.
    rewrite Nat2Z.inj_mod. f_equal. lia. }
  assert (Hlt : ((i + 1) mod n < n)%nat) by (apply Nat.mod_upper_bound; lia).
  destruct (nth_error (CanvasMenu.canvasItems s) ((i + 1) mod n))
    as [item |] eqn:Hitem;
    [| apply nth_error_None in Hitem; lia].
  assert (Hitemid : CanvasMenu.id item = idAt s (i + 1)).
  { unfold idAt. fold n. rewrite <- canvasItems_ids.
    apply (f_equal (option_map CanvasMenu.id)) in Hitem.
    rewrite <- nth_error_map in Hitem. simpl in Hitem.
    symmetry. apply nth_error_nth. exact Hitem. }
  assert (Hpresent : In (CanvasMenu.id item) (map CanvasData.id (canvases s))).
  { rewrite <- canvasItems_ids. apply in_map. eapply nth_error_In, Hitem. }
  destruct (handleCanvasSelect_present _ s Hpresent) as [Hc Hcs].
  unfold CanvasMenu.keyDown, CanvasMenu.handleKeyDown, CanvasMenu.nextCanvas.
  simpl fst. rewrite Hidx, Hlen.
  destruct (Nat.eqb_spec n 0); [lia |].
  rewrite Hrem, at_nat, Hitem. simpl.
  rewrite <- Hitemid. split; assumption.
Qed.

Lemma pressTab_index (k : nat) (s : State) (m : CanvasMenu.State) (i : nat) :
  NoDup (map CanvasData.id (canvases s)) ->
  (i < List.length (canvases s))%nat ->
  currentCanvasId s = idAt s i ->
  canvases (fst (CanvasMenu.pressTab k (s, m))) = canvases s
  /\ currentCanvasId (fst (CanvasMenu.pressTab k (s, m))) = idAt s (i + k).
Proof.
  revert s m i. induction k as [| k IH]; intros s m i Hnd Hi Hcur.
  - simpl. split; [reflexivity |]. now rewrite Nat.add_0_r.
  - destruct (ctrlTab_step s m i Hnd Hi Hcur) as [Hcs Hnext].
    change (CanvasMenu.pressTab (S k) (s, m))
      with (CanvasMenu.pressTab k (CanvasMenu.keyDown 0 CanvasMenu.ctrlTab (s, m))).
    destruct (CanvasMenu.keyDown 0 CanvasMenu.ctrlTab (s, m)) as [s1 m1] eqn:Hkey.
    simpl in Hcs, Hnext.
    assert (Hsame : forall j, idAt s1 j = idAt s j).
    { intros j. unfold idAt. now rewrite Hcs. }
    destruct (IH s1 m1 ((i + 1) mod List.length (canvases s))) as [Hcs' Hcur'].
    + now rewrite Hcs.
    + rewrite Hcs. apply Nat.mod_upper_bound. lia.
    + rewrite Hnext, Hsame. unfold idAt.
      now rewrite Nat.Div0.mod_mod.
    + split; [congruence |].
      rewrite Hcur', Hsame. unfold idAt. f_equal.
      rewrite Nat.Div0.add_mod_idemp_l. f_equal. lia.
Qed.

(** X10. With pairwise distinct canvas identifiers and the current canvas
    in the list, Ctrl+Tab opens the canvas after the current one, the
    first one after the last, and leaves the list as it is; pressed once
    for each canvas, it ends on the canvas it started from. *)
Theorem ctrl_tab_goes_round_the_canvases
    (s : State) (m : CanvasMenu.State) (i : nat) :
  NoDup (map CanvasData.id (canvases s)) ->
  (i < List.length (canvases s))%nat ->
  currentCanvasId s = nth i (map CanvasData.id (canvases s)) "" ->
  currentCanvasId (fst (CanvasMenu.keyDown 0 CanvasMenu.ctrlTab (s, m)))
  = nth ((i + 1) mod List.length (canvases s))
        (map CanvasData.id (canvases s)) ""
  /\ canvases (fst (CanvasMenu.keyDown 0 CanvasMenu.ctrlTab (s, m)))
     = canvases s
  /\ currentCanvasId
       (fst (CanvasMenu.pressTab (List.length (canvases s)) (s, m)))
     = currentCanvasId s.
Proof.
  intros Hnd Hi Hcur.
  assert (Hcur' : currentCanvasId s = idAt s i).
  { unfold idAt. now rewrite Nat.mod_small. }
  destruct (ctrlTab_step s m i Hnd Hi Hcur') as [Hcs Hnext].
  destruct (pressTab_index (List.length (canvases s)) s m i Hnd Hi Hcur')
    as [_ Hround].
  split; [exact Hnext | split; [exact Hcs |]].
  rewrite Hround, Hcur'. unfold idAt. f_equal.
  now rewrite <- Nat.Div0.add_mod_idemp_r, Nat.Div0.mod_same, Nat.add_0_r.
Qed.

End Menu.

(** ** The list of chats of the sidebar *)

Section SidebarList.
Import ChatSidebarList.

Lemma prefix_nil (hay : string) : String.prefix "" hay = true.
Proof. destruct hay; reflexivity. Qed.



Lemma insertChat_perm (a : ChatSession.t) (l : list ChatSession.t) :
  Permutation (a :: l) (insertChat a l).
Proof.
  induction l as [| b l IH]; simpl; [reflexivity |].
  destruct (Z.leb (compareChats a b) 0); [reflexivity |].
  rewrite perm_swap. now constructor.
Qed.

Lemma sortChats_perm (l : list ChatSession.t) : Permutation l (sortChats l).
Proof.
  induction l as [| a l IH]; simpl; [constructor |].
  rewrite <- insertChat_perm. now constructor.
Qed.

Lemma insertChat_sorted (a : ChatSession.t) (l : list ChatSession.t) :
  newestFirst l -> newestFirst (insertChat a l).
Proof.
  unfold newestFirst. induction l as [| b l IH]; intros Hl; simpl.
  - repeat constructor.
  - inversion Hl as [| ? ? Hrest Hall]; subst.
    destruct (Z.leb_spec (compareChats a b) 0) as [Hle | Hgt];
      unfold compareChats in *.
    + constructor; [exact Hl |]. constructor; [lia |].
      rewrite Forall_forall in *. intros c Hc. specialize (Hall c Hc). lia.
    + constructor; [now apply IH |].
      apply (Permutation_Forall (insertChat_perm a l)).
      constructor; [lia | exact Hall].
Qed.

Lemma sortChats_sorted (l : list ChatSession.t) : newestFirst (sortChats l).
Proof.
  induction l as [| a l IH]; simpl; [constructor |].
  now apply insertChat_sorted.
Qed.

(** X12. The sidebar shows the sessions that match the query, each as
    often as it matches, with none more recent than one shown before
    it. *)
Theorem sidebar_shows_matches_newest_first
    (toLowerCase : string -> string)
    (query : string) (sessions : list ChatSession.t) :
  Permutation (filteredChats toLowerCase query sessions)
              (sortedChats toLowerCase query sessions)
  /\ newestFirst (sortedChats toLowerCase query sessions)
  /\ (forall chat, In chat (sortedChats toLowerCase query sessions)
                   <-> In chat sessions
                       /\ matches toLowerCase query chat = true).
Proof.
  unfold sortedChats. split; [apply sortChats_perm | split].
  - apply sortChats_sorted.
  - intros chat. rewrite <- (filter_In (matches toLowerCase query)).
    fold (filteredChats toLowerCase query sessions). split; intros H.
    + eapply Permutation_in; [symmetry; apply sortChats_perm | exact H].
    + eapply Permutation_in; [apply sortChats_perm | exact H].
Qed.

Lemma arrowKeys_listed (current : string) (sorted : list ChatSession.t)
    (e : KeyboardEvent) (chatId : string) :
  In (OnChatSelect chatId) (arrowKeys current sorted e) ->
  In chatId (map ChatSession.id sorted)
  /\ In current (map ChatSession.id sorted).
Proof.
  unfold arrowKeys. intros H.
  destruct (Z.eqb_spec
              (JSText.findIndex
                 (fun chat => String.eqb (ChatSession.id chat) current) sorted)
              (-1)) as [Heq | Hne]; simpl in H; [contradiction |].
  split.
  - destruct (JSText.at_ sorted _) as [chat |] eqn:Hat; [| contradiction].
    destruct H as [H | []]. inversion H; subst.
    unfold JSText.at_ in Hat. destruct (Z.ltb _ 0); [discriminate |].
    apply nth_error_In in Hat. now apply in_map.
  - clear H. induction sorted as [| a l IH]; simpl in *; [contradiction |].
    destruct (String.eqb (ChatSession.id a) current) eqn:Ha.
    + left. now apply String.eqb_eq.
    + right. apply IH.
      destruct (Z.ltb (JSText.findIndex _ l) 0) eqn:Hlt; [contradiction |].
      apply Z.ltb_ge in Hlt. lia.
Qed.

(** X13. An arrow key selects a chat only while the sidebar is open and
    the current chat is among the chats shown, and the chat it selects is
    one of the chats shown. With pairwise distinct identifiers and the
    current chat at position [i], the up arrow selects the chat before
    it, the first chat staying where it is, and the down arrow the chat
    after it, the last chat staying where it is. *)
Theorem arrow_keys_move_within_the_list
    (isOpen : bool) (current : string) (sorted : list ChatSession.t)
    (e : KeyboardEvent) :
  (forall chatId,
      In (OnChatSelect chatId) (handleKeyDown isOpen current sorted e) ->
      isOpen = true
      /\ In chatId (map ChatSession.id sorted)
      /\ In current (map ChatSession.id sorted))
  /\ (forall i d,
        NoDup (map ChatSession.id sorted) ->
        (i < List.length sorted)%nat ->
        current = ChatSession.id (nth i sorted d) ->
        handleKeyDown true current sorted arrowUp
        = [OnChatSelect (ChatSession.id (nth (i - 1) sorted d))]
        /\ handleKeyDown true current sorted arrowDown
           = [OnChatSelect
                (ChatSession.id
                   (nth (Nat.min (List.length sorted - 1) (i + 1)) sorted d))]).
Proof.
  split.
  - intros chatId H. unfold handleKeyDown in H.
    repeat (apply in_app_or in H; destruct H as [H | H]).
    + destruct (_ && _) in H; [destruct H as [H | []]; discriminate | destruct H].
    + destruct (_ && _) in H; [destruct H as [H | []]; discriminate | destruct H].
    + destruct (_ && _) in H; [destruct H as [H | []]; discriminate | destruct H].
    + destruct isOpen; [| destruct H]. simpl in H.
      destruct (_ || _) in H; [| destruct H].
      split; [reflexivity | now apply (arrowKeys_listed _ _ e)].
  - intros i d Hnd Hi Hcur.
    assert (Hidx : JSText.findIndex
                     (fun chat => String.eqb (ChatSession.id chat) current)
                     sorted = Z.of_nat i).
    { rewrite Hcur. now apply (findIndex_nth ChatSession.id). }
    unfold handleKeyDown, arrowKeys. simpl. rewrite Hidx.
    destruct (Z.eqb_spec (Z.of_nat i) (-1)); [lia |]. simpl.
    assert (Hup : Z.max 0 (Z.of_nat i - 1) = Z.of_nat (i - 1)) by lia.
    assert (Hdown : Z.min (Z.of_nat (List.length sorted) - 1) (Z.of_nat i + 1)
                    = Z.of_nat (Nat.min (List.length sorted - 1) (i + 1)))
      by lia.
    rewrite Hup, Hdown, !at_nat.
    rewrite (nth_error_nth' sorted d) by lia.
    rewrite (nth_error_nth' sorted d) by lia.
    split; reflexivity.
Qed.

Lemma at_last {A} (l : list A) (a : A) :
  JSText.at_ (l ++ [a]) (Z.of_nat (List.length (l ++ [a])) - 1) = Some a.
Proof.
  rewrite length_app. simpl.
  replace (Z.of_nat (List.length l + 1) - 1)%Z with (Z.of_nat (List.length l))
    by lia.
  rewrite at_nat. apply nth_error_snoc.
Qed.

Lemma length_append (a b : string) :
  String.length (a ++ b) = (String.length a + String.length b)%nat.
Proof. induction a; simpl; auto. Qed.

Lemma length_substringTo (n : nat) (s : string) :
  (n <= String.length s)%nat -> String.length (JSText.substringTo n s) = n.
Proof.
  unfold JSText.substringTo. revert n.
  induction s as [| c s IH]; intros n Hn; simpl in *.
  - destruct n; [reflexivity | lia].
  - destruct n; [reflexivity |]. simpl. f_equal. apply IH. lia.
Qed.

Lemma prefix_substringTo (n : nat) (s : string) :
  String.prefix (JSText.substringTo n s) s = true.
Proof.
  unfold JSText.substringTo. revert n.
  induction s as [| c s IH]; intros n.
  - destruct n; reflexivity.
  - destruct n; [reflexivity |]. simpl.
    destruct (ascii_dec c c); [apply IH | congruence].
Qed.

(** X14. The preview of a session without messages is "No messages yet".
    Otherwise it is the last message, whole when it has at most 60
    characters (20 in the collapsed sidebar), and else its first 60 (or
    20) characters followed by three dots; it is never longer than 63
    (or 23) characters. *)
Theorem preview_is_a_bounded_prefix (isCollapsed : bool) (chat : ChatSession.t) :
  let maxLength := if isCollapsed then 20%nat else 60%nat in
  (ChatSession.messages chat = [] ->
   getLastMessage isCollapsed chat = "No messages yet")
  /\ (forall earlier lastMessage,
        ChatSession.messages chat = (earlier ++ [lastMessage])%list ->
        let content := Message.content lastMessage in
        ((String.length content <= maxLength)%nat ->
         getLastMessage isCollapsed chat = content)
        /\ ((maxLength < String.length content)%nat ->
            exists head,
              getLastMessage isCollapsed chat = head ++ "..."
              /\ String.length head = maxLength
              /\ String.prefix head content = true)
        /\ (String.length (getLastMessage isCollapsed chat)
            <= maxLength + 3)%nat).
Proof.
  intros maxLength. split.
  - intros Hnone. unfold getLastMessage. now rewrite Hnone.
  - intros earlier lastMessage Hmsgs content.
    assert (Hget : getLastMessage isCollapsed chat
                   = if Nat.ltb maxLength (String.length content)
                     then JSText.substringTo maxLength content ++ "..."
                     else content).
    { unfold getLastMessage. now rewrite Hmsgs, at_last. }
    rewrite Hget.
    destruct (Nat.ltb_spec maxLength (String.length content)) as [Hlong | Hshort].
    + split; [lia | split].
      * intros _. exists (JSText.substringTo maxLength content).
        split; [reflexivity | split].
        -- apply length_substringTo. lia.
        -- apply prefix_substringTo.
      * rewrite length_append, length_substringTo by lia. simpl. lia.
    + split; [reflexivity | split; [lia | lia]].
Qed.

(** X15. The age shown for a session: "now" below one minute, also for a
    date in the future; then whole minutes from 1 to 59, whole hours from
    1 to 23, whole days from 1 to 6; and from seven days on the date in
    the format of the locale. *)
Theorem age_is_shown_in_the_largest_unit
    (toLocaleDateString : Z -> string) (now date : Z) :
  let diff := (now - date)%Z in
  let shown := formatTimestamp toLocaleDateString now date in
  ((diff < 60000)%Z -> shown = "now")
  /\ ((60000 <= diff < 3600000)%Z ->
      shown = JS.toString (diff / 60000) ++ "m"
      /\ (1 <= diff / 60000 <= 59)%Z)
  /\ ((3600000 <= diff < 86400000)%Z ->
      shown = JS.toString (diff / 3600000) ++ "h"
      /\ (1 <= diff / 3600000 <= 23)%Z)
  /\ ((86400000 <= diff < 604800000)%Z ->
      shown = JS.toString (diff / 86400000) ++ "d"
      /\ (1 <= diff / 86400000 <= 6)%Z)
  /\ ((604800000 <= diff)%Z -> shown = toLocaleDateString date).
Proof.
  intros diff shown. subst shown. unfold formatTimestamp. fold diff.
  change (1000 * 60 * 60 * 24)%Z with 86400000%Z.
  change (1000 * 60 * 60)%Z with 3600000%Z.
  change (1000 * 60)%Z with 60000%Z.
  clearbody diff.
  split; [| split; [| split; [| split]]]; intros Hd;
    repeat match goal with
           | |- context [Z.ltb ?a ?b] => destruct (Z.ltb_spec a b)
           end;
    try (exfalso; Z.div_mod_to_equations; lia); try reflexivity;
    split; try reflexivity; Z.div_mod_to_equations; lia.
Qed.

End SidebarList.

(** ** The widths of the two panels *)

Section Widths.
Import PanelWidths.

Lemma gtb_false_leibniz (a b : Q) : a <= b -> JS.gtb a b = false.
Proof. apply gtb_false. Qed.

(** X16. While the divider is dragged, a move of the pointer keeps the
    width of the window and gives the left panel at least 400 pixels; in
    a window of 850 pixels or more it also keeps the left panel within
    the width of the window less 450, so that the effect of App has
    nothing to correct. The right panel is rendered one pixel narrower
    than what the left panel leaves, for the divider: it is then at
    least 449 pixels wide, and exactly 449 when the left panel is at its
    upper bound. *)
Theorem divider_keeps_both_panels_wide_enough
    (e : MouseEvent) (d : Divider) (s : State) :
  isDragging d = true ->
  let s' := handleMouseMove e d s in
  containerWidth s' = containerWidth s
  /\ minLeftWidth <= leftPanelWidth s'
  /\ (minLeftWidth + minRightWidth <= containerWidth s ->
      withinBounds s' /\ widthEffect s' = s'
      /\ minRightWidth - 1 <= rightPanelWidth s'
      /\ (containerWidth s - minRightWidth
          <= startWidth d + (clientX e - startX d) ->
          rightPanelWidth s' == minRightWidth - 1)).
Proof.
  intros Hdrag s'. subst s'. unfold handleMouseMove. rewrite Hdrag. simpl.
  unfold minLeftWidth, minRightWidth, JS.max, JS.min.
  split; [reflexivity | split; [apply Q.le_max_l |]].
  intros Hwide.
  assert (Hin : withinBounds
                  (handlePanelResize
                     (Qmax 400 (Qmin (startWidth d + (clientX e - startX d))
                                     (containerWidth s - 450))) s)).
  { unfold withinBounds, minLeftWidth, minRightWidth. simpl. split.
    - apply Q.le_max_l.
    - apply Q.max_lub; [lra | apply Q.le_min_r]. }
  split; [exact Hin |].
  destruct Hin as [Hlo Hhi]. unfold widthEffect.
  rewrite (gtb_false_leibniz _ _ Hhi), (gtb_false_leibniz _ _ Hlo).
  split; [reflexivity |].
  unfold rightPanelWidth, minLeftWidth, minRightWidth in *. simpl in *.
  split; [lra |].
  intros Hbeyond.
  rewrite (Q.min_r (startWidth d + (clientX e - startX d))
             (containerWidth s - 450)) by exact Hbeyond.
  rewrite Q.max_r by lra. lra.
Qed.

(** X17. In a window of 850 pixels or more, one run of the effect of App
    brings the width of the left panel between 400 and the width of the
    window less 450, and a second run changes nothing. In a narrower
    window the effect never leaves the width as it finds it: each run
    writes a width that differs from the one it read. *)
Theorem width_effect_settles_only_in_a_wide_window (s : State) :
  (minLeftWidth + minRightWidth <= containerWidth s ->
   withinBounds (widthEffect s)
   /\ widthEffect (widthEffect s) = widthEffect s)
  /\ (containerWidth s < minLeftWidth + minRightWidth ->
      ~ leftPanelWidth (widthEffect s) == leftPanelWidth s).
Proof.
  unfold minLeftWidth, minRightWidth. split.
  - intros Hwide.
    assert (Hin : withinBounds (widthEffect s)).
    { unfold withinBounds, widthEffect, minLeftWidth, minRightWidth.
      destruct (JS.gtb (leftPanelWidth s) (containerWidth s - 450)) eqn:Hhi.
      - simpl. split; lra.
      - destruct (JS.gtb 400 (leftPanelWidth s)) eqn:Hlo.
        + simpl. split; lra.
        + apply gtb_false in Hhi, Hlo. split; assumption. }
    split; [exact Hin |]. destruct Hin as [Hlo Hhi].
    unfold widthEffect at 1.
    now rewrite (gtb_false_leibniz _ _ Hhi), (gtb_false_leibniz _ _ Hlo).
  - intros Hnarrow. unfold widthEffect, minLeftWidth, minRightWidth.
    destruct (JS.gtb (leftPanelWidth s) (containerWidth s - 450)) eqn:Hhi.
    + apply gtb_true in Hhi. simpl. lra.
    + apply gtb_false in Hhi.
      destruct (JS.gtb 400 (leftPanelWidth s)) eqn:Hlo.
      * apply gtb_true in Hlo. simpl. lra.
      * apply gtb_false in Hlo. lra.
Qed.

End Widths.

(** ** The size of a dropped block, in figures *)

Section SizeFigures.
Import CanvasPanel.

Lemma round_compat (a b : Q) : a == b -> JS.round a = JS.round b.
Proof.
  intros H. unfold JS.round. f_equal. apply Qfloor_comp. now rewrite H.
Qed.

(** X18. A text of at most 100 characters and at most 20 words gives a
    block of 240 by 120; a text of 207 characters or more gives a block
    400 wide; and no dropped block is narrower than 240 or wider than 400,
    lower than 120 or higher than 300. *)
Theorem initial_size_figures (text : string) :
  ((charCount text <= 100)%nat -> (wordCount text <= 20)%nat ->
   calculateInitialSize text = mkSize 240 120)
  /\ ((207 <= charCount text)%nat ->
      size_width (calculateInitialSize text) = 400)
  /\ (240 <= size_width (calculateInitialSize text)
      /\ size_width (calculateInitialSize text) <= 400)
  /\ (120 <= size_height (calculateInitialSize text)
      /\ size_height (calculateInitialSize text) <= 300).
Proof.
  split; [| split; [| apply size_bounds]].
  - intros Hc Hw. rewrite size_unfold.
    assert (Hcq : counted (charCount text) <= 100).
    { apply (count_le _ 100). exact Hc. }
    assert (Hwq : counted (wordCount text) <= 20).
    { apply (count_le _ 20). exact Hw. }
    unfold rawWidth, rawHeight, baseHeight.
    rewrite (proj2 (gtb_false _ _) Hcq), (proj2 (gtb_false _ _) Hwq).
    reflexivity.
  - intros Hc. rewrite size_unfold. simpl.
    assert (Hcq : 207 <= counted (charCount text)).
    { apply (count_le 207). exact Hc. }
    assert (Hgt : JS.gtb (counted (charCount text)) 100 = true).
    { apply gtb_true. lra. }
    unfold rawWidth. rewrite Hgt.
    rewrite (round_compat _ 400); [reflexivity |].
    unfold JS.min. apply Q.min_l. lra.
Qed.

End SizeFigures.

(** ** The chat side of the workspace *)

Section ChatSide.
Import Workspace.

(** X19. Sending while the input holds nothing but white space changes
    nothing: no message is added and no reply is scheduled. *)
Theorem blank_input_is_not_sent (now : Z) (w : World) :
  JS.trim (ChatPanel.inputValue (chat w)) = "" -> sendMessage now w = w.
Proof.
  intros Hblank. unfold sendMessage, ChatPanel.handleSendMessage.
  rewrite Hblank. destruct w; reflexivity.
Qed.

Lemma sidebarSelect_canvas (t : string) (w : World) :
  canvas (sidebarSelect t w) = canvas w.
Proof.
  unfold sidebarSelect, ChatSidebar.handleChatSelect.
  repeat break_match; reflexivity.
Qed.

Lemma switchChats_canvas (switches : list string) (w : World) :
  canvas (switchChats switches w) = canvas w.
Proof.
  revert w. induction switches as [| t rest IH]; intros w; [reflexivity |].
  change (switchChats (t :: rest) w) with (switchChats rest (sidebarSelect t w)).
  now rewrite IH, sidebarSelect_canvas.
Qed.

Lemma truthy_nonempty (s : string) : s <> "" -> JS.truthy s = true.
Proof. destruct s; [congruence | reflexivity]. Qed.

(** The button pressed and released on a block: the blocks are what they
    were and no block is being dragged. *)
Lemma press_and_release (e : MouseEvent) (rect : option DOMRect) (now : Z)
    (nodeId : string) (s : CanvasPanel.State) :
  CanvasPanel.nodes
    (CanvasPanel.handleMouseUp
       (CanvasPanel.handleBlockMouseDown e rect now nodeId s))
  = CanvasPanel.nodes s
  /\ CanvasPanel.draggingNode
       (CanvasPanel.handleMouseUp
          (CanvasPanel.handleBlockMouseDown e rect now nodeId s))
     = None.
Proof.
  unfold CanvasPanel.handleMouseUp, CanvasPanel.handleBlockMouseDown,
    CanvasPanel.completeConnection, CanvasPanel.startDragging.
  repeat break_match; split; reflexivity.
Qed.

(** X20. A text is selected in a message of the current chat and dropped
    on the canvas, at a time whose identifier no block carries; the
    active chat is then switched any number of times. A click on the new
    block, the button pressed and released in place, makes the chat the
    text came from the active chat again and highlights the message it
    came from; it leaves the chat panel and the blocks of the canvas as
    they were, with no block being dragged. *)
Theorem block_click_returns_to_the_source
    (w : World) (messageId selection : string) (r : DOMRect) (now : Z)
    (switches : list string)
    (e : MouseEvent) (rect' : option DOMRect) (now' : Z) :
  JS.trim selection <> "" ->
  messageId <> "" ->
  App.currentChatId (app w) <> "" ->
  ~ In (JS.toString now) (nodeIds (CanvasPanel.nodes (canvas w))) ->
  let source := App.currentChatId (app w) in
  let w1 := textSelected messageId (Some selection) w in
  let w2 := consumeDrag (Some r) now w1 in
  let w3 := switchChats switches w2 in
  let w4 := clickBlock e rect' now' (JS.toString now) w3 in
  App.currentChatId (app w4) = source
  /\ App.highlightedMessageId (app w4) = Some messageId
  /\ chat w4 = chat w3
  /\ CanvasPanel.nodes (canvas w4) = CanvasPanel.nodes (canvas w3)
  /\ CanvasPanel.draggingNode (canvas w4) = None.
Proof.
  intros Hsel Hmsg Hchat Hfresh source w1 w2 w3 w4.
  pose proof (truthy_nonempty _ Hsel) as Htsel.
  pose proof (truthy_nonempty _ Hmsg) as Htmsg.
  pose proof (truthy_nonempty _ Hchat) as Htchat.
  pose proof (eq_refl : App.currentChatId (app w) = source) as Hsrc.
  clearbody source. rewrite Hsrc in Htchat.
  assert (Hw1 : w1 = onApp (App.handleTextDrag (JS.trim selection) messageId
                              source) w).
  { subst w1. unfold textSelected, ChatPanel.handleMouseUp,
      ChatPanel.handleTextSelection. rewrite Htsel, Hsrc. reflexivity. }
  set (size := CanvasPanel.calculateInitialSize (JS.trim selection)).
  set (centre := screenToCanvas (CanvasPanel.pan (canvas w))
                   (CanvasPanel.zoom (canvas w))
                   (mkPoint (rwidth r / 2) (rheight r / 2))).
  set (block := TextNode.mk (JS.toString now) (JS.trim selection)
                  (px centre - CanvasPanel.size_width size / 2)
                  (py centre - CanvasPanel.size_height size / 2)
                  (CanvasPanel.size_width size) (CanvasPanel.size_height size)
                  (Some messageId) (Some source)
                  (nth (Nat.modulo
                          (List.length (CanvasPanel.nodes (canvas w)))
                          (List.length CanvasPanel.colors))
                       CanvasPanel.colors "undefined")).
  assert (Hnodes : CanvasPanel.nodes (canvas w2)
                   = (CanvasPanel.nodes (canvas w) ++ [block])%list).
  { subst w2. rewrite Hw1. unfold consumeDrag, CanvasPanel.dropEffect.
    simpl. rewrite Htsel. simpl. unfold orUndefined.
    rewrite Htmsg, Htchat. reflexivity. }
  assert (Hfind : find (CanvasPanel.hasId (JS.toString now))
                    (CanvasPanel.nodes (canvas w3)) = Some block).
  { subst w3. rewrite switchChats_canvas, Hnodes. apply find_first.
    - intros b Hb. unfold CanvasPanel.hasId. apply String.eqb_neq.
      intros Hid. apply Hfresh. rewrite <- Hid. now apply in_map.
    - unfold CanvasPanel.hasId. apply String.eqb_refl. }
  destruct (press_and_release e rect' now' (JS.toString now) (canvas w3))
    as [Hsame Hidle].
  set (released := w3
         |> onCanvas (CanvasPanel.handleBlockMouseDown e rect' now'
                        (JS.toString now))
         |> onCanvas CanvasPanel.handleMouseUp).
  assert (Hw4 : w4 = onApp (App.handleBlockClick messageId (Some source))
                       released).
  { subst w4. unfold clickBlock. fold released.
    unfold onBlockClick, CanvasPanel.handleBlockClick.
    change (CanvasPanel.nodes (canvas released))
      with (CanvasPanel.nodes
              (CanvasPanel.handleMouseUp
                 (CanvasPanel.handleBlockMouseDown e rect' now'
                    (JS.toString now) (canvas w3)))).
    rewrite Hsame, Hfind. simpl. rewrite Htmsg. reflexivity. }
  rewrite Hw4.
  split; [| split; [| split; [| split]]].
  - simpl. rewrite Htchat. simpl.
    destruct (String.eqb source (App.currentChatId (app w3))) eqn:Heq; simpl.
    + apply String.eqb_eq in Heq. now rewrite <- Heq.
    + reflexivity.
  - reflexivity.
  - reflexivity.
  - exact Hsame.
  - exact Hidle.
Qed.

Lemma extends_refl (a : ChatSession.t) : extends a a.
Proof. split; [reflexivity | exists []; now rewrite app_nil_r]. Qed.

Lemma extends_trans (a b c : ChatSession.t) :
  extends a b -> extends b c -> extends a c.
Proof.
  intros [Hab [s1 H1]] [Hbc [s2 H2]]. split; [congruence |].
  exists (s1 ++ s2)%list. now rewrite H2, H1, app_assoc.
Qed.

Lemma Forall2_extends_refl (l : list ChatSession.t) : Forall2 extends l l.
Proof. induction l; constructor; [apply extends_refl | assumption]. Qed.

Lemma Forall2_extends_map (f : ChatSession.t -> ChatSession.t)
    (l : list ChatSession.t) :
  (forall a, extends a (f a)) -> Forall2 extends l (map f l).
Proof. intros Hf. induction l; simpl; constructor; auto. Qed.

Lemma Forall2_extends_trans (l1 l2 l3 : list ChatSession.t) :
  Forall2 extends l1 l2 -> Forall2 extends l2 l3 -> Forall2 extends l1 l3.
Proof.
  intros H12. revert l3. induction H12 as [| a b l1 l2 Hab H12 IH];
    intros l3 H23; inversion H23; subst; constructor.
  - eapply extends_trans; eassumption.
  - now apply IH.
Qed.

Lemma grows_refl (l : list ChatSession.t) : grows l l.
Proof. exists [], l. split; [reflexivity | apply Forall2_extends_refl]. Qed.

Lemma grows_map (f : ChatSession.t -> ChatSession.t) (l : list ChatSession.t) :
  (forall a, extends a (f a)) -> grows l (map f l).
Proof.
  intros Hf. exists [], (map f l).
  split; [reflexivity | now apply Forall2_extends_map].
Qed.

Lemma grows_trans (l1 l2 l3 : list ChatSession.t) :
  grows l1 l2 -> grows l2 l3 -> grows l1 l3.
Proof.
  intros (a1 & k1 & -> & H1) (a2 & k2 & -> & H2).
  apply Forall2_app_inv_l in H2.
  destruct H2 as (k2a & k2b & Ha & Hb & ->).
  exists (a2 ++ k2a)%list, k2b. split; [now rewrite app_assoc |].
  eapply Forall2_extends_trans; eassumption.
Qed.

Lemma extends_appendTo (chatId : string) (m : Message.t) (now : Z)
    (a : ChatSession.t) :
  extends a (ChatPanel.appendTo chatId m now a).
Proof.
  unfold ChatPanel.appendTo.
  destruct (String.eqb (ChatSession.id a) chatId);
    [split; [reflexivity | now exists [m]] | apply extends_refl].
Qed.

Lemma grows_sendMessage (now : Z) (w : World) :
  grows (ChatPanel.chatSessions (chat w))
        (ChatPanel.chatSessions (chat (sendMessage now w))).
Proof.
  unfold sendMessage, ChatPanel.handleSendMessage.
  destruct (negb _); simpl; [apply grows_refl |].
  apply grows_map. intros a. apply extends_appendTo.
Qed.

Lemma grows_replyArrives (k : nat) (now : Z) (rnd : Q) (w : World) :
  grows (ChatPanel.chatSessions (chat w))
        (ChatPanel.chatSessions (chat (replyArrives k now rnd w))).
Proof.
  unfold replyArrives. destruct (nth_error _ k); simpl; [| apply grows_refl].
  apply grows_map. intros a. apply extends_appendTo.
Qed.

Lemma grows_sidebarSelect (t : string) (w : World) :
  grows (ChatPanel.chatSessions (chat w))
        (ChatPanel.chatSessions (chat (sidebarSelect t w))).
Proof.
  unfold sidebarSelect, ChatSidebar.handleChatSelect.
  repeat break_match; simpl; try apply grows_refl.
  apply grows_map. intros a.
  destruct (String.eqb (ChatSession.id a) t); [| apply extends_refl].
  split; [reflexivity | exists []; simpl; now rewrite app_nil_r].
Qed.

Lemma grows_newChat (now : Z) (w : World) :
  grows (ChatPanel.chatSessions (chat w))
        (ChatPanel.chatSessions (chat (newChat now w))).
Proof.
  unfold newChat. simpl.
  exists [ChatSession.mk ("new-chat-" ++ JS.toString now) "New Chat" [] now None],
         (ChatPanel.chatSessions (chat w)).
  split; [reflexivity | apply Forall2_extends_refl].
Qed.

Lemma chatCalls_sessions (cs : list ChatPanel.Call) (w : World) :
  ChatPanel.chatSessions (chat (chatCalls cs w))
  = ChatPanel.chatSessions (chat w).
Proof.
  revert w. induction cs as [| c cs IH]; intros w; [reflexivity |].
  unfold chatCalls in *. simpl. rewrite IH. destruct c; reflexivity.
Qed.

Lemma grows_fold {C} (f : World -> C -> World) (cs : list C) :
  (forall w c, grows (ChatPanel.chatSessions (chat w))
                     (ChatPanel.chatSessions (chat (f w c)))) ->
  forall w, grows (ChatPanel.chatSessions (chat w))
                  (ChatPanel.chatSessions (chat (fold_left f cs w))).
Proof.
  intros Hf. induction cs as [| c cs IH]; intros w; simpl.
  - apply grows_refl.
  - eapply grows_trans; [apply Hf | apply IH].
Qed.

Lemma grows_sidebarKey (toLowerCase : string -> string)
    (query : string) (now : Z) (e : KeyboardEvent) (w : World) :
  grows (ChatPanel.chatSessions (chat w))
        (ChatPanel.chatSessions
           (chat (ChatEvents.sidebarKey toLowerCase query now e w))).
Proof.
  unfold ChatEvents.sidebarKey. apply grows_fold.
  intros w' c. destruct c; simpl; try apply grows_refl.
  apply grows_newChat.
Qed.

Lemma grows_step (toLowerCase : string -> string)
    (ev : ChatEvents.Event) (w : World) :
  ChatEvents.keepsChats ev ->
  grows (ChatPanel.chatSessions (chat w))
        (ChatPanel.chatSessions (chat (ChatEvents.step toLowerCase ev w))).
Proof.
  intros Hkeep. destruct ev; simpl in *.
  - apply grows_refl.
  - apply grows_sendMessage.
  - apply grows_replyArrives.
  - apply grows_sidebarSelect.
  - contradiction.
  - apply grows_newChat.
  - unfold textSelected. rewrite chatCalls_sessions. apply grows_refl.
  - apply grows_sidebarKey.
  - apply grows_refl.
Qed.

Lemma grows_run (toLowerCase : string -> string)
    (evs : list ChatEvents.Event) (w : World) :
  Forall ChatEvents.keepsChats evs ->
  grows (ChatPanel.chatSessions (chat w))
        (ChatPanel.chatSessions (chat (ChatEvents.run toLowerCase evs w))).
Proof.
  intros Hkeep. revert w. induction Hkeep as [| ev evs Hev Hevs IH];
    intros w.
  - apply grows_refl.
  - change (ChatEvents.run toLowerCase (ev :: evs) w)
      with (ChatEvents.run toLowerCase evs (ChatEvents.step toLowerCase ev w)).
    apply (grows_trans _
             (ChatPanel.chatSessions
                (chat (ChatEvents.step toLowerCase ev w))));
      [now apply grows_step | apply IH].
Qed.

Lemma Forall2_extends_In (old kept : list ChatSession.t) (c : ChatSession.t) :
  Forall2 extends old kept -> In c old ->
  exists c', In c' kept /\ extends c c'.
Proof.
  induction 1 as [| a b old kept Hab H IH]; intros Hin; [contradiction |].
  destruct Hin as [-> | Hin].
  - exists b. split; [now left | exact Hab].
  - destruct (IH Hin) as (c' & Hc' & Hext). exists c'. split; [now right | exact Hext].
Qed.

(** X21. Through typing, sending, replies, selecting and creating chats,
    selecting text and key presses, that is through every event of the
    chat side but the deletion of a chat, the sessions keep their order
    and their identifiers and each keeps its messages, in their order,
    new messages coming at the end; new sessions come in front. *)
Theorem messages_are_only_appended
    (toLowerCase : string -> string)
    (evs : list ChatEvents.Event) (w : World) :
  Forall ChatEvents.keepsChats evs ->
  grows (ChatPanel.chatSessions (chat w))
        (ChatPanel.chatSessions (chat (ChatEvents.run toLowerCase evs w)))
  /\ (forall c, In c (ChatPanel.chatSessions (chat w)) ->
        exists c' suffix,
          In c' (ChatPanel.chatSessions
                   (chat (ChatEvents.run toLowerCase evs w)))
          /\ ChatSession.id c' = ChatSession.id c
          /\ ChatSession.messages c'
             = (ChatSession.messages c ++ suffix)%list).
Proof.
  intros Hkeep. pose proof (grows_run toLowerCase evs w Hkeep) as Hgrows.
  split; [exact Hgrows |].
  intros c Hc. destruct Hgrows as (added & kept & Hnew & Hall).
  destruct (Forall2_extends_In _ _ c Hall Hc) as (c' & Hc' & [Hid [suffix Hm]]).
  exists c', suffix. rewrite Hnew. split; [| split; assumption].
  apply in_or_app. now right.
Qed.

Lemma find_first_kept_chat (chatId : string) (l rest : list ChatSession.t)
    (first : ChatSession.t) :
  filter (fun c => negb (String.eqb (ChatSession.id c) chatId)) l
  = first :: rest ->
  In first l /\ ChatSession.id first <> chatId.
Proof.
  intros H.
  assert (Hin : In first (filter (fun c =>
                   negb (String.eqb (ChatSession.id c) chatId)) l)).
  { rewrite H. now left. }
  apply filter_In in Hin. destruct Hin as [Hin Hkeep].
  split; [exact Hin | now apply String.eqb_neq, negb_true_iff].
Qed.

(** X22. With two sessions or more, one of which does not carry the
    identifier to delete, the sessions with that identifier are removed
    and the others are kept in their order; when the active chat was
    deleted, the first remaining session becomes the active chat and the
    highlight is cleared; otherwise App is untouched. The pending replies
    stay pending. *)
Theorem deleting_a_chat_opens_the_first_remaining
    (w : World) (chatId : string) (first : ChatSession.t)
    (rest : list ChatSession.t) :
  (2 <= List.length (ChatPanel.chatSessions (chat w)))%nat ->
  filter (fun c => negb (String.eqb (ChatSession.id c) chatId))
         (ChatPanel.chatSessions (chat w))
  = first :: rest ->
  let w' := sidebarDelete chatId w in
  ChatPanel.chatSessions (chat w') = first :: rest
  /\ replies w' = replies w
  /\ (App.currentChatId (app w) = chatId ->
      App.currentChatId (app w') = ChatSession.id first
      /\ App.highlightedMessageId (app w') = None
      /\ In (App.currentChatId (app w'))
            (map ChatSession.id (ChatPanel.chatSessions (chat w'))))
  /\ (App.currentChatId (app w) <> chatId -> app w' = app w).
Proof.
  intros Hmany Hkept w'.
  assert (Hguard : Nat.ltb 1 (List.length (ChatPanel.chatSessions (chat w)))
                   = true) by (apply Nat.ltb_lt; lia).
  subst w'. unfold sidebarDelete, ChatSidebar.handleDeleteChat.
  rewrite Hguard. unfold deleteChat, ChatPanel.handleChatDelete.
  rewrite Hkept.
  destruct (String.eqb (App.currentChatId (app w)) chatId) eqn:Hcur; simpl.
  - rewrite Hkept. split; [reflexivity | split; [reflexivity | split]].
    + intros _. split; [reflexivity | split; [reflexivity | now left]].
    + intros Hne. apply String.eqb_eq in Hcur. contradiction.
  - rewrite Hkept. split; [reflexivity | split; [reflexivity | split]].
    + intros Heq. apply String.eqb_neq in Hcur. contradiction.
    + intros _. destruct w as [a c cv rs]. destruct a. reflexivity.
Qed.

Lemma map_appendTo_absent (chatId : string) (m : Message.t) (now : Z)
    (l : list ChatSession.t) :
  ~ In chatId (map ChatSession.id l) ->
  map (ChatPanel.appendTo chatId m now) l = l.
Proof.
  intros Habsent. rewrite <- (map_id l) at 2. apply map_ext_in.
  intros a Ha. unfold ChatPanel.appendTo.
  destruct (String.eqb (ChatSession.id a) chatId) eqn:Heq; [| reflexivity].
  exfalso. apply Habsent. apply String.eqb_eq in Heq. rewrite <- Heq.
  now apply in_map.
Qed.

(** X23. A reply whose chat has been deleted in the meantime is dropped:
    when its timer fires no session changes, the typing indicator goes
    off and the reply is no longer pending. *)
Theorem reply_for_a_deleted_chat_is_dropped
    (w : World) (k : nat) (r : ChatPanel.Reply) (now : Z) (rnd : Q) :
  nth_error (replies w) k = Some r ->
  ~ In (ChatPanel.target r)
       (map ChatSession.id (ChatPanel.chatSessions (chat w))) ->
  let w' := replyArrives k now rnd w in
  ChatPanel.chatSessions (chat w') = ChatPanel.chatSessions (chat w)
  /\ ChatPanel.isTyping (chat w') = false
  /\ replies w' = removeAt k (replies w)
  /\ List.length (replies w') = (List.length (replies w) - 1)%nat.
Proof.
  intros Hk Habsent w'. subst w'. unfold replyArrives. rewrite Hk. simpl.
  split; [now apply map_appendTo_absent | split; [reflexivity |]].
  split; [reflexivity |].
  clear Habsent. revert k Hk. induction (replies w) as [| a l IH];
    intros k Hk; destruct k; simpl in *; try discriminate; try lia.
  rewrite (IH k Hk). apply nth_error_In in Hk. destruct l; [destruct Hk | simpl; lia].
Qed.

(** X24. Selecting a chat in the sidebar makes it the active chat, clears
    the highlight and leaves the first session with that identifier
    without unread messages, with the title and the messages it had; the
    sessions with other identifiers are untouched. *)
Theorem selecting_a_chat_clears_its_unread_count
    (w : World) (t : string) (c : ChatSession.t) :
  find (fun x => String.eqb (ChatSession.id x) t)
       (ChatPanel.chatSessions (chat w)) = Some c ->
  let w' := sidebarSelect t w in
  App.currentChatId (app w') = t
  /\ App.highlightedMessageId (app w') = None
  /\ (exists c',
        find (fun x => String.eqb (ChatSession.id x) t)
             (ChatPanel.chatSessions (chat w')) = Some c'
        /\ (ChatSession.unreadCount c' = None
            \/ ChatSession.unreadCount c' = Some 0%Z)
        /\ ChatSession.title c' = ChatSession.title c
        /\ ChatSession.messages c' = ChatSession.messages c)
  /\ (forall x, ChatSession.id x <> t ->
        (In x (ChatPanel.chatSessions (chat w'))
         <-> In x (ChatPanel.chatSessions (chat w)))).
Proof.
  intros Hfind w'.
  destruct (sidebarSelect_spec t w) as (Hcur & Hhigh & _ & _).
  split; [exact Hcur | split; [exact Hhigh |]].
  subst w'. unfold sidebarSelect, ChatSidebar.handleChatSelect.
  rewrite Hfind.
  destruct (ChatSession.unreadCount c) as [n |] eqn:Hunread.
  - destruct (Z.eqb_spec n 0) as [-> | Hn].
    + split; [| tauto]. exists c. simpl. rewrite Hfind. auto.
    + simpl. split.
      * exists (ChatSession.merge c ChatSidebar.clearUnread).
        split; [| simpl; auto].
        induction (ChatPanel.chatSessions (chat w)) as [| a l IH];
          simpl in *; [discriminate |].
        destruct (String.eqb (ChatSession.id a) t) eqn:Ha.
        -- inversion Hfind; subst. simpl. now rewrite Ha.
        -- rewrite Ha. now apply IH.
      * intros x Hx. rewrite in_map_iff. split.
        -- intros (a & Hax & Ha).
           destruct (String.eqb (ChatSession.id a) t) eqn:Hat.
           ++ subst x. simpl in Hx. apply String.eqb_eq in Hat. contradiction.
           ++ now subst x.
        -- intros Hin. exists x. split; [| exact Hin].
           apply String.eqb_neq in Hx. now rewrite Hx.
  - split; [| tauto]. exists c. simpl. rewrite Hfind. auto.
Qed.

End ChatSide.

(** ** The further theorems at sample inputs *)

Section MoreSamples.
Import CanvasPanel CanvasEvents Workspace.

Lemma movedBlocks_reachable : reachable movedBlocks.
Proof. apply reachable_run, linkedBlocks_reachable. Qed.

Lemma blocks_keep_size_witness :
  List.length (nodes movedBlocks) = 2%nat
  /\ forall n, In n (nodes movedBlocks) -> identified n /\ wellSized n.
Proof.
  split; [reflexivity |].
  exact (proj1 (blocks_keep_identifier_and_size movedBlocks
                  movedBlocks_reachable)).
Defined.

Lemma never_dangle_witness :
  In theLink (connections movedBlocks)
  /\ In (Connection.from theLink) (nodeIds (nodes movedBlocks))
  /\ In (Connection.to theLink) (nodeIds (nodes movedBlocks)).
Proof.
  assert (Hin : In theLink (connections movedBlocks)) by (left; reflexivity).
  split; [exact Hin |].
  exact (proj1 (connections_never_dangle movedBlocks movedBlocks_reachable)
           theLink Hin).
Defined.

Lemma points_at_center_witness :
  In theLink (connections movedBlocks)
  /\ exists b, find (hasId "2") (nodes movedBlocks) = Some b
               /\ Connection.toPoint theLink = center b.
Proof.
  assert (Hin : In theLink (connections movedBlocks)) by (left; reflexivity).
  split; [exact Hin |].
  exact (proj1 (connection_points_at_center_of_target movedBlocks theLink
                  movedBlocks_reachable Hin)).
Defined.

Lemma drag_witness :
  connectingFrom twoBlocks = None
  /\ exists n',
       find (hasId "1")
            (nodes (handleMouseMove (mkMouse 460 330) (Some viewport)
                      (handleBlockMouseDown (mkMouse 400 300) (Some viewport)
                         5 "1" twoBlocks))) = Some n'
       /\ TextNode.x n' == TextNode.x blockA + (460 - 400) / zoom twoBlocks.
Proof.
  split; [reflexivity |].
  destruct (drag_moves_block_with_pointer twoBlocks "1" blockA
              (mkMouse 400 300) (mkMouse 460 330) viewport 5
              eq_refl eq_refl eq_refl)
    as ((n' & Hfind & Hx & _) & _).
  exists n'. split; [exact Hfind | exact Hx].
Defined.

Lemma written_back_witness :
  In (currentCanvasId twoCanvases) (map CanvasData.id (canvases twoCanvases))
  /\ currentCanvasId
       (handleCanvasSelect "canvas-5" (updateCanvasData 9 twoCanvases))
     = "canvas-5"
  /\ nodes (handleCanvasSelect "canvas-5" (updateCanvasData 9 twoCanvases))
     = []
  /\ nodes (handleCanvasSelect "default-canvas"
              (handleCanvasSelect "canvas-5" (updateCanvasData 9 twoCanvases)))
     = [blockA; blockB].
Proof.
  assert (Hin : In (currentCanvasId twoCanvases)
                   (map CanvasData.id (canvases twoCanvases)))
    by (left; reflexivity).
  destruct (written_back_canvas_survives_switching twoCanvases 9 "canvas-5"
              Hin) as (Hnodes & _ & _ & Hopened).
  split; [exact Hin | split; [| split]].
  - apply Hopened. right. left. reflexivity.
  - reflexivity.
  - exact Hnodes.
Defined.

Lemma new_canvas_witness :
  List.length (canvases twoCanvases) = 2%nat
  /\ currentCanvasId twoCanvases = "default-canvas"
  /\ nodes twoCanvases = nodes twoBlocks.
Proof.
  assert (Hfresh : ~ In ("canvas-" ++ JS.toString 5)
                        (map CanvasData.id (canvases twoBlocks))).
  { simpl. intros [H | []]. discriminate. }
  unfold twoCanvases.
  rewrite (new_canvas_is_appended_not_opened twoBlocks 5 Hfresh).
  repeat split.
Defined.

Lemma canvas_delete_witness :
  exists s',
    handleCanvasDelete "default-canvas" twoCanvases = Returned s'
    /\ currentCanvasId s' = "canvas-5"
    /\ nodes s' = [].
Proof.
  destruct (deleting_a_canvas_opens_the_first_remaining twoCanvases
              "default-canvas"
              (CanvasData.mk "canvas-5" "Canvas 2" [] [] 5 5) [])
    as (s' & Hret & _ & Hcur & _).
  - simpl. lia.
  - reflexivity.
  - exists s'. destruct (Hcur eq_refl) as (Hid & Hnodes & _).
    split; [exact Hret | split; assumption].
Defined.

Lemma twoCanvases_distinct_ids :
  NoDup (map CanvasData.id (canvases twoCanvases)).
Proof.
  vm_compute. repeat constructor; simpl; intuition discriminate.
Qed.

Lemma ctrl_tab_witness :
  currentCanvasId
    (fst (CanvasMenu.keyDown 0 CanvasMenu.ctrlTab
            (twoCanvases, CanvasMenu.initial)))
  = "canvas-5"
  /\ currentCanvasId
       (fst (CanvasMenu.pressTab 2 (twoCanvases, CanvasMenu.initial)))
     = "default-canvas".
Proof.
  destruct (ctrl_tab_goes_round_the_canvases twoCanvases CanvasMenu.initial 0
              twoCanvases_distinct_ids)
    as (Hnext & _ & Hround).
  - simpl. lia.
  - reflexivity.
  - split; [exact Hnext | exact Hround].
Defined.


Lemma arrow_keys_witness :
  ChatSidebarList.handleKeyDown true "project-discussion" shownChats arrowUp
  = [ChatSidebarList.OnChatSelect "project-discussion"]
  /\ ChatSidebarList.handleKeyDown true "project-discussion" shownChats
       arrowDown
     = [ChatSidebarList.OnChatSelect "personal-notes"].
Proof.
  assert (Hnd : NoDup (map ChatSession.id shownChats)).
  { vm_compute. repeat constructor; simpl; intuition discriminate. }
  exact (proj2 (arrow_keys_move_within_the_list true "project-discussion"
                  shownChats arrowUp)
           0%nat noChat Hnd (Nat.lt_0_succ 2) eq_refl).
Defined.

Lemma preview_witness :
  String.length (ChatSidebarList.getLastMessage false firstChat) = 63%nat
  /\ (String.length (ChatSidebarList.getLastMessage false firstChat)
      <= 60 + 3)%nat.
Proof.
  split; [reflexivity |].
  destruct (preview_is_a_bounded_prefix false firstChat) as [_ Hlast].
  exact (proj2 (proj2 (Hlast (removelast (ChatSession.messages firstChat))
                         (last (ChatSession.messages firstChat)
                               (Message.mk "" user "" 0))
                         eq_refl))).
Defined.

Lemma age_witness :
  ChatSidebarList.formatTimestamp (fun _ => "1/1/1970") 7200000 0 = "2h".
Proof.
  destruct (age_is_shown_in_the_largest_unit (fun _ => "1/1/1970") 7200000 0)
    as (_ & _ & Hhours & _).
  destruct Hhours as [Hshown _]; [lia |]. exact Hshown.
Defined.

Lemma divider_witness :
  PanelWidths.isDragging dragging = true
  /\ PanelWidths.leftPanelWidth
       (PanelWidths.handleMouseMove (mkMouse 2000 0) dragging wideWindow)
     == 750
  /\ PanelWidths.rightPanelWidth
       (PanelWidths.handleMouseMove (mkMouse 2000 0) dragging wideWindow)
     == 449.
Proof.
  split; [reflexivity |].
  destruct (divider_keeps_both_panels_wide_enough (mkMouse 2000 0) dragging
              wideWindow eq_refl) as (_ & _ & Hwide).
  destruct Hwide as (_ & _ & _ & Hexact); [vm_compute; discriminate |].
  split; [reflexivity |].
  apply Hexact. vm_compute. discriminate.
Defined.

Lemma width_effect_witness :
  PanelWidths.withinBounds (PanelWidths.widthEffect wideWindow)
  /\ ~ PanelWidths.leftPanelWidth (PanelWidths.widthEffect narrowWindow)
       == PanelWidths.leftPanelWidth narrowWindow.
Proof.
  split.
  - apply (proj1 (width_effect_settles_only_in_a_wide_window wideWindow)).
    discriminate.
  - apply (proj2 (width_effect_settles_only_in_a_wide_window narrowWindow)).
    reflexivity.
Defined.

Lemma size_figures_witness :
  calculateInitialSize "launch plan" = mkSize 240 120
  /\ size_width (calculateInitialSize (repeatText 207 "a")) = 400.
Proof.
  split.
  - apply (proj1 (initial_size_figures "launch plan")); vm_compute; lia.
  - apply (proj1 (proj2 (initial_size_figures (repeatText 207 "a")))).
    vm_compute. lia.
Defined.

Lemma blank_input_witness :
  JS.trim (ChatPanel.inputValue (chat (typeInput "   " (Workspace.initial 0))))
  = ""
  /\ sendMessage 1 (typeInput "   " (Workspace.initial 0))
     = typeInput "   " (Workspace.initial 0).
Proof.
  split; [reflexivity |].
  exact (blank_input_is_not_sent 1 (typeInput "   " (Workspace.initial 0))
           eq_refl).
Defined.

Lemma block_click_witness :
  App.currentChatId
    (app (clickBlock (mkMouse 400 300) (Some viewport) 8 (JS.toString 7)
            (switchChats ["team-brainstorm"]
               (consumeDrag (Some viewport) 7
                  (textSelected "2" (Some " launch ")
                     (Workspace.initial 0))))))
  = "project-discussion".
Proof.
  refine (proj1 (block_click_returns_to_the_source (Workspace.initial 0) "2"
                   " launch " viewport 7 ["team-brainstorm"]
                   (mkMouse 400 300) (Some viewport) 8 _ _ _ _));
    try discriminate.
  intros [].
Defined.

Lemma appended_witness :
  Forall ChatEvents.keepsChats chatting
  /\ grows (ChatPanel.chatSessions (chat (Workspace.initial 0)))
           (ChatPanel.chatSessions
              (chat (ChatEvents.run lowerSample chatting
                       (Workspace.initial 0)))).
Proof.
  assert (Hkeep : Forall ChatEvents.keepsChats chatting)
    by (repeat constructor).
  split; [exact Hkeep |].
  exact (proj1 (messages_are_only_appended lowerSample chatting
                  (Workspace.initial 0) Hkeep)).
Defined.

Lemma chat_delete_witness :
  App.currentChatId
    (app (sidebarDelete "project-discussion" (Workspace.initial 0)))
  = "personal-notes".
Proof.
  refine (proj1 (proj1 (proj2 (proj2
            (deleting_a_chat_opens_the_first_remaining (Workspace.initial 0)
               "project-discussion"
               (nth 1 (ChatPanel.initialSessions 0) noChat)
               [nth 2 (ChatPanel.initialSessions 0) noChat] _ eq_refl)))
            eq_refl)).
  simpl. lia.
Defined.

Lemma dropped_reply_witness :
  List.length (replies orphanedReply) = 1%nat
  /\ ChatPanel.chatSessions (chat (replyArrives 0 2001 0.5 orphanedReply))
     = ChatPanel.chatSessions (chat orphanedReply).
Proof.
  split; [reflexivity |].
  refine (proj1 (reply_for_a_deleted_chat_is_dropped orphanedReply 0
                   (ChatPanel.mkReply "project-discussion"
                      "How do we align the teams?")
                   2001 0.5 eq_refl _)).
  simpl. intuition discriminate.
Defined.

Lemma unread_witness :
  exists c',
    find (fun x => String.eqb (ChatSession.id x) "team-brainstorm")
         (ChatPanel.chatSessions
            (chat (sidebarSelect "team-brainstorm" (Workspace.initial 0))))
    = Some c'
    /\ ChatSession.unreadCount c' = Some 0%Z.
Proof.
  destruct (selecting_a_chat_clears_its_unread_count (Workspace.initial 0)
              "team-brainstorm"
              (nth 2 (ChatPanel.initialSessions 0) noChat) eq_refl)
    as (_ & _ & (c' & Hfind & Hunread & _) & _).
  exists c'. split; [exact Hfind |].
  destruct Hunread as [Hnone | Hzero]; [| exact Hzero].
  exfalso. vm_compute in Hfind. inversion Hfind; subst. discriminate.
Defined.

End MoreSamples.
